(** * Directional reconciliation and refresh engine of the trade router

    A shallow embedding of [config.py], [bitquery_client.py],
    [calculation.py], [data_service.py] and the handlers of [app.py], and
    the properties of the pair resolver, the directional fetcher, the
    slippage reconciler, the mempool merger, the refresh loop, the
    service and the handlers. *)

From Stdlib Require Import ZArith NArith PrimFloat.
From Stdlib Require FloatOps SpecFloat FloatAxioms.
From stdpp Require Import base option list gmap sets strings sorting.

Local Open Scope Z_scope.

(** ** Python strings

    A Python [str] is a sequence of Unicode code points; [len] counts code
    points and [lower]/[upper] use the full case mapping, which may change
    the length of a string.  Strings are therefore lists of code points. *)

Abbreviation pystr := (list N).

(** A literal: the code points of an ASCII string. *)
Definition py (s : string) : pystr :=
  (λ a, Ascii.N_of_ascii a) <$> String.list_ascii_of_string s.

(** [str.isspace] on one code point: the complete list of the code points
    Python treats as whitespace. *)
Definition is_space (c : N) : bool :=
  (((0x09 <=? c) && (c <=? 0x0D)) || ((0x1C <=? c) && (c <=? 0x20))
   || (c =? 0x85) || (c =? 0xA0) || (c =? 0x1680)
   || ((0x2000 <=? c) && (c <=? 0x200A))
   || (c =? 0x2028) || (c =? 0x2029) || (c =? 0x202F) || (c =? 0x205F)
   || (c =? 0x3000))%N.

(** The lower-case mapping of one code point.  It is exact on U+0000 to
    U+00FF and on U+0130, whose lower case has two code points; cased
    letters of other scripts are left as they are. *)
Definition lower_cp (c : N) : pystr :=
  (if (0x41 <=? c) && (c <=? 0x5A) then [c + 32]
   else if (0xC0 <=? c) && (c <=? 0xDE) && negb (c =? 0xD7) then [c + 32]
   else if c =? 0x130 then [0x69; 0x307]
   else [c])%N.

(** The upper-case mapping of one code point.  It is exact on U+0000 to
    U+00FF and on U+0131 and U+017F, the two code points outside that range
    whose upper case is an ASCII letter. *)
Definition upper_cp (c : N) : pystr :=
  (if (0x61 <=? c) && (c <=? 0x7A) then [c - 32]
   else if c =? 0xB5 then [0x39C]
   else if c =? 0xDF then [0x53; 0x53]
   else if (0xE0 <=? c) && (c <=? 0xFE) && negb (c =? 0xF7) then [c - 32]
   else if c =? 0xFF then [0x178]
   else if c =? 0x131 then [0x49]
   else if c =? 0x17F then [0x53]
   else [c])%N.

Definition str_lower (s : pystr) : pystr := s ≫= lower_cp.
Definition str_upper (s : pystr) : pystr := s ≫= upper_cp.

Fixpoint str_lstrip (s : pystr) : pystr :=
  match s with
  | c :: s' => if is_space c then str_lstrip s' else s
  | [] => []
  end.

Definition str_strip (s : pystr) : pystr :=
  reverse (str_lstrip (reverse (str_lstrip s))).

Definition startswith (s p : pystr) : bool :=
  bool_decide (take (length p) s = p).

(** The length of a string as a Python integer. *)
Definition len {A} (l : list A) : Z := Z.of_nat (length l).

(** ** config.py *)

Module config.

Definition DATA_REFRESH_INTERVAL : Z := 30.
Definition MEMPOOL_QUERY_LIMIT : Z := 20.
Definition SLIPPAGE_QUERY_LIMIT : Z := 50.

Definition TOKEN_ADDRESSES : gmap pystr pystr :=
  list_to_map
    [ (py "USDC", py "0xa0b86991c6218b36c1d19d4a2e9eb0ce3606eb48");
      (py "USDT", py "0xdac17f958d2ee523a2206206994597c13d831ec7");
      (py "DAI",  py "0x6b175474e89094c44da98b954eedeac495271d0f");
      (py "WETH", py "0xc02aaa39b223fe8d0a0e5c4f27ead9083c756cc2");
      (py "ETH",  py "0xc02aaa39b223fe8d0a0e5c4f27ead9083c756cc2");
      (py "WBTC", py "0x2260fac5e5542a773aa44fbcfedf7c193bc2c599") ].

Definition hex_digits : pystr := py "0123456789abcdefABCDEF".

(** [token_to_address]; the argument and the result are [Optional[str]],
    with [None] for Python's [None].  The test [not symbol_or_address]
    holds of [None] and of the empty string. *)
Definition token_to_address (symbol_or_address : option pystr) : option pystr :=
  match symbol_or_address with
  | None => None
  | Some v =>
      if bool_decide (v = []) then None
      else
        let s := str_strip v in
        if startswith s (py "0x") && (len s =? 42) then Some (str_lower s)
        else if (len s =? 40) && forallb (λ c, bool_decide (c ∈ hex_digits)) s
             then Some (py "0x" ++ str_lower s)
             else TOKEN_ADDRESSES !! str_upper s
  end.

End config.

(** ** Exceptions and effects

    The code raises and catches exceptions, calls the provider over the
    network, reads the clock, sleeps, prints and invokes callbacks.  An
    action is a function of the state it runs in that returns a value or
    the exception raised, and the state it leaves; what was done before an
    exception was raised stays done. *)

Inductive exn :=
| AttributeError            (* [.get] on [None] *)
| TypeError
| ValueError
| OverflowError
| BitqueryAPIError (status_code : Z) (text : pystr)
                            (* Exception("Bitquery API error: ...") *)
| GraphQLError (errors : pystr)
                            (* Exception("GraphQL error: ...") *)
| OtherError (what : pystr). (* raised by the transport or by a callback *)

Inductive result (A : Type) :=
| Ok (a : A)
| Raise (e : exn).
Arguments Ok {A} a.
Arguments Raise {A} e.

Definition M (S A : Type) : Type := S → result A * S.

Definition ret {S A} (a : A) : M S A := λ s, (Ok a, s).
Definition raise {S A} (e : exn) : M S A := λ s, (Raise e, s).
Definition bind {S A B} (m : M S A) (k : A → M S B) : M S B :=
  λ s, match m s with
       | (Ok a, s') => k a s'
       | (Raise e, s') => (Raise e, s')
       end.

(** [try: m  except Exception as e: h e] *)
Definition try_except {S A} (m : M S A) (h : exn → M S A) : M S A :=
  λ s, match m s with
       | (Ok a, s') => (Ok a, s')
       | (Raise e, s') => h e s'
       end.

Definition of_result {S A} (r : result A) : M S A := λ s, (r, s).
Definition get_state {S} : M S S := λ s, (Ok s, s).
Definition modify {S} (f : S → S) : M S unit := λ s, (Ok tt, f s).

#[global] Instance M_ret {S} : MRet (M S) := λ A a, ret a.
#[global] Instance M_bind {S} : MBind (M S) := λ A B k m, bind m k.

(** Lifting an action on a part of the state. *)
Definition zoom {S T A} (getp : S → T) (setp : T → S → S) (m : M T A) : M S A :=
  λ s, let '(r, t) := m (getp s) in (r, setp t s).

(** [l[:n]] for a Python integer [n]: a negative [n] counts from the end. *)
Definition slice_to {A} (l : list A) (n : Z) : list A :=
  if 0 <=? n then take (Z.to_nat n) l
  else take (Z.to_nat (len l + n)) l.

(** [l[n:]] for a Python integer [n]: a negative [n] counts from the end. *)
Definition slice_from {A} (l : list A) (n : Z) : list A :=
  if 0 <=? n then drop (Z.to_nat n) l
  else drop (Z.to_nat (len l + n)) l.

(** ** JSON as the provider returns it

    A GraphQL response is a tree of objects whose shape the query fixes.
    Every key of an object can be absent, hold [null], or hold a value. *)

Inductive field (A : Type) :=
| Absent
| Null
| Present (a : A).
Arguments Absent {A}.
Arguments Null {A}.
Arguments Present {A} a.

(** [d.get(key, default)]: the result is a Python value, [None] included. *)
Definition get {A} (f : field A) (default : option A) : option A :=
  match f with
  | Absent => default
  | Null => None
  | Present a => Some a
  end.

(** A key whose value the code stores without converting it, typed as the
    data class declares the attribute; such a key is absent or present. *)
Definition get_or {A} (f : option A) (default : A) : A :=
  match f with
  | Some a => a
  | None => default
  end.

(** The receiver of a method call: [None] has no attribute [get]. *)
Definition obj {A} (o : option A) : result A :=
  match o with
  | Some a => Ok a
  | None => Raise AttributeError
  end.

(** A numeric leaf: a JSON number or a string holding one. *)
Inductive scalar :=
| SInt (z : Z)
| SFloat (f : float)
| SStr (s : pystr).

(** Truth values of Python objects. *)
Definition truthy_str (s : pystr) : bool := negb (bool_decide (s = [])).
Definition truthy_float (f : float) : bool := negb (PrimFloat.eqb f 0%float).
Definition truthy_scalar (v : scalar) : bool :=
  match v with
  | SInt z => negb (z =? 0)
  | SFloat f => truthy_float f
  | SStr s => truthy_str s
  end.
Definition truthy {A} (t : A → bool) (o : option A) : bool :=
  match o with
  | Some a => t a
  | None => false
  end.

(** [x or y] *)
Definition py_or {A} (t : A → bool) (x : option A) (y : option A) : option A :=
  if truthy t x then x else y.

(** ** bitquery_client.py: data classes, provider rows, requests *)

Module bitquery_client.

(** A [datetime] is the instant it denotes, in microseconds. *)
Abbreviation datetime := Z.

Record TokenInfo := {
  symbol : pystr;
  name : pystr;
  address : pystr;
  decimals : Z;
}.

Record PoolSlippageData := {
  block_number : Z;
  block_time : datetime;
  protocol : pystr;
  protocol_version : pystr;
  pool_address : pystr;
  token_a : TokenInfo;
  token_b : TokenInfo;
  slippage_bps : Z;
  price_atob : float;
  price_btoa : float;
  max_amount_in_atob : float;
  min_amount_out_atob : float;
  max_amount_in_btoa : float;
  min_amount_out_btoa : float;
}.

Record MempoolTradeData := {
  tx_hash : pystr;
  trade_block_number : Z;
  trade_block_time : datetime;
  from_address : pystr;
  to_address : pystr;
  trade_protocol : pystr;
  protocol_family : pystr;
  trade_token : TokenInfo;
  side_token : TokenInfo;
  trade_amount : float;
  trade_amount_usd : float;
  side_amount : float;
  side_amount_usd : float;
  price : float;
  price_usd : float;
  gas_fee : float;
  gas_fee_usd : float;
  priority_fee : float;
  priority_fee_usd : float;
  success : bool;
  buyer : pystr;
  seller : pystr;
  sender : pystr;
}.

(** *** Rows of [DEXPoolSlippages]

    [_transform_slippage_data] stores most leaves as they come; those
    leaves have the type the data class declares and are absent or
    present.  Objects, and the leaves the code converts, can be [null]. *)

Record BlockJ := {
  Block_Time : field pystr;
  Block_Number : field scalar;
}.

Record DirectionJ := {
  Direction_Price : option float;
  Direction_MinAmountOut : option float;
  Direction_MaxAmountIn : option float;
}.

Record PoolCurrencyJ := {
  PoolCurrency_Symbol : option pystr;
  PoolCurrency_SmartContract : option pystr;
  PoolCurrency_Name : option pystr;
  PoolCurrency_Decimals : option Z;
}.

Record PoolJ := {
  Pool_SmartContract : option pystr;
  Pool_CurrencyB : field PoolCurrencyJ;
  Pool_CurrencyA : field PoolCurrencyJ;
}.

Record PoolDexJ := {
  PoolDex_ProtocolVersion : option pystr;
  PoolDex_ProtocolName : option pystr;
}.

Record PriceJ := {
  Price_BtoA : field DirectionJ;
  Price_AtoB : field DirectionJ;
  Price_Pool : field PoolJ;
  Price_Dex : field PoolDexJ;
  Price_SlippageBasisPoints : option Z;
}.

Record SlippageRowJ := {
  SlippageRow_Price : field PriceJ;
  SlippageRow_Block : field BlockJ;
}.

(** *** Rows of [DEXTradeByTokens] *)

Record DexJ := {
  Dex_ProtocolName : field pystr;
  Dex_ProtocolFamily : field pystr;
}.

Record CurrencyJ := {
  Currency_Name : field pystr;
  Currency_Symbol : field pystr;
  Currency_SmartContract : field pystr;
}.

Record SideJ := {
  Side_Amount : field scalar;
  Side_AmountInUSD : field scalar;
  Side_Currency : field CurrencyJ;
}.

Record TradeJ := {
  Trade_Amount : field scalar;
  Trade_AmountInUSD : field scalar;
  Trade_Buyer : field pystr;
  Trade_Price : field scalar;
  Trade_PriceInUSD : field scalar;
  Trade_Seller : field pystr;
  Trade_Sender : field pystr;
  Trade_Success : field bool;
  Trade_Dex : field DexJ;
  Trade_Currency : field CurrencyJ;
  Trade_Side : field SideJ;
}.

Record TransactionJ := {
  Transaction_Hash : field pystr;
  Transaction_From : field pystr;
  Transaction_To : field pystr;
}.

Record FeeJ := {
  Fee_PriorityFeePerGas : field scalar;
  Fee_PriorityFeePerGasInUSD : field scalar;
  Fee_SenderFee : field scalar;
  Fee_SenderFeeInUSD : field scalar;
}.

Record TradeRowJ := {
  TradeRow_Block : field BlockJ;
  TradeRow_Fee : field FeeJ;
  TradeRow_Trade : field TradeJ;
  TradeRow_Transaction : field TransactionJ;
}.

(** The empty object [{}] at each type. *)
Definition BlockJ_empty : BlockJ := Build_BlockJ Absent Absent.
Definition DirectionJ_empty : DirectionJ := Build_DirectionJ None None None.
Definition PoolCurrencyJ_empty : PoolCurrencyJ :=
  Build_PoolCurrencyJ None None None None.
Definition PoolJ_empty : PoolJ := Build_PoolJ None Absent Absent.
Definition PoolDexJ_empty : PoolDexJ := Build_PoolDexJ None None.
Definition PriceJ_empty : PriceJ := Build_PriceJ Absent Absent Absent Absent None.
Definition DexJ_empty : DexJ := Build_DexJ Absent Absent.
Definition CurrencyJ_empty : CurrencyJ := Build_CurrencyJ Absent Absent Absent.
Definition SideJ_empty : SideJ := Build_SideJ Absent Absent Absent.
Definition TradeJ_empty : TradeJ :=
  Build_TradeJ Absent Absent Absent Absent Absent Absent Absent Absent
    Absent Absent Absent.
Definition TransactionJ_empty : TransactionJ :=
  Build_TransactionJ Absent Absent Absent.
Definition FeeJ_empty : FeeJ := Build_FeeJ Absent Absent Absent Absent.

(** *** The response of the provider *)

Record EVMJ := {
  EVM_DEXPoolSlippages : field (list SlippageRowJ);
  EVM_DEXTradeByTokens : field (list TradeRowJ);
}.

Record DataJ := {
  Data_EVM : field EVMJ;
}.

Definition EVMJ_empty : EVMJ := Build_EVMJ Absent Absent.
Definition DataJ_empty : DataJ := Build_DataJ Absent.

(** [Body_errors] is [Some txt] when the key ['errors'] is in the body,
    [txt] being what [json.dumps] prints for its value. *)
Record BodyJ := {
  Body_errors : option pystr;
  Body_data : field DataJ;
}.

(** What the code reads of a [requests.Response]; [json] is the outcome of
    [response.json()]. *)
Record response := {
  ok : bool;
  status_code : Z;
  text : pystr;
  json : result BodyJ;
}.

Inductive query :=
| DEX_POOL_SLIPPAGES_BY_TOKENS_QUERY
| MEMPOOL_DEX_TRADES_BY_TOKENS_QUERY.

Record variables := {
  limit : Z;
  tokenA : pystr;
  tokenB : pystr;
}.

Record request := {
  url : pystr;
  Authorization : pystr;
  payload_query : query;
  payload_variables : variables;
}.

(** *** What a run does that can be observed *)

Inductive printed :=
| Error_parsing_slippage_data (e : exn)
| Error_parsing_mempool_trade (e : exn)
| Error_in_refresh_loop (e : exn).

Inductive event :=
| Posted (rq : request)
| Printed (what : printed)
| Slept (seconds : Z)
| Called_on_slippage_update (data : list PoolSlippageData)
| Called_on_mempool_update (data : list MempoolTradeData)
| Called_on_error (e : exn).

(** The interpreter and the outside world: the network, the clock and the
    built-in conversions the code calls. *)
Class Runtime := {
  World : Type;
  (** [requests.post]: a response, or an exception of the transport *)
  requests_post : request → World → result response * World;
  (** [datetime.now()] *)
  datetime_now : World → datetime * World;
  (** [time.sleep]: it returns when the time has passed, or raises, as it
      does for a negative length *)
  time_sleep : Z → World → result unit * World;
  (** [int(s)] and [float(s)] of a string, [None] for [ValueError] *)
  int_of_str : pystr → option Z;
  float_of_str : pystr → option float;
  (** [int(f)] of a float, [float(z)] of an integer *)
  int_of_float : float → result Z;
  float_of_int : Z → result float;
  (** [datetime.fromisoformat], [None] for [ValueError] *)
  fromisoformat : pystr → option datetime;
}.

Record env `{Runtime} := {
  world : World;
  trace : list event;
}.

(** *** The client *)

Section client.
Context `{RT : Runtime}.

Definition emit (ev : event) : M env unit :=
  modify (λ e, {| world := world e; trace := trace e ++ [ev] |}).

Definition in_world {A} (f : World → A * World) : M env A :=
  λ e, let '(a, w) := f (world e) in (Ok a, {| world := w; trace := trace e |}).

(** An action of the world that may raise. *)
Definition in_world_raising {A} (f : World → result A * World) : M env A :=
  λ e, let '(r, w) := f (world e) in (r, {| world := w; trace := trace e |}).

(** [int(v)] *)
Definition py_int (v : option scalar) : result Z :=
  match v with
  | None => Raise TypeError
  | Some (SInt z) => Ok z
  | Some (SFloat f) => int_of_float f
  | Some (SStr s) =>
      match int_of_str s with
      | Some z => Ok z
      | None => Raise ValueError
      end
  end.

(** [float(v)] of a value that is not [None] *)
Definition py_float (v : scalar) : result float :=
  match v with
  | SInt z => float_of_int z
  | SFloat f => Ok f
  | SStr s =>
      match float_of_str s with
      | Some f => Ok f
      | None => Raise ValueError
      end
  end.

(** [s.replace('Z', '+00:00')] *)
Definition replace_Z (s : pystr) : pystr :=
  s ≫= (λ c, if (c =? 0x5A)%N then py "+00:00" else [c]).

(** [datetime.fromisoformat(block.get('Time', '').replace('Z', '+00:00'))
     if block.get('Time') else datetime.now()]; when [block.get('Time')] is
    true, [block.get('Time', '')] is the same string. *)
Definition block_time_of (block : BlockJ) : M env datetime :=
  match get (Block_Time block) None with
  | Some t =>
      if truthy_str t
      then match fromisoformat (replace_Z t) with
           | Some d => ret d
           | None => raise ValueError
           end
      else in_world datetime_now
  | None => in_world datetime_now
  end.

Record BitqueryClient := {
  api_url : pystr;
  token : pystr;
}.

(** The request that [_execute_query] posts: the URL and the headers of the
    client, the query and its variables. *)
Definition request_of (self : BitqueryClient) (q : query) (vars : variables)
  : request :=
  {| url := api_url self;
     Authorization := py "Bearer " ++ token self;
     payload_query := q;
     payload_variables := vars |}.

Definition _execute_query (self : BitqueryClient) (q : query) (vars : variables)
  : M env (option DataJ) :=
  emit (Posted (request_of self q vars));;
  response ← in_world_raising (requests_post (request_of self q vars));
  if negb (ok response)
  then raise (BitqueryAPIError (status_code response) (text response))
  else
    data ← of_result (json response);
    match Body_errors data with
    | Some errors => raise (GraphQLError errors)
    | None => ret (get (Body_data data) (Some DataJ_empty))
    end.

Definition _normalize_token_address (address : pystr) : pystr :=
  let s := str_lower (str_strip address) in
  if startswith s (py "0x") then s else py "0x" ++ s.

(** The body of the [try] of [_transform_slippage_data], for one row. *)
Definition slippage_of_row (item : SlippageRowJ) : M env PoolSlippageData :=
  let block := get (SlippageRow_Block item) (Some BlockJ_empty) in
  let price := get (SlippageRow_Price item) (Some PriceJ_empty) in
  price ← of_result (obj price);
  let pool := get (Price_Pool price) (Some PoolJ_empty) in
  let dex := get (Price_Dex price) (Some PoolDexJ_empty) in
  let atob := get (Price_AtoB price) (Some DirectionJ_empty) in
  let btoa := get (Price_BtoA price) (Some DirectionJ_empty) in
  pool ← of_result (obj pool);
  let currency_a := get (Pool_CurrencyA pool) (Some PoolCurrencyJ_empty) in
  let currency_b := get (Pool_CurrencyB pool) (Some PoolCurrencyJ_empty) in
  block ← of_result (obj block);
  number ← of_result (py_int (get (Block_Number block) (Some (SInt 0))));
  time ← block_time_of block;
  dex ← of_result (obj dex);
  currency_a ← of_result (obj currency_a);
  currency_b ← of_result (obj currency_b);
  atob ← of_result (obj atob);
  btoa ← of_result (obj btoa);
  ret {| block_number := number;
         block_time := time;
         protocol := get_or (PoolDex_ProtocolName dex) (py "Unknown");
         protocol_version := get_or (PoolDex_ProtocolVersion dex) [];
         pool_address := get_or (Pool_SmartContract pool) [];
         token_a :=
           {| symbol := get_or (PoolCurrency_Symbol currency_a) [];
              name := get_or (PoolCurrency_Name currency_a) [];
              address := get_or (PoolCurrency_SmartContract currency_a) [];
              decimals := get_or (PoolCurrency_Decimals currency_a) 18 |};
         token_b :=
           {| symbol := get_or (PoolCurrency_Symbol currency_b) [];
              name := get_or (PoolCurrency_Name currency_b) [];
              address := get_or (PoolCurrency_SmartContract currency_b) [];
              decimals := get_or (PoolCurrency_Decimals currency_b) 18 |};
         slippage_bps := get_or (Price_SlippageBasisPoints price) 0;
         price_atob := get_or (Direction_Price atob) 0%float;
         price_btoa := get_or (Direction_Price btoa) 0%float;
         max_amount_in_atob := get_or (Direction_MaxAmountIn atob) 0%float;
         min_amount_out_atob := get_or (Direction_MinAmountOut atob) 0%float;
         max_amount_in_btoa := get_or (Direction_MaxAmountIn btoa) 0%float;
         min_amount_out_btoa := get_or (Direction_MinAmountOut btoa) 0%float |}.

Fixpoint _transform_slippage_data (raw_data : list SlippageRowJ)
  : M env (list PoolSlippageData) :=
  match raw_data with
  | [] => ret []
  | item :: raw_data' =>
      parsed ← try_except
        (slippage ← slippage_of_row item; ret (Some slippage))
        (λ e, emit (Printed (Error_parsing_slippage_data e));; ret None);
      result ← _transform_slippage_data raw_data';
      ret (match parsed with
           | Some slippage => slippage :: result
           | None => result
           end)
  end.

(** [safe_float]: only [ValueError] and [TypeError] are caught. *)
Definition safe_float (val : option scalar) (default : float) : result float :=
  match val with
  | None => Ok default
  | Some v =>
      match py_float v with
      | Ok f => Ok f
      | Raise ValueError | Raise TypeError => Ok default
      | Raise e => Raise e
      end
  end.

Definition safe_str (val : option pystr) (default : pystr) : pystr :=
  match val with
  | None => default
  | Some s => s
  end.

(** The body of the [try] of [_transform_mempool_trades], for one row. *)
Definition trade_of_row (item : TradeRowJ) : M env MempoolTradeData :=
  let block := get (TradeRow_Block item) (Some BlockJ_empty) in
  let trade := get (TradeRow_Trade item) (Some TradeJ_empty) in
  let tx := get (TradeRow_Transaction item) (Some TransactionJ_empty) in
  let fee := get (TradeRow_Fee item) (Some FeeJ_empty) in
  trade ← of_result (obj trade);
  let dex := get (Trade_Dex trade) (Some DexJ_empty) in
  let currency := get (Trade_Currency trade) (Some CurrencyJ_empty) in
  let side := get (Trade_Side trade) (Some SideJ_empty) in
  side ← of_result (obj side);
  let side_currency := get (Side_Currency side) (Some CurrencyJ_empty) in
  tx ← of_result (obj tx);
  block ← of_result (obj block);
  number ← of_result
    (py_int (py_or truthy_scalar (get (Block_Number block) (Some (SInt 0)))
                   (Some (SInt 0))));
  time ← block_time_of block;
  dex ← of_result (obj dex);
  currency ← of_result (obj currency);
  side_currency ← of_result (obj side_currency);
  amount ← of_result (safe_float (get (Trade_Amount trade) None) 0%float);
  amount_usd ← of_result (safe_float (get (Trade_AmountInUSD trade) None) 0%float);
  s_amount ← of_result (safe_float (get (Side_Amount side) None) 0%float);
  s_amount_usd ← of_result (safe_float (get (Side_AmountInUSD side) None) 0%float);
  p ← of_result (safe_float (get (Trade_Price trade) None) 0%float);
  p_usd ← of_result (safe_float (get (Trade_PriceInUSD trade) None) 0%float);
  fee ← of_result (obj fee);
  gas ← of_result (safe_float (get (Fee_SenderFee fee) None) 0%float);
  gas_usd ← of_result (safe_float (get (Fee_SenderFeeInUSD fee) None) 0%float);
  prio ← of_result (safe_float (get (Fee_PriorityFeePerGas fee) None) 0%float);
  prio_usd ← of_result
    (safe_float (get (Fee_PriorityFeePerGasInUSD fee) None) 0%float);
  ret {| tx_hash := safe_str (get (Transaction_Hash tx) None) [];
         trade_block_number := number;
         trade_block_time := time;
         from_address := safe_str (get (Transaction_From tx) None) [];
         to_address := safe_str (get (Transaction_To tx) None) [];
         trade_protocol :=
           safe_str (get (Dex_ProtocolName dex) None) (py "Unknown");
         protocol_family :=
           safe_str (get (Dex_ProtocolFamily dex) None) (py "Unknown");
         trade_token :=
           {| symbol := safe_str (get (Currency_Symbol currency) None) [];
              name := safe_str (get (Currency_Name currency) None) [];
              address := safe_str (get (Currency_SmartContract currency) None) [];
              decimals := 18 |};
         side_token :=
           {| symbol := safe_str (get (Currency_Symbol side_currency) None) [];
              name := safe_str (get (Currency_Name side_currency) None) [];
              address :=
                safe_str (get (Currency_SmartContract side_currency) None) [];
              decimals := 18 |};
         trade_amount := amount;
         trade_amount_usd := amount_usd;
         side_amount := s_amount;
         side_amount_usd := s_amount_usd;
         price := p;
         price_usd := p_usd;
         gas_fee := gas;
         gas_fee_usd := gas_usd;
         priority_fee := prio;
         priority_fee_usd := prio_usd;
         success :=
           get_or (py_or id (get (Trade_Success trade) (Some true)) (Some true))
                  true;
         buyer := safe_str (get (Trade_Buyer trade) None) [];
         seller := safe_str (get (Trade_Seller trade) None) [];
         sender := safe_str (get (Trade_Sender trade) None) [] |}.

Fixpoint _transform_mempool_trades (raw_data : list TradeRowJ)
  : M env (list MempoolTradeData) :=
  match raw_data with
  | [] => ret []
  | item :: raw_data' =>
      parsed ← try_except
        (mempool_trade ← trade_of_row item; ret (Some mempool_trade))
        (λ e, emit (Printed (Error_parsing_mempool_trade e));; ret None);
      result ← _transform_mempool_trades raw_data';
      ret (match parsed with
           | Some mempool_trade => mempool_trade :: result
           | None => result
           end)
  end.

(** [data.get('EVM', {}).get(key, [])], [key] being given by its
    projection; the value is a list of rows or [None]. *)
Definition rows_of {R} (key : EVMJ → field (list R)) (data : option DataJ)
  : result (option (list R)) :=
  match obj data with
  | Raise e => Raise e
  | Ok data =>
      match obj (get (Data_EVM data) (Some EVMJ_empty)) with
      | Raise e => Raise e
      | Ok evm => Ok (get (key evm) (Some []))
      end
  end.

Definition truthy_list {A} (l : list A) : bool :=
  match l with
  | [] => false
  | _ :: _ => true
  end.

(** A list operand of a slice or of [+]: [None] is a [TypeError]. *)
Definition as_list {A} (o : option (list A)) : result (list A) :=
  match o with
  | Some l => Ok l
  | None => Raise TypeError
  end.

Definition fetch_dex_pool_slippages (self : BitqueryClient) (limit : Z)
    (token_a_address token_b_address : option pystr)
  : M env (list PoolSlippageData) :=
  match token_a_address, token_b_address with
  | Some a, Some b =>
      if negb (truthy_str a) || negb (truthy_str b) then ret []
      else
        let ta := _normalize_token_address a in
        let tb := _normalize_token_address b in
        let variables_ab := {| limit := limit; tokenA := ta; tokenB := tb |} in
        let variables_ba := {| limit := limit; tokenA := tb; tokenB := ta |} in
        data_ab ← _execute_query self DEX_POOL_SLIPPAGES_BY_TOKENS_QUERY variables_ab;
        slippages_ab ← of_result (rows_of EVM_DEXPoolSlippages data_ab);
        if truthy truthy_list slippages_ab
        then
          rows ← of_result (as_list slippages_ab);
          _transform_slippage_data (slice_to rows limit)
        else
          data_ba ← _execute_query self DEX_POOL_SLIPPAGES_BY_TOKENS_QUERY variables_ba;
          slippages_ba ← of_result (rows_of EVM_DEXPoolSlippages data_ba);
          rows ← of_result (as_list slippages_ba);
          _transform_slippage_data (slice_to rows limit)
  | _, _ => ret []
  end.

(** [(item.get('Transaction') or {}).get('Hash')]; an object is true when
    it has a key. *)
Definition truthy_Transaction (tx : TransactionJ) : bool :=
  match Transaction_Hash tx, Transaction_From tx, Transaction_To tx with
  | Absent, Absent, Absent => false
  | _, _, _ => true
  end.

Definition hash_of_row (item : TradeRowJ) : option pystr :=
  match py_or truthy_Transaction (get (TradeRow_Transaction item) None)
              (Some TransactionJ_empty) with
  | Some tx => get (Transaction_Hash tx) None
  | None => None
  end.

(** One turn of the loop over [trades_ab + trades_ba]; the state is
    [(seen_hashes, merged)]. *)
Definition merge_step (st : gset pystr * list TradeRowJ) (item : TradeRowJ)
  : gset pystr * list TradeRowJ :=
  let '(seen_hashes, merged) := st in
  match hash_of_row item with
  | Some tx_hash =>
      if truthy_str tx_hash && bool_decide (tx_hash ∈ seen_hashes) then st
      else if truthy_str tx_hash
           then (seen_hashes ∪ {[ tx_hash ]}, merged ++ [item])
           else (seen_hashes, merged ++ [item])
  | None => (seen_hashes, merged ++ [item])
  end.

Definition fetch_mempool_trades (self : BitqueryClient) (limit : Z)
    (token_a_address token_b_address : option pystr)
  : M env (list MempoolTradeData) :=
  match token_a_address, token_b_address with
  | Some a, Some b =>
      if negb (truthy_str a) || negb (truthy_str b) then ret []
      else
        let ta := _normalize_token_address a in
        let tb := _normalize_token_address b in
        let per_limit := Z.max (limit `div` 2) 5 in
        let variables_ab := {| limit := per_limit; tokenA := ta; tokenB := tb |} in
        let variables_ba := {| limit := per_limit; tokenA := tb; tokenB := ta |} in
        data_ab ← _execute_query self MEMPOOL_DEX_TRADES_BY_TOKENS_QUERY variables_ab;
        data_ba ← _execute_query self MEMPOOL_DEX_TRADES_BY_TOKENS_QUERY variables_ba;
        trades_ab ← of_result (rows_of EVM_DEXTradeByTokens data_ab);
        trades_ba ← of_result (rows_of EVM_DEXTradeByTokens data_ba);
        trades_ab ← of_result (as_list trades_ab);
        trades_ba ← of_result (as_list trades_ba);
        let '(_, merged) := foldl merge_step (∅, []) (trades_ab ++ trades_ba) in
        _transform_mempool_trades (slice_to merged limit)
  | _, _ => ret []
  end.

End client.

(** *** Utility functions *)

(** [truncate_address]; [None] is an address that is missing. *)
Definition truncate_address (address : option pystr) : pystr :=
  match address with
  | None => []
  | Some a =>
      if negb (truthy_str a) || (len a <=? 13) then a
      else slice_to a 6 ++ py "..." ++ slice_from a (-4)
  end.

End bitquery_client.

(** ** calculation.py *)

Module calculation.
Import bitquery_client.

Definition _is_pool_reversed (token_a_symbol token_b_symbol : pystr)
    (request_token_a request_token_b : option pystr) : bool :=
  if negb (truthy truthy_str request_token_a)
     || negb (truthy truthy_str request_token_b)
  then false
  else bool_decide (Some token_a_symbol = request_token_b)
       && bool_decide (Some token_b_symbol = request_token_a).

(** An item of the payload, a dict with the keys ["bps"], ["max_amount"],
    ["price"], ["price_btoa"], ["protocol"] and, when asked for,
    ["token_a"] and ["token_b"].  The integer [0] that stands for a missing
    price is the float zero, which it equals. *)
Record item := {
  item_bps : Z;
  item_max_amount : float;
  item_price : float;
  item_price_btoa : float;
  item_protocol : pystr;
  item_token_a : option pystr;
  item_token_b : option pystr;
}.

(** [sorted(l, key=key)]: the stable sort, here by insertion from the
    right, which puts an element before the equal ones that follow it. *)
Fixpoint insert_by {A} (key : A → Z) (x : A) (l : list A) : list A :=
  match l with
  | [] => [x]
  | y :: l' => if key x <=? key y then x :: l else y :: insert_by key x l'
  end.

Definition sorted {A} (l : list A) (key : A → Z) : list A :=
  foldr (insert_by key) [] l.

(** [x if (x and x > 0) else 0] *)
Definition positive_or_zero (x : float) : float :=
  if truthy_float x && PrimFloat.ltb 0%float x then x else 0%float.

(** What the body of the loop appends for the point [s]. *)
Definition item_of (token_a token_b : option pystr) (include_tokens : bool)
    (s : PoolSlippageData) : item :=
  let pool_reversed :=
    _is_pool_reversed (symbol (bitquery_client.token_a s))
                      (symbol (bitquery_client.token_b s)) token_a token_b in
  let '(price_b_per_a, max_amount) :=
    if pool_reversed
    then (positive_or_zero (price_btoa s), max_amount_in_btoa s)
    else (positive_or_zero (price_atob s), max_amount_in_atob s) in
  {| item_bps := slippage_bps s;
     item_max_amount := max_amount;
     item_price := price_b_per_a;
     item_price_btoa := price_btoa s;
     item_protocol := protocol s ++ py " v" ++ protocol_version s;
     item_token_a :=
       if include_tokens then Some (symbol (bitquery_client.token_a s)) else None;
     item_token_b :=
       if include_tokens then Some (symbol (bitquery_client.token_b s)) else None |}.

(** One turn of the loop; the state is [(seen_bps, result)]. *)
Definition transform_step (token_a token_b : option pystr) (include_tokens : bool)
    (st : gset Z * list item) (s : PoolSlippageData) : gset Z * list item :=
  let '(seen_bps, result) := st in
  if bool_decide (slippage_bps s ∈ seen_bps) then st
  else (seen_bps ∪ {[ slippage_bps s ]},
        result ++ [item_of token_a token_b include_tokens s]).

Definition transform_slippage_for_api (slippage_data : list PoolSlippageData)
    (token_a token_b : option pystr) (include_tokens : bool) : list item :=
  (foldl (transform_step token_a token_b include_tokens) (∅, [])
         (sorted slippage_data slippage_bps)).2.

End calculation.

(** ** data_service.py *)

Module data_service.
Import bitquery_client.

Section service.
Context `{RT : Runtime}.

(** A callback is code of the caller: it acts on the world and may raise. *)
Definition callback (A : Type) : Type := A → World → result unit * World.

(** The attributes of a [DataService]; the thread handle is left out. *)
Record DataService := {
  refresh_interval : Z;
  client : BitqueryClient;
  slippage_data : list PoolSlippageData;
  mempool_data : list MempoolTradeData;
  last_slippage_update : option datetime;
  last_mempool_update : option datetime;
  _running : bool;
  _on_slippage_update : option (callback (list PoolSlippageData));
  _on_mempool_update : option (callback (list MempoolTradeData));
  _on_error : option (callback exn);
}.

Definition __init__ (refresh_interval : Z) (client : BitqueryClient) : DataService :=
  {| refresh_interval := refresh_interval;
     client := client;
     slippage_data := [];
     mempool_data := [];
     last_slippage_update := None;
     last_mempool_update := None;
     _running := false;
     _on_slippage_update := None;
     _on_mempool_update := None;
     _on_error := None |}.

(** Assignments to attributes. *)
Definition set_slippage_data (v : list PoolSlippageData) (self : DataService) :=
  {| refresh_interval := refresh_interval self; client := client self;
     slippage_data := v; mempool_data := mempool_data self;
     last_slippage_update := last_slippage_update self;
     last_mempool_update := last_mempool_update self;
     _running := _running self;
     _on_slippage_update := _on_slippage_update self;
     _on_mempool_update := _on_mempool_update self;
     _on_error := _on_error self |}.

Definition set_mempool_data (v : list MempoolTradeData) (self : DataService) :=
  {| refresh_interval := refresh_interval self; client := client self;
     slippage_data := slippage_data self; mempool_data := v;
     last_slippage_update := last_slippage_update self;
     last_mempool_update := last_mempool_update self;
     _running := _running self;
     _on_slippage_update := _on_slippage_update self;
     _on_mempool_update := _on_mempool_update self;
     _on_error := _on_error self |}.

Definition set_last_slippage_update (v : option datetime) (self : DataService) :=
  {| refresh_interval := refresh_interval self; client := client self;
     slippage_data := slippage_data self; mempool_data := mempool_data self;
     last_slippage_update := v;
     last_mempool_update := last_mempool_update self;
     _running := _running self;
     _on_slippage_update := _on_slippage_update self;
     _on_mempool_update := _on_mempool_update self;
     _on_error := _on_error self |}.

Definition set_last_mempool_update (v : option datetime) (self : DataService) :=
  {| refresh_interval := refresh_interval self; client := client self;
     slippage_data := slippage_data self; mempool_data := mempool_data self;
     last_slippage_update := last_slippage_update self;
     last_mempool_update := v;
     _running := _running self;
     _on_slippage_update := _on_slippage_update self;
     _on_mempool_update := _on_mempool_update self;
     _on_error := _on_error self |}.

Definition set_running (v : bool) (self : DataService) :=
  {| refresh_interval := refresh_interval self; client := client self;
     slippage_data := slippage_data self; mempool_data := mempool_data self;
     last_slippage_update := last_slippage_update self;
     last_mempool_update := last_mempool_update self;
     _running := v;
     _on_slippage_update := _on_slippage_update self;
     _on_mempool_update := _on_mempool_update self;
     _on_error := _on_error self |}.

Definition set_on_slippage_update (cb : callback (list PoolSlippageData))
    (self : DataService) :=
  {| refresh_interval := refresh_interval self; client := client self;
     slippage_data := slippage_data self; mempool_data := mempool_data self;
     last_slippage_update := last_slippage_update self;
     last_mempool_update := last_mempool_update self;
     _running := _running self;
     _on_slippage_update := Some cb;
     _on_mempool_update := _on_mempool_update self;
     _on_error := _on_error self |}.

Definition set_on_mempool_update (cb : callback (list MempoolTradeData))
    (self : DataService) :=
  {| refresh_interval := refresh_interval self; client := client self;
     slippage_data := slippage_data self; mempool_data := mempool_data self;
     last_slippage_update := last_slippage_update self;
     last_mempool_update := last_mempool_update self;
     _running := _running self;
     _on_slippage_update := _on_slippage_update self;
     _on_mempool_update := Some cb;
     _on_error := _on_error self |}.

Definition set_on_error (cb : callback exn) (self : DataService) :=
  {| refresh_interval := refresh_interval self; client := client self;
     slippage_data := slippage_data self; mempool_data := mempool_data self;
     last_slippage_update := last_slippage_update self;
     last_mempool_update := last_mempool_update self;
     _running := _running self;
     _on_slippage_update := _on_slippage_update self;
     _on_mempool_update := _on_mempool_update self;
     _on_error := Some cb |}.

(** A method runs in the state of the object and of the outside. *)
Definition method (A : Type) : Type := M (DataService * env) A.

Definition outside {A} (m : M env A) : method A :=
  zoom snd (λ e s, (s.1, e)) m.
Definition self : method DataService := λ s, (Ok s.1, s).
Definition assign (f : DataService → DataService) : method unit :=
  modify (λ s, (f s.1, s.2)).

(** Calling a callback, when one is set; the call is recorded. *)
Definition call {A} (cb : option (callback A)) (record : A → event) (a : A)
  : M env unit :=
  match cb with
  | Some f =>
      emit (record a);;
      in_world_raising (f a)
  | None => ret tt
  end.

(** [token_to_address(token) if token else None] *)
Definition address_of (token : option pystr) : option pystr :=
  if truthy truthy_str token then config.token_to_address token else None.

Definition fetch_slippage_data (limit : Z) (token_a token_b : option pystr)
  : method (list PoolSlippageData) :=
  try_except
    (let addr_a := address_of token_a in
     let addr_b := address_of token_b in
     this ← self;
     data ← outside (fetch_dex_pool_slippages (client this) limit addr_a addr_b);
     assign (set_slippage_data data);;
     t ← outside (in_world datetime_now);
     assign (set_last_slippage_update (Some t));;
     this ← self;
     outside (call (_on_slippage_update this) Called_on_slippage_update
                   (slippage_data this));;
     this ← self;
     ret (slippage_data this))
    (λ e,
       this ← self;
       outside (call (_on_error this) Called_on_error e);;
       raise e).

Definition fetch_mempool_data (limit : Z) (token_a token_b : option pystr)
  : method (list MempoolTradeData) :=
  try_except
    (let addr_a := address_of token_a in
     let addr_b := address_of token_b in
     this ← self;
     data ← outside (fetch_mempool_trades (client this) limit addr_a addr_b);
     assign (set_mempool_data data);;
     t ← outside (in_world datetime_now);
     assign (set_last_mempool_update (Some t));;
     this ← self;
     outside (call (_on_mempool_update this) Called_on_mempool_update
                   (mempool_data this));;
     this ← self;
     ret (mempool_data this))
    (λ e,
       this ← self;
       outside (call (_on_error this) Called_on_error e);;
       raise e).

(** The dict with the keys ['slippage'] and ['mempool'], as a pair. *)
Definition fetch_all (token_a token_b : option pystr)
  : method (list PoolSlippageData * list MempoolTradeData) :=
  slippage ← fetch_slippage_data config.SLIPPAGE_QUERY_LIMIT token_a token_b;
  mempool ← fetch_mempool_data config.MEMPOOL_QUERY_LIMIT token_a token_b;
  ret (slippage, mempool).

(** The body of the [while] of [_refresh_loop]. *)
Definition refresh_cycle : method unit :=
  try_except
    (fetch_all None None;; ret tt)
    (λ e,
       outside (emit (Printed (Error_in_refresh_loop e)));;
       this ← self;
       outside (call (_on_error this) Called_on_error e));;
  this ← self;
  outside (in_world_raising (time_sleep (refresh_interval this));;
           emit (Slept (refresh_interval this))).

(** [_refresh_loop], for the turns of the loop that [turns] bounds: the
    flag [_running] is cleared by [stop], from another thread, and the loop
    runs for as long as it finds the flag set.  An exception of
    [time.sleep], which is outside the [try], ends the loop. *)
Fixpoint _refresh_loop (turns : nat) : method unit :=
  match turns with
  | O => ret tt
  | S turns' =>
      this ← self;
      if _running this then refresh_cycle;; _refresh_loop turns' else ret tt
  end.

(** [start], up to the creation of the thread, which runs [_refresh_loop]. *)
Definition start : method unit :=
  this ← self;
  if _running this then ret tt else assign (set_running true).

Definition get_latest_block (this : DataService) : option Z :=
  match block_number <$> slippage_data this with
  | [] => None
  | n :: numbers => Some (foldl Z.max n numbers)
  end.

(** [get_unique_protocols]: [list(set(...))] of the labels
    [f"{s.protocol} v{s.protocol_version}"].  Python leaves the order of
    the list open; [elements] gives the labels in one order. *)
Definition get_unique_protocols (this : DataService) : list pystr :=
  if negb (truthy_list (slippage_data this)) then []
  else
    elements (list_to_set
                ((λ s, protocol s ++ py " v" ++ protocol_version s)
                 <$> slippage_data this) : gset pystr).

(** The dict that [get_mempool_summary] returns. *)
Record summary := {
  count : Z;
  total_value_usd : float;
  unique_protocols : Z;
}.

Definition get_mempool_summary (this : DataService) : summary :=
  if negb (truthy_list (mempool_data this))
  then {| count := 0; total_value_usd := 0%float; unique_protocols := 0 |}
  else
    {| count := len (mempool_data this);
       total_value_usd :=
         foldl (λ acc t, PrimFloat.add acc (trade_amount_usd t)) 0%float
               (mempool_data this);
       unique_protocols :=
         Z.of_nat (size (list_to_set (trade_protocol <$> mempool_data this)
                         : gset pystr)) |}.

End service.

End data_service.

(** ** app.py: the handlers of [/api/data], [/api/slippage] and
    [/api/mempool] *)

Module app.
Import bitquery_client calculation data_service.

(** An item of the mempool list of [/api/data]; [block_time] is the
    instant whose ISO text is sent. *)
Record mempool_item := {
  item_tx_hash : pystr;
  item_trade_protocol : pystr;
  item_trade_token : pystr;
  item_trade_amount : float;
  item_trade_amount_usd : float;
  item_side_token : pystr;
  item_side_amount : float;
  item_side_amount_usd : float;
  item_gas_fee_usd : float;
  item_sender : pystr;
  item_block_time : datetime;
}.

(** The body of the reply of [/api/data], ['success'] being true. *)
Record all_data := {
  slippage : list item;
  mempool : list mempool_item;
  mempool_summary : summary;
  latest_block : option Z;
  last_updated : option datetime;
}.

(** The body of the reply of [/api/slippage], ['success'] being true. *)
Record slippage_only := {
  data : list item;
  slippage_latest_block : option Z;
}.

(** An item of the list of [/api/mempool]. *)
Record mempool_only_item := {
  only_tx_hash : pystr;
  only_protocol : pystr;
  only_trade_token : pystr;
  only_trade_amount : float;
  only_trade_amount_usd : float;
  only_side_token : pystr;
  only_side_amount : float;
  only_gas_fee_usd : float;
  only_sender : pystr;
}.

(** The body of the reply of [/api/mempool], ['success'] being true. *)
Record mempool_only := {
  mempool_rows : list mempool_only_item;
  mempool_only_summary : summary;
}.

(** A reply: status 200 with its body, or status 500 with the error. *)
Inductive reply (A : Type) :=
| Reply_200 (body : A)
| Reply_500 (error : exn).
Arguments Reply_200 {A} body.
Arguments Reply_500 {A} error.

Section handlers.
Context `{RT : Runtime}.

(** [request.args.get(key, '').strip() or None], for a query parameter
    that is given or not. *)
Definition arg (given : option pystr) : option pystr :=
  py_or truthy_str (Some (str_strip (get_or given []))) None.

Definition mempool_item_of (t : MempoolTradeData) : mempool_item :=
  {| item_tx_hash := tx_hash t;
     item_trade_protocol := trade_protocol t;
     item_trade_token := symbol (trade_token t);
     item_trade_amount := trade_amount t;
     item_trade_amount_usd := trade_amount_usd t;
     item_side_token := symbol (side_token t);
     item_side_amount := side_amount t;
     item_side_amount_usd := side_amount_usd t;
     item_gas_fee_usd := gas_fee_usd t;
     item_sender := sender t;
     item_block_time := trade_block_time t |}.

Definition get_all_data (args_token_a args_token_b : option pystr)
  : method (reply all_data) :=
  try_except
    (let token_a := arg args_token_a in
     let token_b := arg args_token_b in
     fetch_all token_a token_b;;
     service ← self;
     let slippage_list :=
       transform_slippage_for_api (slippage_data service) token_a token_b true in
     let mempool_list := mempool_item_of <$> slice_to (mempool_data service) 15 in
     ret (Reply_200
            {| slippage := slippage_list;
               mempool := mempool_list;
               mempool_summary := get_mempool_summary service;
               latest_block := get_latest_block service;
               last_updated := last_mempool_update service |}))
    (λ e, ret (Reply_500 e)).

Definition get_slippage (args_token_a args_token_b : option pystr)
  : method (reply slippage_only) :=
  try_except
    (let token_a := arg args_token_a in
     let token_b := arg args_token_b in
     fetch_slippage_data config.SLIPPAGE_QUERY_LIMIT token_a token_b;;
     service ← self;
     let slippage_list :=
       transform_slippage_for_api (slippage_data service) token_a token_b false in
     ret (Reply_200
            {| data := slippage_list;
               slippage_latest_block := get_latest_block service |}))
    (λ e, ret (Reply_500 e)).

Definition mempool_only_item_of (t : MempoolTradeData) : mempool_only_item :=
  {| only_tx_hash := tx_hash t;
     only_protocol := trade_protocol t;
     only_trade_token := symbol (trade_token t);
     only_trade_amount := trade_amount t;
     only_trade_amount_usd := trade_amount_usd t;
     only_side_token := symbol (side_token t);
     only_side_amount := side_amount t;
     only_gas_fee_usd := gas_fee_usd t;
     only_sender := sender t |}.

Definition get_mempool (args_token_a args_token_b : option pystr)
  : method (reply mempool_only) :=
  try_except
    (let token_a := arg args_token_a in
     let token_b := arg args_token_b in
     fetch_mempool_data config.MEMPOOL_QUERY_LIMIT token_a token_b;;
     service ← self;
     let mempool_list :=
       mempool_only_item_of <$> slice_to (mempool_data service) 15 in
     ret (Reply_200
            {| mempool_rows := mempool_list;
               mempool_only_summary := get_mempool_summary service |}))
    (λ e, ret (Reply_500 e)).

End handlers.

End app.

(** ** A simulated provider and interpreter

    The theorems below hold for every [Runtime].  The examples run on this
    one: a provider that answers each request by a fixed function, a clock
    that advances by one microsecond at each reading, and conversions for
    the plain forms of numbers and dates. *)

Module simulation.
Import bitquery_client.

Record sim_world := {
  provider : request → result response;
  clock : Z;
}.

Definition is_digit (c : N) : bool := ((0x30 <=? c) && (c <=? 0x39))%N.

Fixpoint digits (s : pystr) (acc : Z) : option Z :=
  match s with
  | [] => Some acc
  | c :: s' =>
      if is_digit c then digits s' (10 * acc + Z.of_N (c - 0x30)) else None
  end.

Definition number (s : pystr) : option Z :=
  match s with
  | [] => None
  | _ :: _ => digits s 0
  end.

(** [int(s)] for an optional sign and ASCII decimal digits, whitespace
    around them stripped. *)
Definition sim_int_of_str (s : pystr) : option Z :=
  match str_strip s with
  | 0x2D%N :: s' => Z.opp <$> number s'
  | 0x2B%N :: s' => number s'
  | s' => number s'
  end.

(** [int(f)]: truncation toward zero. *)
Definition sim_int_of_float (f : float) : result Z :=
  match FloatOps.Prim2SF f with
  | SpecFloat.S754_nan => Raise ValueError
  | SpecFloat.S754_infinity _ => Raise OverflowError
  | SpecFloat.S754_zero _ => Ok 0
  | SpecFloat.S754_finite s m e =>
      let magnitude :=
        if 0 <=? e then Z.pos m * 2 ^ e else Z.pos m `div` 2 ^ (- e) in
      Ok (if s then - magnitude else magnitude)
  end.

(** [float(z)]: rounding to the nearest float, ties to even. *)
Definition sim_float_of_int (z : Z) : result float :=
  match SpecFloat.binary_normalize FloatOps.prec FloatOps.emax z 0 false with
  | SpecFloat.S754_infinity _ => Raise OverflowError
  | sf => Ok (FloatOps.SF2Prim sf)
  end.

(** [float(s)] for an integer in decimal digits with an optional sign. *)
Definition sim_float_of_str (s : pystr) : option float :=
  match sim_int_of_str s with
  | Some z =>
      match sim_float_of_int z with
      | Ok f => Some f
      | Raise _ => None
      end
  | None => None
  end.

(** Days from 1970-01-01 to a date of the proleptic Gregorian calendar. *)
Definition days_from_civil (y m d : Z) : Z :=
  let y := if m <=? 2 then y - 1 else y in
  let era := y `div` 400 in
  let yoe := y - era * 400 in
  let doy := (153 * (if 2 <? m then m - 3 else m + 9) + 2) `div` 5 + d - 1 in
  let doe := yoe * 365 + yoe `div` 4 - yoe `div` 100 + doy in
  era * 146097 + doe - 719468.

Definition is_leap (y : Z) : bool :=
  ((y `mod` 4 =? 0) && negb (y `mod` 100 =? 0)) || (y `mod` 400 =? 0).

Definition days_in_month (y m : Z) : Z :=
  if m =? 2 then (if is_leap y then 29 else 28)
  else if (m =? 4) || (m =? 6) || (m =? 9) || (m =? 11) then 30 else 31.

(** [n] digits at the head of a string, and the rest. *)
Definition take_number (n : nat) (s : pystr) : option (Z * pystr) :=
  if bool_decide (length (take n s) = n)
  then (λ z, (z, drop n s)) <$> digits (take n s) 0
  else None.

Definition expect (c : N) (s : pystr) : option pystr :=
  match s with
  | c' :: s' => if (c =? c')%N then Some s' else None
  | [] => None
  end.

(** The offset [+HH:MM] or [-HH:MM], in seconds; no offset when the string
    ends. *)
Definition utc_offset (s : pystr) : option Z :=
  match s with
  | [] => Some 0
  | sign :: s' =>
      '(hh, s1) ← take_number 2 s';
      s2 ← expect 0x3A s1;
      '(mm, s3) ← take_number 2 s2;
      if bool_decide (s3 = []) && (hh <? 24) && (mm <? 60)
      then if (sign =? 0x2B)%N then Some (hh * 3600 + mm * 60)
           else if (sign =? 0x2D)%N then Some (- (hh * 3600 + mm * 60))
                else None
      else None
  end.

(** [datetime.fromisoformat] for [YYYY-MM-DD], then maybe one separator,
    [HH:MM:SS], maybe [.ffffff], maybe an offset. *)
Definition sim_fromisoformat (s : pystr) : option datetime :=
  '(y, s) ← take_number 4 s;
  s ← expect 0x2D s;
  '(m, s) ← take_number 2 s;
  s ← expect 0x2D s;
  '(d, s) ← take_number 2 s;
  if negb ((1 <=? y) && (1 <=? m) && (m <=? 12) && (1 <=? d)
           && (d <=? days_in_month y m))
  then None
  else
    let day := days_from_civil y m d * 86400 in
    match s with
    | [] => Some (day * 1000000)
    | _ :: s =>
        '(hh, s) ← take_number 2 s;
        s ← expect 0x3A s;
        '(mm, s) ← take_number 2 s;
        s ← expect 0x3A s;
        '(ss, s) ← take_number 2 s;
        '(us, s) ← match s with
                   | 0x2E%N :: s' => take_number 6 s'
                   | _ => Some (0, s)
                   end;
        off ← utc_offset s;
        if (hh <? 24) && (mm <? 60) && (ss <? 60)
        then Some ((day + hh * 3600 + mm * 60 + ss - off) * 1000000 + us)
        else None
    end.

(** [time.sleep(seconds)] for an integer: [OverflowError] for a length
    that does not fit the clock of the interpreter, which counts
    nanoseconds in 64 bits, [ValueError] for a negative length. *)
Definition sim_time_sleep (seconds : Z) (w : sim_world) : result unit * sim_world :=
  if (seconds <? -9223372036) || (9223372036 <? seconds)
  then (Raise OverflowError, w)
  else if seconds <? 0 then (Raise ValueError, w)
  else (Ok tt, {| provider := provider w; clock := clock w + seconds * 1000000 |}).

#[export] Instance runtime : Runtime := {|
  World := sim_world;
  requests_post := λ rq w, (provider w rq, w);
  datetime_now := λ w, (clock w, {| provider := provider w; clock := clock w + 1 |});
  time_sleep := sim_time_sleep;
  int_of_str := sim_int_of_str;
  float_of_str := sim_float_of_str;
  int_of_float := sim_int_of_float;
  float_of_int := sim_float_of_int;
  fromisoformat := sim_fromisoformat;
|}.

End simulation.

(** * The vocabulary of the properties *)

Import bitquery_client calculation data_service.

(** ** Strings *)

(** A hexadecimal digit, as the pair resolver tests it. *)
Definition is_hex (c : N) : bool := bool_decide (c ∈ config.hex_digits).

(** Lower case of one code point below U+0100. *)
Definition lower1 (c : N) : N :=
  (if (0x41 <=? c) && (c <=? 0x5A) then c + 32
   else if (0xC0 <=? c) && (c <=? 0xDE) && negb (c =? 0xD7) then c + 32
   else c)%N.

(** The string is empty or starts with a code point that is not a space. *)
Definition head_ok (s : pystr) : Prop :=
  match s with
  | c :: _ => is_space c = false
  | [] => True
  end.

(** ** Orders and first occurrences *)

Section ordering.
Context {A : Type} (key : A → Z).

(** Keys in ascending order. *)
Definition ascending : list A → Prop :=
  StronglySorted (λ x y, key x ≤ key y).

(** What a loop that skips the keys it has seen keeps of a list. *)
Fixpoint first_of_each (seen : gset Z) (l : list A) : list A :=
  match l with
  | [] => []
  | x :: l' =>
      if decide (key x ∈ seen) then first_of_each seen l'
      else x :: first_of_each (seen ∪ {[ key x ]}) l'
  end.

End ordering.

(** The identity of a row: its transaction hash when it has one that is
    not empty. *)
Definition hash_key (item : TradeRowJ) : option pystr :=
  match hash_of_row item with
  | Some h => if truthy_str h then Some h else None
  | None => None
  end.

(** What a loop that skips the hashes it has seen keeps of a list. *)
Fixpoint first_by_hash (seen : gset pystr) (rows : list TradeRowJ)
  : list TradeRowJ :=
  match rows with
  | [] => []
  | item :: rows' =>
      match hash_key item with
      | Some h =>
          if decide (h ∈ seen) then first_by_hash seen rows'
          else item :: first_by_hash (seen ∪ {[ h ]}) rows'
      | None => item :: first_by_hash seen rows'
      end
  end.

(** The hashes of a list of rows. *)
Definition hashes (rows : list TradeRowJ) : gset pystr :=
  list_to_set (omap hash_key rows).

(** Block times in descending order. *)
Definition descending (times : list datetime) : Prop :=
  StronglySorted (λ x y, y ≤ x) times.

(** ** Traces *)

(** The requests a trace holds, in the order they were posted. *)
Definition posted (t : list event) : list request :=
  omap (λ ev, match ev with Posted rq => Some rq | _ => None end) t.

(** The errors the error callback was called with, in order. *)
Definition errors_reported (t : list event) : list exn :=
  omap (λ ev, match ev with Called_on_error x => Some x | _ => None end) t.

(** The sleeps of a trace, in order. *)
Definition slept (t : list event) : list Z :=
  omap (λ ev, match ev with Slept seconds => Some seconds | _ => None end) t.

(** What the callbacks for new data were called with, in order. *)
Definition slippage_updates (t : list event) : list (list PoolSlippageData) :=
  omap (λ ev, match ev with
              | Called_on_slippage_update data => Some data
              | _ => None
              end) t.

Definition mempool_updates (t : list event) : list (list MempoolTradeData) :=
  omap (λ ev, match ev with
              | Called_on_mempool_update data => Some data
              | _ => None
              end) t.

(** The events of the client: its requests and its messages. *)
Definition of_client (ev : event) : Prop :=
  match ev with
  | Posted _ | Printed _ => True
  | _ => False
  end.

(** ** Actions and methods *)

(** Whether a result is a value, not an exception. *)
Definition returned {A} (r : result A) : bool :=
  if r is Ok _ then true else false.

Section actions.
Context `{RT : Runtime}.

(** An action that posts nothing. *)
Definition quiet {A} (m : M env A) : Prop :=
  ∀ e, posted (trace (m e).2) = posted (trace e).

(** An action that leaves the trace as it is. *)
Definition silent {A} (m : M env A) : Prop :=
  ∀ e, trace (m e).2 = trace e.

(** An action that adds to the trace events of one kind only. *)
Definition adds (P : event → Prop) {A} (m : M env A) : Prop :=
  ∀ e, ∃ evs, trace (m e).2 = trace e ++ evs ∧ Forall P evs.

(** An action of the outside that posts nothing and does not sleep. *)
Definition calm {A} (m : M env A) : Prop :=
  ∀ e, posted (trace (m e).2) = posted (trace e)
       ∧ slept (trace (m e).2) = slept (trace e).

(** A callback that returns, whatever it is called with. *)
Definition returns {A} (cb : option (callback A)) : Prop :=
  match cb with
  | Some f => ∀ a w, ∃ w', f a w = (Ok tt, w')
  | None => True
  end.

(** A length of time for which [time.sleep] returns. *)
Definition sleeps (seconds : Z) : Prop :=
  ∀ w, ∃ w', time_sleep seconds w = (Ok tt, w').

(** Two states of a service with the same client, interval, flag and
    callbacks. *)
Definition same_settings (this this' : DataService) : Prop :=
  client this' = client this
  ∧ refresh_interval this' = refresh_interval this
  ∧ _running this' = _running this
  ∧ _on_slippage_update this' = _on_slippage_update this
  ∧ _on_mempool_update this' = _on_mempool_update this
  ∧ _on_error this' = _on_error this.

(** A method that keeps the settings, posts nothing and does not sleep. *)
Definition tame {A} (m : method A) : Prop :=
  ∀ s, same_settings s.1 (m s).2.1
       ∧ posted (trace (m s).2.2) = posted (trace s.2)
       ∧ slept (trace (m s).2.2) = slept (trace s.2).

(** [t] is what the row [item] parses to, in some state. *)
Definition parsed_from (item : TradeRowJ) (t : MempoolTradeData) : Prop :=
  ∃ e e', trade_of_row item e = (Ok t, e').

(** The row parses, whatever the state. *)
Definition parses (item : TradeRowJ) : Prop :=
  ∀ e, ∃ t e', trade_of_row item e = (Ok t, e').

(** Whether the row parses in the state [e]. *)
Definition parses_in (e : env) (item : TradeRowJ) : bool :=
  returned (trade_of_row item e).1.

(** The instant the row gives for its block, when it gives one. *)
Definition row_time (item : TradeRowJ) : option datetime :=
  block ← get (TradeRow_Block item) (Some BlockJ_empty);
  t ← get (Block_Time block) None;
  if truthy_str t then fromisoformat (replace_Z t) else None.

End actions.

(** A batch whose rows all give a block time, in descending order. *)
Definition descending_batch `{RT : Runtime} (rows : list TradeRowJ) : Prop :=
  Forall (λ r, is_Some (row_time r)) rows ∧ descending (omap row_time rows).

(** * Scenarios *)

(** ** Scenarios on the simulated provider *)

Module scenario.
Import simulation.

Definition A : pystr := py "0xaaaaaaaaaaaaaaaaaaaaaaaaaaaaaaaaaaaaaaaa".
Definition B : pystr := py "0xbbbbbbbbbbbbbbbbbbbbbbbbbbbbbbbbbbbbbbbb".

Definition the_client : BitqueryClient :=
  {| api_url := py "https://streaming.bitquery.io/graphql"; token := py "" |}.

Definition the_service : DataService :=
  __init__ config.DATA_REFRESH_INTERVAL the_client.

Definition start_of (p : request → result response) : env :=
  {| world := {| provider := p; clock := 1709296205000000 |}; trace := [] |}.

Definition answer (slippages : list SlippageRowJ) (trades : list TradeRowJ)
  : result response :=
  Ok {| ok := true; status_code := 200; text := [];
        json := Ok {| Body_errors := None;
                      Body_data := Present
                        {| Data_EVM := Present
                             {| EVM_DEXPoolSlippages := Present slippages;
                                EVM_DEXTradeByTokens := Present trades |} |} |} |}.

(** A provider that holds rows for the pair in one orientation only. *)
Definition directional (tokenA tokenB : pystr) (slippages : list SlippageRowJ)
    (rq : request) : result response :=
  if bool_decide (bitquery_client.tokenA (payload_variables rq) = tokenA
                  ∧ bitquery_client.tokenB (payload_variables rq) = tokenB)
  then answer slippages []
  else answer [] [].

(** A pool of the tokens [symbol_a] at [address_a] and [symbol_b] at
    [address_b], with one point of 25 basis points. *)
Definition row_25 (symbol_a address_a symbol_b address_b : pystr)
    (price_btoa : float) : SlippageRowJ :=
  {| SlippageRow_Price := Present
       {| Price_BtoA := Present
            {| Direction_Price := Some price_btoa;
               Direction_MinAmountOut := Some 27.36%float;
               Direction_MaxAmountIn := Some 50000%float |};
          Price_AtoB := Present
            {| Direction_Price := Some 0.00055%float;
               Direction_MinAmountOut := Some 49750%float;
               Direction_MaxAmountIn := Some 27.5%float |};
          Price_Pool := Present
            {| Pool_SmartContract :=
                 Some (py "0x88e6a0c2ddd26feeb64f039a2c41296fcb3f5640");
               Pool_CurrencyB := Present
                 {| PoolCurrency_Symbol := Some symbol_b;
                    PoolCurrency_SmartContract := Some address_b;
                    PoolCurrency_Name := Some symbol_b;
                    PoolCurrency_Decimals := Some 6 |};
               Pool_CurrencyA := Present
                 {| PoolCurrency_Symbol := Some symbol_a;
                    PoolCurrency_SmartContract := Some address_a;
                    PoolCurrency_Name := Some symbol_a;
                    PoolCurrency_Decimals := Some 18 |} |};
          Price_Dex := Present
            {| PoolDex_ProtocolVersion := Some (py "3");
               PoolDex_ProtocolName := Some (py "uniswap_v3") |};
          Price_SlippageBasisPoints := Some 25 |};
     SlippageRow_Block := Present
       {| Block_Time := Present (py "2024-03-01T12:30:05Z");
          Block_Number := Present (SStr (py "19842771")) |} |}.

(** The point that row gives. *)
Definition point_25 (symbol_a address_a symbol_b address_b : pystr)
    (price_btoa : float) : PoolSlippageData :=
  {| block_number := 19842771;
     block_time := 1709296205000000;
     protocol := py "uniswap_v3";
     protocol_version := py "3";
     pool_address := py "0x88e6a0c2ddd26feeb64f039a2c41296fcb3f5640";
     token_a := {| symbol := symbol_a; name := symbol_a;
                   address := address_a; decimals := 18 |};
     token_b := {| symbol := symbol_b; name := symbol_b;
                   address := address_b; decimals := 6 |};
     slippage_bps := 25;
     price_atob := 0.00055%float;
     price_btoa := price_btoa;
     max_amount_in_atob := 27.5%float;
     min_amount_out_atob := 49750%float;
     max_amount_in_btoa := 50000%float;
     min_amount_out_btoa := 27.36%float |}.

End scenario.

(** ** Scenarios of the mempool merger *)

Module mempool_scenario.
Import simulation scenario.

(** A pending trade of [hash], seen at [time], which the provider reports
    as [reported] under [Success]. *)
Definition trade_row (hash : field pystr) (time : pystr) (reported : field bool)
  : TradeRowJ :=
  {| TradeRow_Block := Present
       {| Block_Time := Present time;
          Block_Number := Present (SStr (py "19842771")) |};
     TradeRow_Fee := Present
       {| Fee_PriorityFeePerGas := Present (SFloat 2);
          Fee_PriorityFeePerGasInUSD := Present (SFloat 0.5);
          Fee_SenderFee := Present (SFloat 0.25);
          Fee_SenderFeeInUSD := Present (SFloat 750) |};
     TradeRow_Trade := Present
       {| Trade_Amount := Present (SFloat 1.5);
          Trade_AmountInUSD := Present (SFloat 4500);
          Trade_Buyer := Present (py "0x1111111111111111111111111111111111111111");
          Trade_Price := Present (SFloat 3000);
          Trade_PriceInUSD := Present (SFloat 3000);
          Trade_Seller := Present (py "0x2222222222222222222222222222222222222222");
          Trade_Sender := Present (py "0x3333333333333333333333333333333333333333");
          Trade_Success := reported;
          Trade_Dex := Present
            {| Dex_ProtocolName := Present (py "uniswap_v3");
               Dex_ProtocolFamily := Present (py "Uniswap") |};
          Trade_Currency := Present
            {| Currency_Name := Present (py "Wrapped Ether");
               Currency_Symbol := Present (py "WETH");
               Currency_SmartContract := Present A |};
          Trade_Side := Present
            {| Side_Amount := Present (SFloat 4500);
               Side_AmountInUSD := Present (SFloat 4500);
               Side_Currency := Present
                 {| Currency_Name := Present (py "USD Coin");
                    Currency_Symbol := Present (py "USDC");
                    Currency_SmartContract := Present B |} |} |};
     TradeRow_Transaction := Present
       {| Transaction_Hash := hash;
          Transaction_From := Present (py "0x3333333333333333333333333333333333333333");
          Transaction_To := Present (py "0x4444444444444444444444444444444444444444") |} |}.

(** A provider that holds one batch of trades for (A, B) and one for
    (B, A). *)
Definition two_batches (trades_ab trades_ba : list TradeRowJ) (rq : request)
  : result response :=
  if bool_decide (tokenA (payload_variables rq) = A) then answer [] trades_ab
  else answer [] trades_ba.

Definition row_111 : TradeRowJ :=
  trade_row (Present (py "0x111")) (py "2024-03-01T12:30:30Z") (Present true).
Definition row_abc : TradeRowJ :=
  trade_row (Present (py "0xabc")) (py "2024-03-01T12:30:20Z") (Present true).
Definition row_222 : TradeRowJ :=
  trade_row (Present (py "0x222")) (py "2024-03-01T12:30:40Z") (Present false).
Definition row_null : TradeRowJ :=
  trade_row Null (py "2024-03-01T12:30:10Z") Null.

(** The fetch of the merger on two batches, from the start. *)
Definition merge (trades_ab trades_ba : list TradeRowJ) (lim : Z)
  : result (list MempoolTradeData) :=
  (fetch_mempool_trades the_client lim (Some A) (Some B)
     (start_of (two_batches trades_ab trades_ba))).1.

Definition trades_of (r : result (list MempoolTradeData)) : list MempoolTradeData :=
  match r with
  | Ok trades => trades
  | Raise _ => []
  end.

End mempool_scenario.

(** ** Scenarios of the refresh loop *)

Module refresh_scenario.
Import simulation scenario.

(** A provider that fails every call. *)
Definition failing (rq : request) : result response :=
  Raise (OtherError (py "connection refused")).

(** An error callback that returns. *)
Definition on_error : callback exn := λ _ w, (Ok tt, w).

(** An update callback that raises. *)
Definition on_update_raising : callback (list PoolSlippageData) :=
  λ _ w, (Raise (OtherError (py "callback failed")), w).

(** A running service that holds one slippage point, fetched before. *)
Definition service_with_data : DataService :=
  set_running true
    (set_on_error on_error
       (set_last_slippage_update (Some 1709296200000000)
          (set_slippage_data
             [point_25 (py "WETH") B (py "USDC") A 1800.5] the_service))).

End refresh_scenario.

(** ** Scenarios of the service and of the handlers *)

Module service_scenario.
Import simulation scenario mempool_scenario.

(** A block with its time and a number that is [null]. *)
Definition block_without_number : BlockJ :=
  {| Block_Time := Present (py "2024-03-01T12:30:05Z"); Block_Number := Null |}.

(** The rows of the other scenarios with another block. *)
Definition slippage_row_at (block : field BlockJ) (r : SlippageRowJ)
  : SlippageRowJ :=
  {| SlippageRow_Price := SlippageRow_Price r; SlippageRow_Block := block |}.

Definition trade_row_at (block : field BlockJ) (r : TradeRowJ) : TradeRowJ :=
  {| TradeRow_Block := block;
     TradeRow_Fee := TradeRow_Fee r;
     TradeRow_Trade := TradeRow_Trade r;
     TradeRow_Transaction := TradeRow_Transaction r |}.

(** A point at another tier. *)
Definition with_tier (bps : Z) (s : PoolSlippageData) : PoolSlippageData :=
  {| block_number := block_number s;
     block_time := block_time s;
     protocol := protocol s;
     protocol_version := protocol_version s;
     pool_address := pool_address s;
     token_a := token_a s;
     token_b := token_b s;
     slippage_bps := bps;
     price_atob := price_atob s;
     price_btoa := price_btoa s;
     max_amount_in_atob := max_amount_in_atob s;
     min_amount_out_atob := min_amount_out_atob s;
     max_amount_in_btoa := max_amount_in_btoa s;
     min_amount_out_btoa := min_amount_out_btoa s |}.


(** A provider that answers every query with the same rows. *)
Definition full (slippages : list SlippageRowJ) (trades : list TradeRowJ)
    (rq : request) : result response :=
  answer slippages trades.

(** Callbacks that return. *)
Definition on_slippage_update : callback (list PoolSlippageData) :=
  λ _ w, (Ok tt, w).
Definition on_mempool_update : callback (list MempoolTradeData) :=
  λ _ w, (Ok tt, w).

(** A service that holds a slippage point and two trades, fetched before,
    and has its three callbacks set. *)
Definition service_with_callbacks : DataService :=
  set_on_slippage_update on_slippage_update
    (set_on_mempool_update on_mempool_update
       (set_mempool_data
          (trades_of (merge [row_111] [row_222] 20))
          refresh_scenario.service_with_data)).

End service_scenario.

(** * Properties *)

(** ** The simulated runtime *)

Example sim_fromisoformat_epoch :
  simulation.sim_fromisoformat (py "1970-01-01T00:00:00+00:00") = Some 0.
Proof. vm_compute. reflexivity. Qed.

Example sim_fromisoformat_2024 :
  simulation.sim_fromisoformat (py "2024-03-01T12:30:05+00:00")
  = Some (1709296205 * 1000000).
Proof. vm_compute. reflexivity. Qed.

Example sim_int_of_float_trunc :
  simulation.sim_int_of_float (-2.75)%float = Ok (-2)
  ∧ simulation.sim_float_of_int 3 = Ok 3%float
  ∧ simulation.sim_int_of_str (py " -42 ") = Some (-42).
Proof. vm_compute. auto. Qed.

(** ** The pair resolver *)

Lemma is_hex_cases c :
  is_hex c = true →
  ((0x30 ≤ c ≤ 0x39) ∨ (0x41 ≤ c ≤ 0x46) ∨ (0x61 ≤ c ≤ 0x66))%N.
Proof.
  unfold is_hex. rewrite bool_decide_eq_true. intros Hc.
  vm_compute in Hc.
  repeat (apply elem_of_cons in Hc as [-> | Hc]; [lia |]).
  by apply elem_of_nil in Hc.
Qed.

Lemma is_hex_not_space c : is_hex c = true → is_space c = false.
Proof.
  intros Hc. apply is_hex_cases in Hc. unfold is_space.
  repeat (apply orb_false_intro); try (apply andb_false_iff);
    rewrite ?N.leb_gt, ?N.eqb_neq; lia.
Qed.

Lemma str_lstrip_id s :
  match s with c :: _ => is_space c = false | [] => True end → str_lstrip s = s.
Proof. destruct s as [|c s]; simpl; [done|]. by intros ->. Qed.

Lemma str_strip_hex s : forallb is_hex s = true → str_strip s = s.
Proof.
  intros Hs. unfold str_strip.
  assert (Hall : Forall (λ c, is_space c = false) s).
  { apply Forall_forall. intros c Hc. apply is_hex_not_space.
    rewrite forallb_forall in Hs. apply Hs. by apply list_elem_of_In. }
  rewrite (str_lstrip_id s).
  - rewrite (str_lstrip_id (reverse s)); [by rewrite reverse_involutive|].
    destruct (reverse s) as [|c r] eqn:E; [done|].
    rewrite Forall_forall in Hall. apply Hall.
    apply elem_of_reverse. rewrite E. left.
  - destruct s as [|c s]; [done|]. by inversion Hall.
Qed.

Lemma str_lower_length_hex s :
  forallb is_hex s = true → length (str_lower s) = length s.
Proof.
  induction s as [|c s IH]; [done|]. simpl. intros [Hc Hs]%andb_true_iff.
  unfold str_lower in *. simpl. rewrite length_app, IH by done.
  apply is_hex_cases in Hc. unfold lower_cp.
  repeat case_match; simpl; try done;
    repeat match goal with
      | H : _ && _ = _ |- _ =>
          first [apply andb_true_iff in H as [? ?] | apply andb_false_iff in H]
      | H : negb _ = _ |- _ => first [apply negb_true_iff in H | apply negb_false_iff in H]
      | H : (_ =? _)%N = true |- _ => apply N.eqb_eq in H
      | H : (_ <=? _)%N = true |- _ => apply N.leb_le in H
      end; lia.
Qed.

(** A bare address of forty hexadecimal digits resolves to its lower case
    with the prefix [0x]. *)
Lemma token_to_address_bare s :
  length s = 40%nat → forallb is_hex s = true →
  config.token_to_address (Some s) = Some (py "0x" ++ str_lower s).
Proof.
  intros Hlen Hhex. unfold config.token_to_address.
  rewrite bool_decide_eq_false_2 by (by destruct s).
  rewrite (str_strip_hex s Hhex). cbv zeta.
  unfold len. rewrite Hlen. simpl (_ =? 42). rewrite andb_false_r.
  simpl (_ =? 40). simpl andb. fold is_hex. by rewrite Hhex.
Qed.

(** The same address with the prefix [0x] resolves to the same result. *)
Lemma token_to_address_prefixed s :
  length s = 40%nat → forallb is_hex s = true →
  config.token_to_address (Some (py "0x" ++ s)) = Some (py "0x" ++ str_lower s).
Proof.
  intros Hlen Hhex. unfold config.token_to_address.
  rewrite bool_decide_eq_false_2 by done.
  assert (Hx : forallb (λ c, negb (is_space c)) (py "0x") = true) by done.
  assert (Hstrip : str_strip (py "0x" ++ s) = py "0x" ++ s).
  { unfold str_strip. rewrite (str_lstrip_id (py "0x" ++ s)) by done.
    destruct (decide (s = [])) as [->|Hne]; [done|].
    rewrite reverse_app. rewrite (str_lstrip_id (reverse s ++ _)).
    - by rewrite reverse_app, !reverse_involutive.
    - destruct (reverse s) as [|c r] eqn:E.
      + apply (f_equal reverse) in E. rewrite reverse_involutive in E. done.
      + simpl. apply is_hex_not_space. rewrite forallb_forall in Hhex.
        apply Hhex, list_elem_of_In, elem_of_reverse. rewrite E. left. }
  rewrite Hstrip. cbv zeta.
  assert (startswith (py "0x" ++ s) (py "0x") = true) as -> by done.
  unfold len. rewrite length_app, Hlen. simpl (_ =? 42). simpl andb.
  do 2 f_equal.
Qed.

(** [resolve("USDC")] and the address of USDC in upper case agree. *)
Example token_to_address_USDC :
  config.token_to_address (Some (py "USDC"))
  = Some (py "0xa0b86991c6218b36c1d19d4a2e9eb0ce3606eb48")
  ∧ config.token_to_address (Some (py "0xA0B86991C6218B36C1D19D4A2E9EB0CE3606EB48"))
    = config.token_to_address (Some (py "USDC"))
  ∧ config.token_to_address (Some (py "usdc"))
    = config.token_to_address (Some (py "USDC")).
Proof. by vm_compute. Qed.

(** Empty input and unknown symbols are unresolved. *)
Example token_to_address_unresolved :
  config.token_to_address None = None
  ∧ config.token_to_address (Some (py "")) = None
  ∧ config.token_to_address (Some (py "   ")) = None
  ∧ config.token_to_address (Some (py "DOGE")) = None
  ∧ config.token_to_address (Some (py "a0b86991c6218b36c1d19d4a2e9eb0ce3606eb4z"))
    = None.
Proof. by vm_compute. Qed.

(** C6, at the input where the code departs from it: a string of forty-two
    characters that starts with [0x] is returned in lower case whatever its
    other characters are, here forty letters [z], which are not hexadecimal
    digits; the branch for addresses without prefix does check the digits. *)
Theorem token_to_address_prefix_unchecked :
  config.token_to_address (Some (py "0xZZZZZZZZZZZZZZZZZZZZZZZZZZZZZZZZZZZZZZZZ"))
  = Some (py "0xzzzzzzzzzzzzzzzzzzzzzzzzzzzzzzzzzzzzzzzz")
  ∧ forallb is_hex (py "ZZZZZZZZZZZZZZZZZZZZZZZZZZZZZZZZZZZZZZZZ") = false
  ∧ config.token_to_address (Some (py "ZZZZZZZZZZZZZZZZZZZZZZZZZZZZZZZZZZZZZZZZ"))
    = None.
Proof. by vm_compute. Qed.

(** C9, at the input where the code departs from it: the forty-two code
    points [0x], thirty-nine [a] and U+0130 resolve to a string of
    forty-three code points, the lower case of U+0130 being [i] followed by
    U+0307, and that string does not resolve. *)
Theorem token_to_address_not_idempotent :
  let s := py "0xaaaaaaaaaaaaaaaaaaaaaaaaaaaaaaaaaaaaaaa" ++ [0x130%N] in
  let a := py "0xaaaaaaaaaaaaaaaaaaaaaaaaaaaaaaaaaaaaaaa" ++ [0x69%N; 0x307%N] in
  length s = 42%nat
  ∧ config.token_to_address (Some s) = Some a
  ∧ config.token_to_address (Some a) = None.
Proof. by vm_compute. Qed.

(** ** Reasoning about actions *)

Lemma bind_Ok {S A B} (m : M S A) (k : A → M S B) s b s' :
  (m ≫= k) s = (Ok b, s') → ∃ a s1, m s = (Ok a, s1) ∧ k a s1 = (Ok b, s').
Proof.
  unfold mbind, M_bind, bind. destruct (m s) as [[a|e] s1]; [eauto|done].
Qed.

Lemma bind_run {S A B} (m : M S A) (k : A → M S B) s :
  (m ≫= k) s = match m s with
               | (Ok a, s1) => k a s1
               | (Raise e, s1) => (Raise e, s1)
               end.
Proof. reflexivity. Qed.

Lemma try_except_run {S A} (m : M S A) (h : exn → M S A) s :
  try_except m h s = match m s with
                     | (Ok a, s1) => (Ok a, s1)
                     | (Raise e, s1) => h e s1
                     end.
Proof. reflexivity. Qed.

Lemma of_result_Ok {S A} (r : result A) (s : S) a s' :
  of_result r s = (Ok a, s') → r = Ok a ∧ s' = s.
Proof. unfold of_result. by intros [= -> ->]. Qed.

Lemma ret_Ok {S A} (a b : A) (s s' : S) :
  ret a s = (Ok b, s') → b = a ∧ s' = s.
Proof. by intros [= -> ->]. Qed.

(** Takes an equation [m s = (Ok b, s')] apart along the binds of [m]. *)
Ltac inv_run H :=
  repeat match type of H with
    | (_ ≫= _) _ = (Ok _, _) =>
        let a := fresh "a" in let s1 := fresh "s" in
        let H1 := fresh "Hrun" in
        apply bind_Ok in H as (a & s1 & H1 & H);
        try (apply of_result_Ok in H1 as [H1 ->])
    | ret _ _ = (Ok _, _) =>
        let H2 := fresh "Hst" in apply ret_Ok in H as [H H2]
    end.

(** ** The mempool merger: the success flag *)

Section mempool_success.
Context `{RT : Runtime}.

Lemma trade_of_row_success item e t e' :
  trade_of_row item e = (Ok t, e') → success t = true.
Proof.
  unfold trade_of_row. cbv zeta. intros Hrun. inv_run Hrun. subst t. simpl.
  by destruct (Trade_Success a) as [| |[|]].
Qed.

Lemma transform_mempool_total raw_data e :
  ∃ trades e', _transform_mempool_trades raw_data e = (Ok trades, e').
Proof.
  revert e. induction raw_data as [|item raw IH]; intros e; simpl; [by eexists _, _|].
  rewrite bind_run. unfold try_except at 1. rewrite bind_run.
  destruct (trade_of_row item e) as [[t|x] e1].
  - simpl. rewrite bind_run. destruct (IH e1) as (ts & e2 & ->). by eexists _, _.
  - rewrite bind_run. simpl. rewrite bind_run.
    match goal with |- context [_transform_mempool_trades raw ?e0] =>
      destruct (IH e0) as (ts & e2 & ->) end.
    by eexists _, _.
Qed.

Lemma transform_mempool_success raw_data e trades e' :
  _transform_mempool_trades raw_data e = (Ok trades, e') →
  Forall (λ t, success t = true) trades.
Proof.
  revert e trades e'. induction raw_data as [|item raw IH]; intros e trades e'; simpl.
  - intros [= <- <-]. constructor.
  - rewrite bind_run. unfold try_except at 1. rewrite bind_run.
    destruct (trade_of_row item e) as [[t|x] e1] eqn:Hrow.
    + simpl. rewrite bind_run.
      destruct (_transform_mempool_trades raw e1) as [[ts|x] e2] eqn:Hrest; [|done].
      intros [= <- <-]. constructor; [by eapply trade_of_row_success | by eapply IH].
    + rewrite bind_run. simpl. rewrite bind_run.
      match goal with |- context [_transform_mempool_trades raw ?e0] =>
        destruct (_transform_mempool_trades raw e0) as [[ts|x'] e2] eqn:Hrest end;
        [|done].
      intros [= <- <-]. by eapply IH.
Qed.

End mempool_success.

(** C8: whatever the provider reports under [Success], a row that parses
    gives a trade whose [success] is true; and [_transform_mempool_trades]
    always returns, with such trades only. *)
Theorem mempool_success_always_true `{RT : Runtime} :
  (∀ item e,
     match trade_of_row item e with
     | (Ok t, _) => success t = true
     | (Raise _, _) => True
     end)
  ∧ (∀ raw_data e, ∃ trades e',
       _transform_mempool_trades raw_data e = (Ok trades, e')
       ∧ Forall (λ t, success t = true) trades).
Proof.
  split.
  - intros item e. destruct (trade_of_row item e) as [[t|x] e'] eqn:Hrow; [|done].
    by eapply trade_of_row_success.
  - intros raw e. destruct (transform_mempool_total raw e) as (ts & e' & Hrun).
    exists ts, e'. split; [done|]. by eapply transform_mempool_success.
Qed.

(** ** The latest block *)

Lemma foldl_max_ge (l : list Z) (n : Z) :
  n ≤ foldl Z.max n l ∧ Forall (λ x, x ≤ foldl Z.max n l) l.
Proof.
  revert n. induction l as [|x l IH]; intros n; simpl; [split; [lia|constructor]|].
  destruct (IH (Z.max n x)) as [Hn Hl]. split; [lia|].
  constructor; [lia|done].
Qed.

Lemma foldl_max_elem (l : list Z) (n : Z) : foldl Z.max n l ∈ n :: l.
Proof.
  revert n. induction l as [|x l IH]; intros n; simpl; [left|].
  specialize (IH (Z.max n x)).
  apply elem_of_cons in IH as [Heq | Hin]; [|by do 2 right].
  rewrite Heq. destruct (Z.max_spec n x) as [[_ ->] | [_ ->]]; [right; left | left].
Qed.

(** C10: [get_latest_block] is [None] exactly when no slippage point is
    stored, and the greatest block number of the stored slippage points
    otherwise; the stored mempool trades play no part in it, and it is what
    [/api/data] sends as [latest_block]. *)
Theorem get_latest_block_is_max_slippage_block `{RT : Runtime} (this : DataService) :
  match get_latest_block this with
  | None => slippage_data this = []
  | Some m =>
      m ∈ (block_number <$> slippage_data this)
      ∧ Forall (λ s, block_number s ≤ m) (slippage_data this)
  end
  ∧ (∀ trades,
       get_latest_block (set_mempool_data trades this) = get_latest_block this)
  ∧ (∀ token_a token_b e,
       match app.get_all_data token_a token_b (this, e) with
       | (Ok (app.Reply_200 body), (service, _)) =>
           app.latest_block body = get_latest_block service
           ∧ (app.latest_block body = None ↔ slippage_data service = [])
       | _ => True
       end).
Proof.
  assert (Hnone : ∀ d : DataService,
             get_latest_block d = None ↔ slippage_data d = []).
  { intros d. unfold get_latest_block.
    destruct (slippage_data d) as [|s l]; simpl; [done|]. split; discriminate. }
  split; [|split].
  - unfold get_latest_block.
    destruct (slippage_data this) as [|s l] eqn:Hdata; simpl; [done|]. split.
    + change (foldl Z.max (block_number s) (block_number <$> l)
              ∈ block_number s :: (block_number <$> l)).
      apply foldl_max_elem.
    + destruct (foldl_max_ge (block_number <$> l) (block_number s)) as [Hs Hl].
      constructor; [done|]. rewrite Forall_fmap in Hl. exact Hl.
  - intros trades. reflexivity.
  - intros token_a token_b e. unfold app.get_all_data. rewrite try_except_run.
    match goal with |- context [(?m ≫= ?k) (this, e)] =>
      destruct ((m ≫= k) (this, e)) as [[reply|x] [service e']] eqn:Hrun end;
      [|done].
    inv_run Hrun. injection Hrun1 as <-. subst. simpl.
    split; [done|]. apply Hnone.
Qed.

(** ** The slippage reconciler *)

Section sorting.
Context {A : Type} (key : A → Z).

Lemma insert_by_perm x l : insert_by key x l ≡ₚ x :: l.
Proof.
  induction l as [|y l IH]; simpl; [done|].
  case_match; [done|]. rewrite IH. apply Permutation_swap.
Qed.

Lemma sorted_perm l : sorted l key ≡ₚ l.
Proof.
  induction l as [|x l IH]; simpl; [done|].
  unfold sorted in *. simpl. by rewrite insert_by_perm, IH.
Qed.

Lemma insert_by_ascending x l : ascending key l → ascending key (insert_by key x l).
Proof.
  unfold ascending. induction 1 as [|y l Hl IH Hy]; simpl.
  - repeat constructor.
  - case_match eqn:Hle.
    + apply Z.leb_le in Hle. constructor; [by constructor|].
      constructor; [done|]. eapply Forall_impl; [exact Hy|]. simpl. lia.
    + apply Z.leb_gt in Hle. constructor; [done|].
      rewrite insert_by_perm. constructor; [lia|done].
Qed.

Lemma sorted_ascending l : ascending key (sorted l key).
Proof.
  induction l as [|x l IH]; [constructor|].
  unfold sorted in *. simpl. by apply insert_by_ascending.
Qed.

(** The sort is stable: the elements of one key keep their order. *)
Lemma insert_by_filter k x l :
  filter (λ y, key y = k) (insert_by key x l)
  = filter (λ y, key y = k) (x :: l).
Proof.
  induction l as [|y l IH]; simpl; [done|].
  case_match eqn:Hle; [done|]. apply Z.leb_gt in Hle.
  rewrite !filter_cons in *.
  destruct (decide (key y = k)) as [Hy|Hy], (decide (key x = k)) as [Hx|Hx];
    try lia; by rewrite IH.
Qed.

Lemma sorted_stable k l :
  filter (λ y, key y = k) (sorted l key) = filter (λ y, key y = k) l.
Proof.
  induction l as [|x l IH]; [done|].
  unfold sorted in *. simpl. rewrite insert_by_filter, !filter_cons.
  by rewrite IH.
Qed.

Lemma first_of_each_elem seen l x :
  x ∈ first_of_each key seen l → x ∈ l ∧ key x ∉ seen.
Proof.
  revert seen. induction l as [|y l IH]; intros seen; simpl.
  - by intros ?%elem_of_nil.
  - case_decide as Hy.
    + intros [? ?]%IH. split; [by right|done].
    + intros [->|[? ?]%IH]%elem_of_cons; [split; [left|done]|].
      split; [by right|set_solver].
Qed.

Lemma first_of_each_complete seen l x :
  x ∈ l → key x ∉ seen → key x ∈ key <$> first_of_each key seen l.
Proof.
  revert seen. induction l as [|y l IH]; intros seen; simpl.
  - by intros ?%elem_of_nil.
  - intros [->|Hx]%elem_of_cons Hseen.
    + rewrite decide_False by done. simpl. left.
    + case_decide as Hy; [by apply IH|]. simpl.
      destruct (decide (key x = key y)) as [->|Hne]; [left|].
      right. apply IH; [done|set_solver].
Qed.

Lemma first_of_each_first seen l x :
  x ∈ first_of_each key seen l → head (filter (λ y, key y = key x) l) = Some x.
Proof.
  revert seen. induction l as [|y l IH]; intros seen; simpl.
  - by intros ?%elem_of_nil.
  - rewrite filter_cons. case_decide as Hy.
    + intros Hx. destruct (first_of_each_elem _ _ _ Hx) as [_ Hseen].
      rewrite decide_False by congruence. by eapply IH.
    + intros [->|Hx]%elem_of_cons; [by rewrite decide_True|].
      destruct (first_of_each_elem _ _ _ Hx) as [_ Hseen].
      rewrite decide_False by set_solver. by eapply IH.
Qed.

Lemma first_of_each_strict seen l :
  ascending key l → StronglySorted Z.lt (key <$> first_of_each key seen l).
Proof.
  unfold ascending. intros Hl. revert seen.
  induction Hl as [|y l Hl IH Hy]; intros seen; simpl; [constructor|].
  case_decide as Hseen; [apply IH|]. simpl. constructor; [apply IH|].
  apply Forall_fmap, Forall_forall. intros x Hx. simpl.
  destruct (first_of_each_elem _ _ _ Hx) as [Hin Hnew].
  rewrite Forall_forall in Hy. specialize (Hy x Hin).
  assert (key x ≠ key y) by set_solver. lia.
Qed.

End sorting.

Lemma transform_loop token_a token_b include_tokens l seen result :
  foldl (transform_step token_a token_b include_tokens) (seen, result) l
  = (seen ∪ list_to_set (slippage_bps <$> l),
     result ++ (item_of token_a token_b include_tokens
                <$> first_of_each slippage_bps seen l)).
Proof.
  revert seen result. induction l as [|s l IH]; intros seen result; simpl.
  - f_equal; [set_solver|by rewrite app_nil_r].
  - case_bool_decide as Hs.
    + rewrite decide_True by done. rewrite IH. f_equal. set_solver.
    + rewrite decide_False by done. rewrite IH. simpl.
      f_equal; [set_solver|by rewrite <- app_assoc].
Qed.

(** The payload is made of the first point of each tier, tiers ascending. *)
Lemma transform_slippage_for_api_eq data token_a token_b include_tokens :
  transform_slippage_for_api data token_a token_b include_tokens
  = item_of token_a token_b include_tokens
    <$> first_of_each slippage_bps ∅ (sorted data slippage_bps).
Proof. unfold transform_slippage_for_api. by rewrite transform_loop. Qed.

Lemma item_of_bps token_a token_b include_tokens s :
  item_bps (item_of token_a token_b include_tokens s) = slippage_bps s.
Proof. unfold item_of. by repeat case_match. Qed.

Lemma item_of_bps_fmap token_a token_b include_tokens (l : list PoolSlippageData) :
  item_bps <$> (item_of token_a token_b include_tokens <$> l)
  = slippage_bps <$> l.
Proof.
  induction l as [|s l IH]; [done|]. rewrite !fmap_cons, item_of_bps. by f_equal.
Qed.

Lemma kept_point data token_a token_b include_tokens it :
  it ∈ transform_slippage_for_api data token_a token_b include_tokens →
  ∃ s, head (filter (λ x, slippage_bps x = item_bps it) data) = Some s
       ∧ it = item_of token_a token_b include_tokens s.
Proof.
  rewrite transform_slippage_for_api_eq.
  intros (s & -> & Hs)%list_elem_of_fmap. exists s. split; [|done].
  rewrite item_of_bps. apply first_of_each_first in Hs.
  by rewrite sorted_stable in Hs.
Qed.

(** C2: the payload is strictly ascending by tier, so it is sorted and no
    two of its items share a tier; every tier of the input is in it; and the
    item of a tier is made from the first point of that tier in the input. *)
Theorem transform_slippage_for_api_sorted_dedup
    (data : list PoolSlippageData) (token_a token_b : option pystr)
    (include_tokens : bool) :
  let out := transform_slippage_for_api data token_a token_b include_tokens in
  StronglySorted Z.lt (item_bps <$> out)
  ∧ (∀ s, s ∈ data → slippage_bps s ∈ item_bps <$> out)
  ∧ (∀ it, it ∈ out →
       ∃ s, head (filter (λ x, slippage_bps x = item_bps it) data) = Some s
            ∧ it = item_of token_a token_b include_tokens s).
Proof.
  cbv zeta. split; [|split].
  - rewrite transform_slippage_for_api_eq, item_of_bps_fmap.
    apply first_of_each_strict, sorted_ascending.
  - intros s Hs. rewrite transform_slippage_for_api_eq, item_of_bps_fmap.
    apply first_of_each_complete; [|set_solver].
    by rewrite sorted_perm.
  - intros it. apply kept_point.
Qed.

Example row_25_parses :
  (slippage_of_row
     (scenario.row_25 (py "B") scenario.B (py "A") scenario.A 1800.5)
     (scenario.start_of (λ _, Raise TypeError))).1
  = Ok (scenario.point_25 (py "B") scenario.B (py "A") scenario.A 1800.5).
Proof. vm_compute. reflexivity. Qed.

(** ** The slippage reconciler: direction *)

(** The guard [x and x > 0] is the test [x > 0]. *)
Lemma positive_or_zero_eq x :
  positive_or_zero x = if PrimFloat.ltb 0%float x then x else 0%float.
Proof.
  unfold positive_or_zero, truthy_float.
  destruct (PrimFloat.ltb 0%float x) eqn:Hlt; [|by rewrite andb_false_r].
  rewrite andb_true_r.
  rewrite FloatAxioms.ltb_spec in Hlt. rewrite FloatAxioms.eqb_spec.
  change (FloatOps.Prim2SF 0) with (SpecFloat.S754_zero false) in *.
  by destruct (FloatOps.Prim2SF x) as [[]|[]| |[] m e].
Qed.

Lemma _is_pool_reversed_true (a b : pystr) :
  a ≠ [] → b ≠ [] → _is_pool_reversed b a (Some a) (Some b) = true.
Proof.
  intros Ha Hb. unfold _is_pool_reversed, truthy, truthy_str.
  rewrite !bool_decide_eq_false_2 by done. simpl.
  by rewrite !bool_decide_eq_true_2.
Qed.

Lemma item_of_reversed (a b : pystr) include_tokens s :
  a ≠ [] → b ≠ [] → symbol (token_a s) = b → symbol (token_b s) = a →
  item_price (item_of (Some a) (Some b) include_tokens s)
  = (if PrimFloat.ltb 0%float (price_btoa s) then price_btoa s else 0%float)
  ∧ item_max_amount (item_of (Some a) (Some b) include_tokens s)
    = max_amount_in_btoa s.
Proof.
  intros Ha Hb Hsa Hsb. unfold item_of. rewrite Hsa, Hsb.
  rewrite _is_pool_reversed_true by done. simpl.
  by rewrite positive_or_zero_eq.
Qed.

(** What the code does for a pool whose symbols are the words of the
    request, exchanged: for a request of two non-empty strings [a] and [b],
    the item of a kept point whose pool symbols are [b] and [a], in that
    order, has for price the B→A price of the point when that price is
    greater than zero, and zero otherwise, and for maximum amount the B→A
    maximum input. *)
Lemma transform_slippage_for_api_reversed_symbols
    (data : list PoolSlippageData) (a b : pystr) (include_tokens : bool) :
  a ≠ [] → b ≠ [] →
  let out := transform_slippage_for_api data (Some a) (Some b) include_tokens in
  (∀ it, it ∈ out →
     ∃ s, head (filter (λ x, slippage_bps x = item_bps it) data) = Some s
          ∧ it = item_of (Some a) (Some b) include_tokens s
          ∧ (symbol (token_a s) = b → symbol (token_b s) = a →
             item_price it
             = (if PrimFloat.ltb 0%float (price_btoa s) then price_btoa s
                else 0%float)
             ∧ item_max_amount it = max_amount_in_btoa s))
  ∧ (∀ s, data = [s] → symbol (token_a s) = b → symbol (token_b s) = a →
          slippage_bps s = 25 → price_btoa s = 1800.5%float →
          max_amount_in_btoa s = 50000%float →
          (λ it, (item_bps it, item_price it, item_max_amount it)) <$> out
          = [(25, 1800.5%float, 50000%float)]).
Proof.
  intros Ha Hb. cbv zeta. split.
  - intros it (s & Hs & ->)%kept_point. exists s. split; [done|]. split; [done|].
    intros Hsa Hsb. by apply item_of_reversed.
  - intros s -> Hsa Hsb Hbps Hprice Hmax.
    rewrite transform_slippage_for_api_eq. simpl.
    rewrite decide_False by set_solver. simpl.
    destruct (item_of_reversed a b include_tokens s Ha Hb Hsa Hsb) as [-> ->].
    by rewrite item_of_bps, Hbps, Hprice, Hmax.
Qed.

(** The guard of the price: with the symbols exchanged and a B→A price of
    -1 the price of the item is 0. *)
Example transform_slippage_for_api_negative_price :
  item_price <$> transform_slippage_for_api
    [scenario.point_25 (py "WETH") scenario.B (py "USDC") scenario.A (-1)]
    (Some (py "USDC")) (Some (py "WETH")) true = [0%float].
Proof. by vm_compute. Qed.

(** C1: a pool found under the reversed orientation only is not seen as
    reversed, unless the request spells the symbols as the pool has them.
    The provider has no row for the requested orientation and one row for
    the other, of a pool whose token A is the second token of the request
    and whose token B is the first, at 25 basis points, with B→A price
    1800.5 and B→A maximum input 50000, and A→B price 0.00055 and A→B
    maximum input 27.5.  In each case [/api/slippage] posts the request
    for the pair and then the one for the pair exchanged, and stores the
    row of the second.  Asked by the addresses [A] and [B] it answers with
    the A→B price and maximum input, where the B→A price and maximum input
    are due; so it does asked for [usdc] and [weth], and asked for [USDC]
    and [ETH], which resolve to the addresses of the pool.  Asked for
    [USDC] and [WETH] it answers with the B→A fields. *)
Theorem reversed_pool_not_detected :
  let USDC := py "0xa0b86991c6218b36c1d19d4a2e9eb0ce3606eb48" in
  let WETH := py "0xc02aaa39b223fe8d0a0e5c4f27ead9083c756cc2" in
  let reply (first second : pystr) (provider : request → result response) :=
    let run :=
      app.get_slippage (Some first) (Some second)
        (scenario.the_service, scenario.start_of provider) in
    ((λ rq, (tokenA (payload_variables rq), tokenB (payload_variables rq)))
       <$> posted (trace run.2.2),
     (λ s, (symbol (token_a s), symbol (token_b s))) <$> slippage_data run.2.1,
     match run.1 with
     | Ok (app.Reply_200 body) =>
         (λ it, (item_bps it, item_price it, item_max_amount it)) <$> app.data body
     | _ => []
     end) in
  let pool :=
    scenario.directional WETH USDC
      [scenario.row_25 (py "WETH") WETH (py "USDC") USDC 1800.5] in
  reply scenario.A scenario.B
    (scenario.directional scenario.B scenario.A
       [scenario.row_25 (py "WETH") scenario.B (py "USDC") scenario.A 1800.5])
  = ([(scenario.A, scenario.B); (scenario.B, scenario.A)],
     [(py "WETH", py "USDC")],
     [(25, 0.00055%float, 27.5%float)])
  ∧ reply (py "usdc") (py "weth") pool
    = ([(USDC, WETH); (WETH, USDC)],
       [(py "WETH", py "USDC")],
       [(25, 0.00055%float, 27.5%float)])
  ∧ reply (py "USDC") (py "ETH") pool
    = ([(USDC, WETH); (WETH, USDC)],
       [(py "WETH", py "USDC")],
       [(25, 0.00055%float, 27.5%float)])
  ∧ reply (py "USDC") (py "WETH") pool
    = ([(USDC, WETH); (WETH, USDC)],
       [(py "WETH", py "USDC")],
       [(25, 1800.5%float, 50000%float)])
  ∧ (25, 0.00055%float, 27.5%float) ≠ (25, 1800.5%float, 50000%float).
Proof.
  cbv zeta. do 4 (split; [by vm_compute|]).
  intros H. apply (f_equal (λ p, PrimFloat.ltb p.2 100%float)) in H.
  vm_compute in H. discriminate.
Qed.

(** ** The directional fetcher *)

Section fetcher.
Context `{RT : Runtime}.

Lemma quiet_ret {A} (a : A) : quiet (ret a).
Proof. by intros e. Qed.

Lemma quiet_raise {A} x : quiet (raise x : M env A).
Proof. by intros e. Qed.

Lemma quiet_of_result {A} (r : result A) : quiet (of_result r).
Proof. by intros e. Qed.

Lemma quiet_bind {A B} (m : M env A) (k : A → M env B) :
  quiet m → (∀ a, quiet (k a)) → quiet (m ≫= k).
Proof.
  intros Hm Hk e. rewrite bind_run. specialize (Hm e).
  destruct (m e) as [[a|x] e1]; simpl in *; [|done].
  by rewrite Hk.
Qed.

Lemma quiet_try_except {A} (m : M env A) h :
  quiet m → (∀ x, quiet (h x)) → quiet (try_except m h).
Proof.
  intros Hm Hh e. rewrite try_except_run. specialize (Hm e).
  destruct (m e) as [[a|x] e1]; simpl in *; [done|].
  by rewrite Hh.
Qed.

Lemma quiet_in_world {A} (f : World → A * World) : quiet (in_world f).
Proof. intros e. unfold in_world. by destruct (f (world e)). Qed.

Lemma quiet_in_world_raising {A} (f : World → result A * World) :
  quiet (in_world_raising f).
Proof. intros e. unfold in_world_raising. by destruct (f (world e)). Qed.

Lemma quiet_emit ev :
  match ev with Posted _ => False | _ => True end → quiet (emit ev).
Proof.
  intros Hev e. unfold emit, modify, posted. simpl.
  rewrite omap_app. destruct ev; simpl; try done; by rewrite app_nil_r.
Qed.

Lemma quiet_block_time_of block : quiet (block_time_of block).
Proof.
  unfold block_time_of.
  repeat case_match;
    first [apply quiet_ret | apply quiet_raise | apply quiet_in_world].
Qed.

Lemma quiet_slippage_of_row item : quiet (slippage_of_row item).
Proof.
  unfold slippage_of_row. cbv zeta.
  repeat (apply quiet_bind; [first [apply quiet_of_result | apply quiet_block_time_of]|intros ?]).
  apply quiet_ret.
Qed.

Lemma quiet_trade_of_row item : quiet (trade_of_row item).
Proof.
  unfold trade_of_row. cbv zeta.
  repeat (apply quiet_bind; [first [apply quiet_of_result | apply quiet_block_time_of]|intros ?]).
  apply quiet_ret.
Qed.

Lemma quiet_transform_slippage_data raw_data :
  quiet (_transform_slippage_data raw_data).
Proof.
  induction raw_data as [|item raw IH]; simpl; [apply quiet_ret|].
  apply quiet_bind.
  - apply quiet_try_except.
    + apply quiet_bind; [apply quiet_slippage_of_row|intros; apply quiet_ret].
    + intros x. apply quiet_bind; [by apply quiet_emit|intros; apply quiet_ret].
  - intros parsed. apply quiet_bind; [exact IH|intros; apply quiet_ret].
Qed.

Lemma quiet_transform_mempool_trades raw_data :
  quiet (_transform_mempool_trades raw_data).
Proof.
  induction raw_data as [|item raw IH]; simpl; [apply quiet_ret|].
  apply quiet_bind.
  - apply quiet_try_except.
    + apply quiet_bind; [apply quiet_trade_of_row|intros; apply quiet_ret].
    + intros x. apply quiet_bind; [by apply quiet_emit|intros; apply quiet_ret].
  - intros parsed. apply quiet_bind; [exact IH|intros; apply quiet_ret].
Qed.

(** [_execute_query] posts its request, once, whatever comes back. *)
Lemma _execute_query_posted self q vars e :
  posted (trace (_execute_query self q vars e).2)
  = posted (trace e) ++ [request_of self q vars].
Proof.
  unfold _execute_query. rewrite bind_run.
  unfold emit at 1, modify at 1. cbv beta iota.
  match goal with |- context [(?m ≫= ?k) ?e1] =>
    assert (Hq : quiet (m ≫= k)); [|rewrite (Hq e1)] end.
  - apply quiet_bind; [apply quiet_in_world_raising|]. intros response.
    case_match; [apply quiet_raise|].
    apply quiet_bind; [apply quiet_of_result|]. intros data.
    case_match; [apply quiet_raise|apply quiet_ret].
  - simpl. unfold posted. by rewrite omap_app.
Qed.

End fetcher.

(** C4: without both addresses (one is [None] or empty) the fetch returns
    the empty list and leaves the world and the trace as they were, so no
    request is posted, and so does the mempool fetch; with both, it posts
    the request for (A, B) first, and the request for (B, A) after it
    exactly when the first came back, without raising, with no row. *)
Theorem fetch_dex_pool_slippages_orientations `{RT : Runtime}
    (self : BitqueryClient) (limit : Z)
    (token_a_address token_b_address : option pystr) (e : env) :
  let fetch := fetch_dex_pool_slippages self limit token_a_address token_b_address in
  if negb (truthy truthy_str token_a_address)
     || negb (truthy truthy_str token_b_address)
  then fetch e = (Ok [], e)
       ∧ fetch_mempool_trades self limit token_a_address token_b_address e
         = (Ok [], e)
  else
    let ta := _normalize_token_address (default [] token_a_address) in
    let tb := _normalize_token_address (default [] token_b_address) in
    let variables_ab := {| limit := limit; tokenA := ta; tokenB := tb |} in
    let variables_ba := {| limit := limit; tokenA := tb; tokenB := ta |} in
    posted (trace (fetch e).2)
    = posted (trace e)
      ++ request_of self DEX_POOL_SLIPPAGES_BY_TOKENS_QUERY variables_ab
      :: match _execute_query self DEX_POOL_SLIPPAGES_BY_TOKENS_QUERY variables_ab e with
         | (Ok data_ab, _) =>
             match rows_of EVM_DEXPoolSlippages data_ab with
             | Ok slippages_ab =>
                 if truthy truthy_list slippages_ab then []
                 else [request_of self DEX_POOL_SLIPPAGES_BY_TOKENS_QUERY variables_ba]
             | Raise _ => []
             end
         | (Raise _, _) => []
         end.
Proof.
  cbv zeta. unfold fetch_dex_pool_slippages, fetch_mempool_trades.
  destruct token_a_address as [a|], token_b_address as [b|]; simpl;
    rewrite ?orb_true_r; try done.
  destruct (negb (truthy_str a) || negb (truthy_str b)) eqn:Hguard; [done|].
  rewrite bind_run.
  pose proof (_execute_query_posted self DEX_POOL_SLIPPAGES_BY_TOKENS_QUERY
    {| limit := limit; tokenA := _normalize_token_address a;
       tokenB := _normalize_token_address b |} e) as Hab.
  destruct (_execute_query self DEX_POOL_SLIPPAGES_BY_TOKENS_QUERY _ e)
    as [[data_ab|x] e1]; simpl in *; [|done].
  rewrite bind_run. unfold of_result at 1.
  destruct (rows_of EVM_DEXPoolSlippages data_ab) as [slippages_ab|x]; simpl; [|done].
  destruct (truthy truthy_list slippages_ab) eqn:Hrows.
  - rewrite bind_run. unfold of_result at 1.
    destruct (as_list slippages_ab) as [rows|x]; simpl; [|done].
    by rewrite quiet_transform_slippage_data.
  - rewrite bind_run.
    pose proof (_execute_query_posted self DEX_POOL_SLIPPAGES_BY_TOKENS_QUERY
      {| limit := limit; tokenA := _normalize_token_address b;
         tokenB := _normalize_token_address a |} e1) as Hba.
    destruct (_execute_query self DEX_POOL_SLIPPAGES_BY_TOKENS_QUERY _ e1)
      as [[data_ba|x] e2]; simpl in *;
      [|by rewrite Hba, Hab, <- app_assoc].
    assert (Hrest : ∀ m : M env (list PoolSlippageData), quiet m →
              posted (trace (m e2).2)
              = posted (trace e) ++ [request_of self DEX_POOL_SLIPPAGES_BY_TOKENS_QUERY
                   {| limit := limit; tokenA := _normalize_token_address a;
                      tokenB := _normalize_token_address b |};
                 request_of self DEX_POOL_SLIPPAGES_BY_TOKENS_QUERY
                   {| limit := limit; tokenA := _normalize_token_address b;
                      tokenB := _normalize_token_address a |}]).
    { intros m Hm. by rewrite Hm, Hba, Hab, <- app_assoc. }
    apply Hrest.
    apply quiet_bind; [apply quiet_of_result|]. intros slippages_ba.
    apply quiet_bind; [apply quiet_of_result|]. intros rows.
    apply quiet_transform_slippage_data.
Qed.

(** ** The mempool merger *)

Lemma merge_step_eq seen merged item :
  merge_step (seen, merged) item
  = match hash_key item with
    | Some h =>
        if decide (h ∈ seen) then (seen, merged)
        else (seen ∪ {[ h ]}, merged ++ [item])
    | None => (seen, merged ++ [item])
    end.
Proof.
  unfold merge_step, hash_key. destruct (hash_of_row item) as [h|]; [|done].
  destruct (truthy_str h); simpl; [|done].
  case_bool_decide; by case_decide.
Qed.

Lemma hashes_cons item rows :
  hashes (item :: rows)
  = match hash_key item with
    | Some h => {[ h ]} ∪ hashes rows
    | None => hashes rows
    end.
Proof. unfold hashes. simpl. by destruct (hash_key item). Qed.

Lemma merge_loop rows seen merged :
  foldl merge_step (seen, merged) rows
  = (seen ∪ hashes rows, merged ++ first_by_hash seen rows).
Proof.
  revert seen merged. induction rows as [|item rows IH]; intros seen merged.
  - simpl. f_equal; [set_solver|by rewrite app_nil_r].
  - cbn [foldl first_by_hash]. rewrite merge_step_eq, hashes_cons.
    destruct (hash_key item) as [h|].
    + case_decide.
      * rewrite IH. f_equal. set_solver.
      * rewrite IH, <- app_assoc. f_equal. set_solver.
    + by rewrite IH, <- app_assoc.
Qed.

Lemma first_by_hash_app seen rows1 rows2 :
  first_by_hash seen (rows1 ++ rows2)
  = first_by_hash seen rows1 ++ first_by_hash (seen ∪ hashes rows1) rows2.
Proof.
  revert seen. induction rows1 as [|item rows1 IH]; intros seen.
  - simpl. f_equal. set_solver.
  - cbn [app first_by_hash]. rewrite hashes_cons.
    destruct (hash_key item) as [h|].
    + case_decide.
      * rewrite IH. do 2 f_equal. set_solver.
      * rewrite IH. simpl. do 3 f_equal. set_solver.
    + by rewrite IH.
Qed.

Lemma first_by_hash_sublist seen rows : first_by_hash seen rows `sublist_of` rows.
Proof.
  revert seen. induction rows as [|item rows IH]; intros seen; simpl; [done|].
  destruct (hash_key item) as [h|]; [case_decide|].
  - apply sublist_cons, IH.
  - apply sublist_skip, IH.
  - apply sublist_skip, IH.
Qed.

(** Of the rows of one hash the loop keeps the first, unless the hash was
    seen before. *)
Lemma first_by_hash_filter seen rows h :
  filter (λ r, hash_key r = Some h) (first_by_hash seen rows)
  = if decide (h ∈ seen) then []
    else take 1 (filter (λ r, hash_key r = Some h) rows).
Proof.
  revert seen. induction rows as [|item rows IH]; intros seen.
  - simpl. by case_decide.
  - cbn [first_by_hash]. rewrite (filter_cons _ item rows).
    destruct (hash_key item) as [h'|] eqn:Hkey.
    + destruct (decide (h' ∈ seen)) as [Hseen|Hseen].
      * rewrite IH. case_decide; [done|].
        rewrite decide_False by congruence. done.
      * rewrite filter_cons, Hkey, IH.
        destruct (decide (Some h' = Some h)) as [[= ->]|Hne].
        -- rewrite (decide_True (P := h ∈ seen ∪ {[h]})) by set_solver.
           by rewrite decide_False.
        -- destruct (decide (h ∈ seen)) as [Hh|Hh];
             [rewrite decide_True by set_solver|rewrite decide_False by set_solver];
             done.
    + rewrite filter_cons, Hkey, IH. by rewrite !decide_False by done.
Qed.

(** The rows without a hash are all kept. *)
Lemma first_by_hash_no_hash seen rows :
  filter (λ r, hash_key r = None) (first_by_hash seen rows)
  = filter (λ r, hash_key r = None) rows.
Proof.
  revert seen. induction rows as [|item rows IH]; intros seen; [done|].
  cbn [first_by_hash]. rewrite (filter_cons _ item rows).
  destruct (hash_key item) as [h|] eqn:Hkey.
  - rewrite (decide_False (P := Some h = None)) by done.
    case_decide; [done|].
    rewrite filter_cons, Hkey. by rewrite (decide_False (P := Some h = None)).
  - rewrite filter_cons, Hkey. by rewrite !(decide_True (P := None = None)), IH.
Qed.

(** Rows whose hashes differ from one another and were not seen are all
    kept. *)
Lemma first_by_hash_distinct seen rows :
  NoDup (omap hash_key rows) → hashes rows ## seen →
  first_by_hash seen rows = rows.
Proof.
  revert seen. induction rows as [|item rows IH]; intros seen; [done|].
  rewrite hashes_cons. cbn [omap list_omap first_by_hash].
  destruct (hash_key item) as [h|] eqn:Hkey.
  - intros [Hh Hnd]%NoDup_cons Hdisj.
    rewrite decide_False by set_solver. f_equal. apply IH; [done|].
    unfold hashes in *. set_solver.
  - intros Hnd Hdisj. f_equal. by apply IH.
Qed.

Section merger.
Context `{RT : Runtime}.

Lemma parsed_from_hash item t :
  parsed_from item t → tx_hash t = default [] (hash_of_row item).
Proof.
  intros (e & e' & Hrun). unfold trade_of_row in Hrun. cbv zeta in Hrun.
  inv_run Hrun. subst t. simpl. unfold hash_of_row.
  destruct (TradeRow_Transaction item) as [| |tx]; simpl in *; try done.
  - injection Hrun2 as <-. done.
  - injection Hrun2 as <-. unfold py_or, truthy.
    destruct (truthy_Transaction tx) eqn:Htx; [by destruct (Transaction_Hash tx)|].
    unfold truthy_Transaction in Htx. simpl.
    by destruct (Transaction_Hash tx), (Transaction_From tx), (Transaction_To tx).
Qed.

Lemma parsed_from_key item t h :
  parsed_from item t → h ≠ [] → tx_hash t = h ↔ hash_key item = Some h.
Proof.
  intros ->%parsed_from_hash Hh. unfold hash_key, truthy_str.
  destruct (hash_of_row item) as [h'|]; simpl; [|split; [congruence|done]].
  case_bool_decide as Hh'; simpl; split; congruence.
Qed.

Lemma parsed_from_time item t d :
  parsed_from item t → row_time item = Some d → trade_block_time t = d.
Proof.
  intros (e & e' & Hrun). unfold trade_of_row in Hrun. cbv zeta in Hrun.
  inv_run Hrun. subst t. simpl. unfold row_time.
  destruct (get (TradeRow_Block item) (Some BlockJ_empty)) as [block|];
    simpl in *; [|done].
  injection Hrun3 as <-. unfold block_time_of in Hrun5.
  destruct (get (Block_Time block) None) as [time|]; simpl; [|done].
  destruct (truthy_str time); [|done].
  destruct (fromisoformat (replace_Z time)) as [d'|]; [|done].
  injection Hrun5 as <- <-. congruence.
Qed.

Lemma filter_cons_bool {A} (f : A → bool) x l :
  filter (λ y, f y) (x :: l)
  = if f x then x :: filter (λ y, f y) l else filter (λ y, f y) l.
Proof.
  rewrite filter_cons. destruct (decide (f x)) as [H|H]; by destruct (f x).
Qed.

(** Whether a row parses does not depend on the state: the state gives the
    time of a row without one, and nothing else. *)
Lemma bind_of_result {A B} (r : result A) (k : A → M env B) e :
  (of_result r ≫= k) e
  = match r with Ok a => k a e | Raise x => (Raise x, e) end.
Proof. by destruct r. Qed.

Lemma block_time_of_returned block e e' :
  returned (block_time_of block e).1 = returned (block_time_of block e').1.
Proof.
  unfold block_time_of, in_world.
  destruct (get (Block_Time block) None) as [t|];
    [destruct (truthy_str t); [by destruct (fromisoformat _)|]|];
    by destruct (datetime_now (world e)), (datetime_now (world e')).
Qed.

Lemma parses_in_state item e e' : parses_in e item = parses_in e' item.
Proof.
  unfold parses_in, trade_of_row. cbv zeta.
  repeat (rewrite !bind_of_result;
          match goal with
          | |- returned (match ?r with Ok _ => _ | Raise _ => _ end).1 = _ =>
              destruct r; [|reflexivity]
          end).
  rewrite !bind_run.
  match goal with |- context [block_time_of ?b _] =>
    pose proof (block_time_of_returned b e e') as Htime;
    destruct (block_time_of b e) as [[t|x] e1],
             (block_time_of b e') as [[t'|x'] e1']; try done end.
  repeat (rewrite !bind_of_result;
          match goal with
          | |- returned (match ?r with Ok _ => _ | Raise _ => _ end).1 = _ =>
              destruct r; [|reflexivity]
          end).
  reflexivity.
Qed.

Lemma parses_in_parses item e : parses_in e item ↔ parses item.
Proof.
  split.
  - intros Hin e'. rewrite (parses_in_state item e e') in Hin.
    unfold parses_in in Hin.
    destruct (trade_of_row item e') as [[t|x] e1]; [by eexists _, _|done].
  - intros Hitem. destruct (Hitem e) as (t & e1 & Hrun).
    unfold parses_in. by rewrite Hrun.
Qed.

(** The trades that [_transform_mempool_trades] returns are the parses of
    the rows that parse, in the order of the rows, and of no other row. *)
Lemma transform_mempool_filter raw_data e0 e trades e' :
  _transform_mempool_trades raw_data e = (Ok trades, e') →
  Forall2 parsed_from (filter (λ r, parses_in e0 r) raw_data) trades.
Proof.
  revert e trades e'. induction raw_data as [|item raw IH]; intros e trades e'; simpl.
  - intros [= <- <-]. constructor.
  - rewrite bind_run. unfold try_except at 1. rewrite bind_run.
    rewrite filter_cons_bool, (parses_in_state item e0 e). unfold parses_in at 1.
    destruct (trade_of_row item e) as [[t|x] e1] eqn:Hrow.
    + simpl. rewrite bind_run.
      destruct (_transform_mempool_trades raw e1) as [[ts|x] e2] eqn:Hrest; [|done].
      intros [= <- <-]. constructor; [by exists e, e1|by eapply IH].
    + rewrite bind_run. simpl. rewrite bind_run.
      match goal with |- context [_transform_mempool_trades raw ?e0] =>
        destruct (_transform_mempool_trades raw e0) as [[ts|x'] e2] eqn:Hrest end;
        [|done].
      intros [= <- <-]. by eapply IH.
Qed.

(** The trades that [_transform_mempool_trades] returns are the parses of
    the rows that parse, in the order of the rows. *)
Lemma transform_mempool_kept raw_data e trades e' :
  _transform_mempool_trades raw_data e = (Ok trades, e') →
  ∃ kept, kept `sublist_of` raw_data
          ∧ Forall2 parsed_from kept trades
          ∧ (Forall parses raw_data → kept = raw_data).
Proof.
  revert e trades e'. induction raw_data as [|item raw IH]; intros e trades e'; simpl.
  - intros [= <- <-]. exists []. by repeat split.
  - rewrite bind_run. unfold try_except at 1. rewrite bind_run.
    destruct (trade_of_row item e) as [[t|x] e1] eqn:Hrow.
    + simpl. rewrite bind_run.
      destruct (_transform_mempool_trades raw e1) as [[ts|x] e2] eqn:Hrest; [|done].
      intros [= <- <-]. destruct (IH _ _ _ Hrest) as (kept & Hsub & Hall & Hfull).
      exists (item :: kept). split; [by apply sublist_skip|]. split.
      * constructor; [by exists e, e1|done].
      * intros [_ Hraw]%Forall_cons. by rewrite Hfull.
    + rewrite bind_run. simpl. rewrite bind_run.
      match goal with |- context [_transform_mempool_trades raw ?e0] =>
        destruct (_transform_mempool_trades raw e0) as [[ts|x'] e2] eqn:Hrest end;
        [|done].
      intros [= <- <-]. destruct (IH _ _ _ Hrest) as (kept & Hsub & Hall & Hfull).
      exists kept. split; [by apply sublist_cons|]. split; [done|].
      intros [Hitem _]%Forall_cons. destruct (Hitem e) as (t & e1' & Ht).
      congruence.
Qed.

Lemma transform_mempool_app raw1 raw2 e trades e' :
  _transform_mempool_trades (raw1 ++ raw2) e = (Ok trades, e') →
  ∃ trades1 trades2 e1,
    _transform_mempool_trades raw1 e = (Ok trades1, e1)
    ∧ _transform_mempool_trades raw2 e1 = (Ok trades2, e')
    ∧ trades = trades1 ++ trades2.
Proof.
  revert e trades e'. induction raw1 as [|item raw1 IH]; intros e trades e'.
  - simpl. intros Hrun. by exists [], trades, e.
  - cbn [app _transform_mempool_trades]. rewrite !bind_run.
    destruct (try_except _ _ e) as [[parsed|x] e0]; [|done].
    rewrite !bind_run.
    destruct (_transform_mempool_trades (raw1 ++ raw2) e0) as [[ts|x] e2] eqn:Hrest;
      [|done].
    intros [= <- <-]. destruct (IH _ _ _ Hrest) as (ts1 & ts2 & e1 & H1 & H2 & ->).
    rewrite H1. eexists _, ts2, e1. split; [reflexivity|]. split; [done|].
    by destruct parsed.
Qed.

End merger.

(** Lists and their sublists. *)
Lemma sublist_filter_mono {A} (P : A → Prop) `{!∀ x, Decision (P x)} l1 l2 :
  l1 `sublist_of` l2 → filter P l1 `sublist_of` filter P l2.
Proof.
  induction 1 as [|x l1 l2 Hl IH|x l1 l2 Hl IH]; [done| |].
  - rewrite !filter_cons. case_decide; [by apply sublist_skip|done].
  - rewrite filter_cons. case_decide; [by apply sublist_cons|done].
Qed.

Lemma sublist_omap_mono {A B} (f : A → option B) l1 l2 :
  l1 `sublist_of` l2 → omap f l1 `sublist_of` omap f l2.
Proof.
  induction 1 as [|x l1 l2 Hl IH|x l1 l2 Hl IH]; [done| |]; simpl.
  - destruct (f x); [by apply sublist_skip|done].
  - destruct (f x); [by apply sublist_cons|done].
Qed.

Lemma sublist_StronglySorted {A} (R : A → A → Prop) l1 l2 :
  l1 `sublist_of` l2 → StronglySorted R l2 → StronglySorted R l1.
Proof.
  induction 1 as [|x l1 l2 Hl IH|x l1 l2 Hl IH]; [done| |].
  - intros [Hs Hx]%StronglySorted_inv. constructor; [by apply IH|].
    apply Forall_forall. intros y Hy. rewrite Forall_forall in Hx.
    apply Hx. by eapply sublist_subseteq.
  - intros [Hs Hx]%StronglySorted_inv. by apply IH.
Qed.

Lemma slice_to_take {A} (l : list A) (n : Z) :
  0 ≤ n → slice_to l n = take (Z.to_nat n) l.
Proof. intros Hn. unfold slice_to. by rewrite (proj2 (Z.leb_le 0 n)). Qed.

Section merge_theorems.
Context `{RT : Runtime}.

Lemma trades_of_hash kept trades h :
  Forall2 parsed_from kept trades → h ≠ [] →
  length (filter (λ t, tx_hash t = h) trades)
  = length (filter (λ r, hash_key r = Some h) kept).
Proof.
  intros Hall Hh. induction Hall as [|r t kept trades Hrt Hall IH]; [done|].
  rewrite !filter_cons. pose proof (parsed_from_key r t h Hrt Hh) as Hkey.
  destruct (decide (tx_hash t = h)) as [Ht|Ht].
  - rewrite decide_True by by apply Hkey. simpl. by rewrite IH.
  - rewrite decide_False by (by rewrite <- Hkey). done.
Qed.

Lemma trades_times kept trades :
  Forall2 parsed_from kept trades →
  Forall (λ r, is_Some (row_time r)) kept →
  trade_block_time <$> trades = omap row_time kept.
Proof.
  intros Hall. induction Hall as [|r t kept trades Hrt Hall IH]; [done|].
  intros [[d Hd] Hkept]%Forall_cons. simpl. rewrite Hd. simpl.
  f_equal; [by eapply parsed_from_time|by apply IH].
Qed.

(** The mempool fetch, when the provider answers both queries with lists
    of rows: the parse of the first [limit] rows of the merge. *)
Lemma fetch_mempool_trades_run self lim (a b : pystr) e
    data_ab e1 data_ba e2 rows_ab rows_ba :
  a ≠ [] → b ≠ [] →
  _execute_query self MEMPOOL_DEX_TRADES_BY_TOKENS_QUERY
    {| limit := Z.max (lim `div` 2) 5; tokenA := _normalize_token_address a;
       tokenB := _normalize_token_address b |} e = (Ok data_ab, e1) →
  _execute_query self MEMPOOL_DEX_TRADES_BY_TOKENS_QUERY
    {| limit := Z.max (lim `div` 2) 5; tokenA := _normalize_token_address b;
       tokenB := _normalize_token_address a |} e1 = (Ok data_ba, e2) →
  rows_of EVM_DEXTradeByTokens data_ab = Ok (Some rows_ab) →
  rows_of EVM_DEXTradeByTokens data_ba = Ok (Some rows_ba) →
  fetch_mempool_trades self lim (Some a) (Some b) e
  = _transform_mempool_trades
      (slice_to (first_by_hash ∅ (rows_ab ++ rows_ba)) lim) e2
  ∧ posted (trace e2)
    = posted (trace e)
      ++ [request_of self MEMPOOL_DEX_TRADES_BY_TOKENS_QUERY
            {| limit := Z.max (lim `div` 2) 5;
               tokenA := _normalize_token_address a;
               tokenB := _normalize_token_address b |};
          request_of self MEMPOOL_DEX_TRADES_BY_TOKENS_QUERY
            {| limit := Z.max (lim `div` 2) 5;
               tokenA := _normalize_token_address b;
               tokenB := _normalize_token_address a |}].
Proof.
  intros Ha Hb Hab Hba Hrows_ab Hrows_ba. split.
  - unfold fetch_mempool_trades, truthy_str.
    rewrite !bool_decide_eq_false_2 by done. simpl. cbv zeta.
    rewrite bind_run, Hab, bind_run, Hba.
    rewrite bind_run. unfold of_result at 1. rewrite Hrows_ab.
    rewrite bind_run. unfold of_result at 1. rewrite Hrows_ba. simpl.
    rewrite bind_run. unfold of_result at 1. cbv beta iota.
    rewrite bind_run. unfold of_result at 1. cbv beta iota.
    by rewrite merge_loop.
  - pose proof (_execute_query_posted self MEMPOOL_DEX_TRADES_BY_TOKENS_QUERY
      {| limit := Z.max (lim `div` 2) 5; tokenA := _normalize_token_address a;
         tokenB := _normalize_token_address b |} e) as H1.
    pose proof (_execute_query_posted self MEMPOOL_DEX_TRADES_BY_TOKENS_QUERY
      {| limit := Z.max (lim `div` 2) 5; tokenA := _normalize_token_address b;
         tokenB := _normalize_token_address a |} e1) as H2.
    rewrite Hab in H1. rewrite Hba in H2. simpl in *.
    by rewrite H2, H1, <- app_assoc.
Qed.

(** The requests of the mempool fetch, whatever the provider answers: the
    one for (A, B), and after it the one for (B, A) when the first query
    returned. *)
Lemma fetch_mempool_trades_posted self lim (a b : pystr) e :
  a ≠ [] → b ≠ [] →
  let variables_ab := {| limit := Z.max (lim `div` 2) 5;
                         tokenA := _normalize_token_address a;
                         tokenB := _normalize_token_address b |} in
  let variables_ba := {| limit := Z.max (lim `div` 2) 5;
                         tokenA := _normalize_token_address b;
                         tokenB := _normalize_token_address a |} in
  posted (trace (fetch_mempool_trades self lim (Some a) (Some b) e).2)
  = posted (trace e)
    ++ request_of self MEMPOOL_DEX_TRADES_BY_TOKENS_QUERY variables_ab
       :: (if returned
                (_execute_query self MEMPOOL_DEX_TRADES_BY_TOKENS_QUERY
                   variables_ab e).1
           then [request_of self MEMPOOL_DEX_TRADES_BY_TOKENS_QUERY variables_ba]
           else []).
Proof.
  intros Ha Hb. cbv zeta. unfold fetch_mempool_trades, truthy_str.
  rewrite !bool_decide_eq_false_2 by done. simpl. cbv zeta.
  rewrite bind_run.
  pose proof (_execute_query_posted self MEMPOOL_DEX_TRADES_BY_TOKENS_QUERY
    {| limit := Z.max (lim `div` 2) 5; tokenA := _normalize_token_address a;
       tokenB := _normalize_token_address b |} e) as H1.
  destruct (_execute_query self MEMPOOL_DEX_TRADES_BY_TOKENS_QUERY _ e)
    as [[data_ab|x] e1]; cbn [fst snd returned] in *; [|done].
  rewrite bind_run.
  pose proof (_execute_query_posted self MEMPOOL_DEX_TRADES_BY_TOKENS_QUERY
    {| limit := Z.max (lim `div` 2) 5; tokenA := _normalize_token_address b;
       tokenB := _normalize_token_address a |} e1) as H2.
  destruct (_execute_query self MEMPOOL_DEX_TRADES_BY_TOKENS_QUERY _ e1)
    as [[data_ba|x] e2]; cbn [fst snd] in *;
    [|by rewrite H2, H1, <- app_assoc].
  match goal with |- posted (trace (?m e2).2) = _ =>
    assert (Hq : quiet m); [|rewrite (Hq e2)] end.
  - do 4 (apply quiet_bind; [apply quiet_of_result|intros ?]).
    destruct (foldl merge_step _ _). apply quiet_transform_mempool_trades.
  - by rewrite H2, H1, <- app_assoc.
Qed.

End merge_theorems.

(** C3, as the code has it.  With both addresses given, the fetch posts
    the request for (A, B) and, when that query returned, the request for
    (B, A) after it, each of limit [max(limit // 2, 5)], and no other
    request, whatever the provider answers.  When both queries return lists
    of rows and [limit] is not negative, the fetch returns, and its trades
    are the parses, in order, of the rows that parse among the first
    [limit] rows of the merge, the rows that do not parse being skipped;
    whether a row parses does not depend on the state.  The merge keeps the
    order of the (A, B) rows followed by the (B, A) rows, holds of the rows
    of one non-empty hash the first only, and holds every row without
    hash.  So a non-empty hash has at most one trade, and exactly one when
    a row of that hash is among the first [limit] rows of the merge and
    parses; there are at most [limit] trades; and rows that all parse and
    whose hashes differ from one another give
    [min(len(AB) + len(BA), limit)] trades. *)
Theorem fetch_mempool_trades_merge `{RT : Runtime}
    (self : BitqueryClient) (lim : Z) (a b : pystr) (e : env) :
  a ≠ [] → b ≠ [] →
  let per_limit := Z.max (lim `div` 2) 5 in
  let variables_ab := {| limit := per_limit;
                         tokenA := _normalize_token_address a;
                         tokenB := _normalize_token_address b |} in
  let variables_ba := {| limit := per_limit;
                         tokenA := _normalize_token_address b;
                         tokenB := _normalize_token_address a |} in
  let request_ab :=
    request_of self MEMPOOL_DEX_TRADES_BY_TOKENS_QUERY variables_ab in
  let request_ba :=
    request_of self MEMPOOL_DEX_TRADES_BY_TOKENS_QUERY variables_ba in
  let first :=
    _execute_query self MEMPOOL_DEX_TRADES_BY_TOKENS_QUERY variables_ab e in
  posted (trace (fetch_mempool_trades self lim (Some a) (Some b) e).2)
  = posted (trace e)
    ++ request_ab :: (if returned first.1 then [request_ba] else [])
  ∧ (∀ r, parses_in e r ↔ parses r)
  ∧ ∀ e1 e2 data_ab data_ba rows_ab rows_ba,
      0 ≤ lim →
      first = (Ok data_ab, e1) →
      _execute_query self MEMPOOL_DEX_TRADES_BY_TOKENS_QUERY variables_ba e1
      = (Ok data_ba, e2) →
      rows_of EVM_DEXTradeByTokens data_ab = Ok (Some rows_ab) →
      rows_of EVM_DEXTradeByTokens data_ba = Ok (Some rows_ba) →
      let merged := first_by_hash ∅ (rows_ab ++ rows_ba) in
      let kept := filter (λ r, parses_in e r) (take (Z.to_nat lim) merged) in
      ∃ trades e3,
        fetch_mempool_trades self lim (Some a) (Some b) e = (Ok trades, e3)
        ∧ posted (trace e3) = posted (trace e) ++ [request_ab; request_ba]
        ∧ merged `sublist_of` rows_ab ++ rows_ba
        ∧ (∀ h, filter (λ r, hash_key r = Some h) merged
                = take 1 (filter (λ r, hash_key r = Some h) (rows_ab ++ rows_ba)))
        ∧ filter (λ r, hash_key r = None) merged
          = filter (λ r, hash_key r = None) (rows_ab ++ rows_ba)
        ∧ Forall2 parsed_from kept trades
        ∧ (∀ h, h ≠ [] → (length (filter (λ t, tx_hash t = h) trades) ≤ 1)%nat)
        ∧ (∀ h r, h ≠ [] → r ∈ take (Z.to_nat lim) merged → parses r →
                  hash_key r = Some h →
                  length (filter (λ t, tx_hash t = h) trades) = 1%nat)
        ∧ len trades ≤ lim
        ∧ (NoDup (omap hash_key (rows_ab ++ rows_ba)) →
           Forall parses (rows_ab ++ rows_ba) →
           len trades = Z.min (len rows_ab + len rows_ba) lim).
Proof.
  intros Ha Hb. cbv zeta.
  split; [by apply fetch_mempool_trades_posted|].
  split; [intros r; apply parses_in_parses|].
  intros e1 e2 data_ab data_ba rows_ab rows_ba Hlim Hab Hba Hrows_ab Hrows_ba.
  destruct (fetch_mempool_trades_run self lim a b e data_ab e1 data_ba e2
              rows_ab rows_ba Ha Hb Hab Hba Hrows_ab Hrows_ba) as [Hrun Hposted].
  rewrite slice_to_take in Hrun by done.
  set (merged := first_by_hash ∅ (rows_ab ++ rows_ba)) in *.
  set (kept := filter (λ r, parses_in e r) (take (Z.to_nat lim) merged)).
  destruct (transform_mempool_total (take (Z.to_nat lim) merged) e2)
    as (trades & e3 & Htrans).
  pose proof (transform_mempool_filter _ e _ _ _ Htrans) as Hall.
  fold kept in Hall.
  assert (Hsub : kept `sublist_of` take (Z.to_nat lim) merged)
    by apply sublist_filter.
  assert (Hone : ∀ h, h ≠ [] →
            (length (filter (λ t, tx_hash t = h) trades) ≤ 1)%nat).
  { intros h Hh. rewrite (trades_of_hash kept trades h Hall Hh).
    etrans; [apply sublist_length, sublist_filter_mono; etrans;
               [exact Hsub|apply sublist_take]|].
    unfold merged. rewrite first_by_hash_filter, decide_False by set_solver.
    rewrite length_take. lia. }
  assert (Hlen : length trades = length kept) by (symmetry; by eapply Forall2_length).
  assert (Hkept : (length kept ≤ Z.to_nat lim)%nat).
  { etrans; [by apply sublist_length|]. rewrite length_take. lia. }
  exists trades, e3. split; [by rewrite Hrun|].
  split.
  { pose proof (quiet_transform_mempool_trades (take (Z.to_nat lim) merged) e2) as Hq.
    rewrite Htrans in Hq. simpl in Hq. by rewrite Hq. }
  split; [apply first_by_hash_sublist|].
  split; [intros h; unfold merged;
          by rewrite first_by_hash_filter, decide_False by set_solver|].
  split; [apply first_by_hash_no_hash|].
  split; [done|]. split; [done|]. split.
  - intros h r Hh Hr Hparses Hkey. apply Nat.le_antisymm; [by apply Hone|].
    rewrite (trades_of_hash kept trades h Hall Hh).
    assert (r ∈ filter (λ r, hash_key r = Some h) kept) as Hin.
    { apply list_elem_of_filter. split; [done|].
      apply list_elem_of_filter. split; [by apply parses_in_parses|done]. }
    destruct (filter _ kept); [by apply elem_of_nil in Hin|simpl; lia].
  - split; [unfold len; lia|].
    intros Hnd Hparse. unfold len.
    assert (merged = rows_ab ++ rows_ba) as Hm
      by (apply first_by_hash_distinct; [done|set_solver]).
    assert (kept = take (Z.to_nat lim) merged) as Hfull.
    { unfold kept. rewrite Hm. clear -Hparse.
      assert (Forall parses (take (Z.to_nat lim) (rows_ab ++ rows_ba))) as Htake.
      { apply Forall_forall. intros r Hr. rewrite Forall_forall in Hparse.
        apply Hparse. eapply sublist_subseteq; [apply sublist_take|done]. }
      induction Htake as [|r l Hr Hl IH]; [done|].
      rewrite filter_cons_bool, IH.
      by rewrite (Is_true_true_1 _ (proj2 (parses_in_parses r e) Hr)). }
    rewrite Hlen, Hfull, length_take, Hm, length_app. lia.
Qed.

(** C7, as the code has it.  Under the conditions of the theorem on the
    merge, the trades are the trades of rows of the (A, B) batch, in the
    order of the batch, followed by the trades of rows of the (B, A) batch,
    in the order of the batch: the list is not sorted again.  When the rows
    of a batch come in descending block time, so do its trades; nothing
    orders the trades of one batch against those of the other. *)
Theorem fetch_mempool_trades_keeps_batch_order `{RT : Runtime}
    (self : BitqueryClient) (lim : Z) (a b : pystr) (e e1 e2 : env)
    (data_ab data_ba : option DataJ) (rows_ab rows_ba : list TradeRowJ) :
  a ≠ [] → b ≠ [] → 0 ≤ lim →
  let per_limit := Z.max (lim `div` 2) 5 in
  let variables_ab := {| limit := per_limit;
                         tokenA := _normalize_token_address a;
                         tokenB := _normalize_token_address b |} in
  let variables_ba := {| limit := per_limit;
                         tokenA := _normalize_token_address b;
                         tokenB := _normalize_token_address a |} in
  _execute_query self MEMPOOL_DEX_TRADES_BY_TOKENS_QUERY variables_ab e
  = (Ok data_ab, e1) →
  _execute_query self MEMPOOL_DEX_TRADES_BY_TOKENS_QUERY variables_ba e1
  = (Ok data_ba, e2) →
  rows_of EVM_DEXTradeByTokens data_ab = Ok (Some rows_ab) →
  rows_of EVM_DEXTradeByTokens data_ba = Ok (Some rows_ba) →
  ∃ trades e3 kept_ab trades_ab kept_ba trades_ba,
    fetch_mempool_trades self lim (Some a) (Some b) e = (Ok trades, e3)
    ∧ trades = trades_ab ++ trades_ba
    ∧ kept_ab `sublist_of` rows_ab ∧ Forall2 parsed_from kept_ab trades_ab
    ∧ kept_ba `sublist_of` rows_ba ∧ Forall2 parsed_from kept_ba trades_ba
    ∧ (descending_batch rows_ab → descending (trade_block_time <$> trades_ab))
    ∧ (descending_batch rows_ba → descending (trade_block_time <$> trades_ba)).
Proof.
  intros Ha Hb Hlim. cbv zeta. intros Hab Hba Hrows_ab Hrows_ba.
  destruct (fetch_mempool_trades_run self lim a b e data_ab e1 data_ba e2
              rows_ab rows_ba Ha Hb Hab Hba Hrows_ab Hrows_ba) as [Hrun _].
  rewrite slice_to_take, first_by_hash_app, take_app in Hrun by done.
  match type of Hrun with _ = _transform_mempool_trades (?l1 ++ ?l2) _ =>
    set (part_ab := l1) in *; set (part_ba := l2) in * end.
  destruct (transform_mempool_total (part_ab ++ part_ba) e2)
    as (trades & e3 & Htrans).
  destruct (transform_mempool_app _ _ _ _ _ Htrans)
    as (trades_ab & trades_ba & e' & Ht_ab & Ht_ba & ->).
  destruct (transform_mempool_kept _ _ _ _ Ht_ab) as (kept_ab & Hsub_ab & Hall_ab & _).
  destruct (transform_mempool_kept _ _ _ _ Ht_ba) as (kept_ba & Hsub_ba & Hall_ba & _).
  assert (Hab' : kept_ab `sublist_of` rows_ab).
  { etrans; [exact Hsub_ab|]. etrans; [apply sublist_take|].
    apply first_by_hash_sublist. }
  assert (Hba' : kept_ba `sublist_of` rows_ba).
  { etrans; [exact Hsub_ba|]. etrans; [apply sublist_take|].
    apply first_by_hash_sublist. }
  assert (Hdesc : ∀ rows kept ts, kept `sublist_of` rows →
            Forall2 parsed_from kept ts → descending_batch rows →
            descending (trade_block_time <$> ts)).
  { intros rows kept ts Hsub Hall [Htimes Hsorted].
    rewrite (trades_times kept ts Hall).
    - eapply sublist_StronglySorted; [by apply sublist_omap_mono|done].
    - apply Forall_forall. intros r Hr. rewrite Forall_forall in Htimes.
      apply Htimes. by eapply sublist_subseteq. }
  exists (trades_ab ++ trades_ba), e3, kept_ab, trades_ab, kept_ba, trades_ba.
  split; [by rewrite Hrun|]. split; [done|].
  split; [done|]. split; [done|]. split; [done|]. split; [done|].
  split; by eapply Hdesc.
Qed.

(** A trade that the provider reports as failed is stored as a success. *)
Example reported_failure_is_success :
  (λ t, (tx_hash t, success t))
  <$> mempool_scenario.trades_of
        (mempool_scenario.merge [mempool_scenario.row_222] [] 20)
  = [(py "0x222", true)].
Proof. vm_compute. reflexivity. Qed.

(** A hash in both batches gives one trade; rows without hash are all
    kept; the (A, B) rows come first. *)
Example merge_two_batches :
  tx_hash
  <$> mempool_scenario.trades_of
        (mempool_scenario.merge
           [mempool_scenario.row_111; mempool_scenario.row_abc;
            mempool_scenario.row_null]
           [mempool_scenario.row_abc; mempool_scenario.row_null;
            mempool_scenario.row_222] 20)
  = [py "0x111"; py "0xabc"; py ""; py ""; py "0x222"].
Proof. vm_compute. reflexivity. Qed.

Lemma fetch_mempool_trades_merge_witness :
  ∃ trades e3,
    fetch_mempool_trades scenario.the_client 20
      (Some scenario.A) (Some scenario.B)
      (scenario.start_of
         (mempool_scenario.two_batches
            [mempool_scenario.row_111; mempool_scenario.row_abc]
            [mempool_scenario.row_abc; mempool_scenario.row_222]))
    = (Ok trades, e3)
    ∧ length (posted (trace e3)) = 2%nat
    ∧ length (filter (λ t, tx_hash t = py "0xabc") trades) = 1%nat
    ∧ len trades ≤ 20.
Proof.
  pose proof (fetch_mempool_trades_merge scenario.the_client 20
                scenario.A scenario.B
                (scenario.start_of
                   (mempool_scenario.two_batches
                      [mempool_scenario.row_111; mempool_scenario.row_abc]
                      [mempool_scenario.row_abc; mempool_scenario.row_222])))
    as Hmerge.
  cbv zeta in Hmerge. destruct Hmerge as (_ & Hparses & Hmerge); [done|done|].
  edestruct Hmerge
    as (trades & e3 & Hrun & Hposted & _ & _ & _ & _ & _ & Hone & Hlen & _);
    [|reflexivity|reflexivity|reflexivity|reflexivity|]; [lia|].
  exists trades, e3. split; [exact Hrun|].
  split; [by rewrite Hposted|]. split; [|exact Hlen].
  apply (Hone (py "0xabc") mempool_scenario.row_abc).
  - done.
  - apply (list_elem_of_lookup_2 _ 1%nat). vm_compute. reflexivity.
  - apply Hparses. vm_compute. exact I.
  - vm_compute. reflexivity.
Defined.

(** C3 as stated fails on the code: with [limit] 1, which the
    configuration names for the latest entry only, each query asks for
    five rows; the batches [0x111, 0xabc] and [0xabc] both hold the hash
    [0xabc], and the one trade returned is that of [0x111], so no trade
    has the hash [0xabc]. *)
Lemma fetch_mempool_trades_merge_counterexample :
  let out :=
    mempool_scenario.trades_of
      (mempool_scenario.merge
         [mempool_scenario.row_111; mempool_scenario.row_abc]
         [mempool_scenario.row_abc] 1) in
  hash_key mempool_scenario.row_abc = Some (py "0xabc")
  ∧ tx_hash <$> out = [py "0x111"]
  ∧ length (filter (λ t, tx_hash t = py "0xabc") out) ≠ 1%nat.
Proof. cbv zeta. split; [by vm_compute|]. split; by vm_compute. Qed.

Lemma fetch_mempool_trades_keeps_batch_order_witness :
  ∃ trades e3 trades_ab trades_ba,
    fetch_mempool_trades scenario.the_client 20
      (Some scenario.A) (Some scenario.B)
      (scenario.start_of
         (mempool_scenario.two_batches
            [mempool_scenario.row_111; mempool_scenario.row_abc]
            [mempool_scenario.row_222; mempool_scenario.row_null]))
    = (Ok trades, e3)
    ∧ trades = trades_ab ++ trades_ba
    ∧ descending (trade_block_time <$> trades_ab)
    ∧ descending (trade_block_time <$> trades_ba).
Proof.
  edestruct (fetch_mempool_trades_keeps_batch_order scenario.the_client 20
               scenario.A scenario.B
               (scenario.start_of
                  (mempool_scenario.two_batches
                     [mempool_scenario.row_111; mempool_scenario.row_abc]
                     [mempool_scenario.row_222; mempool_scenario.row_null])))
    as (trades & e3 & kept_ab & trades_ab & kept_ba & trades_ba
        & Hrun & Happ & _ & _ & _ & _ & Hab & Hba);
    [done|done|lia|reflexivity|reflexivity|reflexivity|reflexivity|].
  exists trades, e3, trades_ab, trades_ba.
  split; [exact Hrun|]. split; [exact Happ|]. split.
  - apply Hab. split.
    + repeat constructor; eexists; vm_compute; reflexivity.
    + unfold descending.
      replace (omap row_time [mempool_scenario.row_111; mempool_scenario.row_abc])
        with [1709296230000000; 1709296220000000] by (vm_compute; reflexivity).
      repeat constructor; lia.
  - apply Hba. split.
    + repeat constructor; eexists; vm_compute; reflexivity.
    + unfold descending.
      replace (omap row_time [mempool_scenario.row_222; mempool_scenario.row_null])
        with [1709296240000000; 1709296210000000] by (vm_compute; reflexivity).
      repeat constructor; lia.
Defined.

(** C7 as stated fails on the code: the batch for (A, B) holds a trade of
    12:30:30 and the batch for (B, A) one of 12:30:40, each batch in
    descending order; the merged list has the earlier trade first. *)
Lemma fetch_mempool_trades_order_counterexample :
  let out :=
    mempool_scenario.trades_of
      (mempool_scenario.merge
         [mempool_scenario.row_111] [mempool_scenario.row_222] 20) in
  trade_block_time <$> out = [1709296230000000; 1709296240000000]
  ∧ ¬ descending (trade_block_time <$> out).
Proof.
  cbv zeta.
  assert (Htimes :
    trade_block_time
    <$> mempool_scenario.trades_of
          (mempool_scenario.merge
             [mempool_scenario.row_111] [mempool_scenario.row_222] 20)
    = [1709296230000000; 1709296240000000]) by by vm_compute.
  split; [exact Htimes|]. rewrite Htimes.
  intros [_ Hhead]%StronglySorted_inv.
  apply Forall_cons in Hhead as [Hle _]. lia.
Qed.

(** ** The refresh loop *)

Section refresh.
Context `{RT : Runtime}.

Lemma same_settings_refl this : same_settings this this.
Proof. by repeat split. Qed.

Lemma same_settings_trans this1 this2 this3 :
  same_settings this1 this2 → same_settings this2 this3 →
  same_settings this1 this3.
Proof.
  intros (? & ? & ? & ? & ? & ?) (? & ? & ? & ? & ? & ?).
  repeat split; congruence.
Qed.

Lemma calm_ret {A} (a : A) : calm (ret a).
Proof. by intros e. Qed.

Lemma calm_bind {A B} (m : M env A) (k : A → M env B) :
  calm m → (∀ a, calm (k a)) → calm (m ≫= k).
Proof.
  intros Hm Hk e. rewrite bind_run. destruct (Hm e) as [Hp Hs].
  destruct (m e) as [[a|x] e1]; simpl in *; [|done].
  destruct (Hk a e1) as [Hp' Hs']. split; congruence.
Qed.

Lemma calm_in_world {A} (f : World → A * World) : calm (in_world f).
Proof. intros e. unfold in_world. by destruct (f (world e)). Qed.

Lemma calm_in_world_raising {A} (f : World → result A * World) :
  calm (in_world_raising f).
Proof. intros e. unfold in_world_raising. by destruct (f (world e)). Qed.

Lemma calm_emit ev :
  match ev with Posted _ | Slept _ => False | _ => True end → calm (emit ev).
Proof.
  intros Hev e. unfold emit, modify, posted, slept. simpl.
  rewrite !omap_app. destruct ev; simpl; try done; by rewrite !app_nil_r.
Qed.

Lemma calm_call {A} (cb : option (callback A)) (record : A → event) a :
  match record a with Posted _ | Slept _ => False | _ => True end →
  calm (call cb record a).
Proof.
  intros Hev. unfold call. destruct cb as [f|]; [|apply calm_ret].
  apply calm_bind; [by apply calm_emit|]. intros _. apply calm_in_world_raising.
Qed.

Lemma method_bind_run {A B} (m : method A) (k : A → method B) s :
  (m ≫= k) s = match m s with
               | (Ok a, s1) => k a s1
               | (Raise x, s1) => (Raise x, s1)
               end.
Proof. reflexivity. Qed.

Lemma tame_ret {A} (a : A) : tame (ret a).
Proof. intros s. split; [apply same_settings_refl|done]. Qed.

Lemma tame_raise {A} x : tame (raise x : method A).
Proof. intros s. split; [apply same_settings_refl|done]. Qed.

Lemma tame_self : tame self.
Proof. intros s. split; [apply same_settings_refl|done]. Qed.

Lemma tame_bind {A B} (m : method A) (k : A → method B) :
  tame m → (∀ a, tame (k a)) → tame (m ≫= k).
Proof.
  intros Hm Hk s. rewrite method_bind_run. destruct (Hm s) as (Hset & Hp & Hs).
  destruct (m s) as [[a|x] s1]; simpl in *; [|done].
  destruct (Hk a s1) as (Hset' & Hp' & Hs').
  split; [by eapply same_settings_trans|]. split; congruence.
Qed.

Lemma tame_try_except {A} (m : method A) h :
  tame m → (∀ x, tame (h x)) → tame (try_except m h).
Proof.
  intros Hm Hh s. rewrite try_except_run. destruct (Hm s) as (Hset & Hp & Hs).
  destruct (m s) as [[a|x] s1]; simpl in *; [done|].
  destruct (Hh x s1) as (Hset' & Hp' & Hs').
  split; [by eapply same_settings_trans|]. split; congruence.
Qed.

Lemma tame_outside {A} (m : M env A) : calm m → tame (outside m).
Proof.
  intros Hm [this e]. unfold outside, zoom. simpl. destruct (Hm e) as [Hp Hs].
  destruct (m e) as [r e1]. simpl in *. split; [apply same_settings_refl|done].
Qed.

Lemma tame_assign f :
  (∀ this, same_settings this (f this)) → tame (assign f).
Proof. intros Hf [this e]. unfold assign, modify. simpl. split; [apply Hf|done]. Qed.

End refresh.

Section refresh_loop.
Context `{RT : Runtime}.

Lemma set_slippage_data_settings v this :
  same_settings this (set_slippage_data v this).
Proof. by repeat split. Qed.

Lemma set_mempool_data_settings v this :
  same_settings this (set_mempool_data v this).
Proof. by repeat split. Qed.

Lemma set_last_slippage_update_settings v this :
  same_settings this (set_last_slippage_update v this).
Proof. by repeat split. Qed.

Lemma set_last_mempool_update_settings v this :
  same_settings this (set_last_mempool_update v this).
Proof. by repeat split. Qed.

(** Without a pair the fetches reach neither the provider nor the
    settings. *)
Lemma tame_fetch_slippage_data_no_pair lim :
  tame (fetch_slippage_data lim None None).
Proof.
  unfold fetch_slippage_data. apply tame_try_except.
  - cbv zeta. apply tame_bind; [apply tame_self|]. intros this.
    apply tame_bind; [apply tame_outside, calm_ret|]. intros data.
    apply tame_bind; [apply tame_assign, set_slippage_data_settings|]. intros _.
    apply tame_bind; [apply tame_outside, calm_in_world|]. intros t.
    apply tame_bind; [apply tame_assign, set_last_slippage_update_settings|].
    intros _. apply tame_bind; [apply tame_self|]. intros this'.
    apply tame_bind; [by apply tame_outside, calm_call|]. intros _.
    apply tame_bind; [apply tame_self|]. intros this''. apply tame_ret.
  - intros x. apply tame_bind; [apply tame_self|]. intros this.
    apply tame_bind; [by apply tame_outside, calm_call|]. intros _.
    apply tame_raise.
Qed.

Lemma tame_fetch_mempool_data_no_pair lim :
  tame (fetch_mempool_data lim None None).
Proof.
  unfold fetch_mempool_data. apply tame_try_except.
  - cbv zeta. apply tame_bind; [apply tame_self|]. intros this.
    apply tame_bind; [apply tame_outside, calm_ret|]. intros data.
    apply tame_bind; [apply tame_assign, set_mempool_data_settings|]. intros _.
    apply tame_bind; [apply tame_outside, calm_in_world|]. intros t.
    apply tame_bind; [apply tame_assign, set_last_mempool_update_settings|].
    intros _. apply tame_bind; [apply tame_self|]. intros this'.
    apply tame_bind; [by apply tame_outside, calm_call|]. intros _.
    apply tame_bind; [apply tame_self|]. intros this''. apply tame_ret.
  - intros x. apply tame_bind; [apply tame_self|]. intros this.
    apply tame_bind; [by apply tame_outside, calm_call|]. intros _.
    apply tame_raise.
Qed.

Lemma tame_fetch_all_no_pair : tame (fetch_all None None).
Proof.
  unfold fetch_all.
  apply tame_bind; [apply tame_fetch_slippage_data_no_pair|]. intros slippage.
  apply tame_bind; [apply tame_fetch_mempool_data_no_pair|]. intros mempool.
  apply tame_ret.
Qed.

(** Calling an error callback that returns. *)
Lemma call_on_error_returns (cb : option (callback exn)) x e :
  returns cb →
  ∃ e', call cb Called_on_error x e = (Ok tt, e')
        ∧ posted (trace e') = posted (trace e)
        ∧ slept (trace e') = slept (trace e)
        ∧ errors_reported (trace e')
          = errors_reported (trace e) ++ (if cb is Some _ then [x] else []).
Proof.
  intros Hcb. destruct cb as [f|]; simpl.
  - rewrite bind_run. unfold emit at 1, modify at 1. cbv beta iota.
    unfold in_world_raising. simpl. destruct (Hcb x (world e)) as [w' ->].
    eexists. split; [reflexivity|]. simpl.
    unfold posted, slept, errors_reported. rewrite !omap_app. simpl.
    by rewrite !app_nil_r.
  - exists e. by rewrite app_nil_r.
Qed.

(** The sleep of a turn, when [time.sleep] returns and when it raises. *)
Lemma sleep_returns seconds this e :
  sleeps seconds →
  ∃ e', outside (in_world_raising (time_sleep seconds);; emit (Slept seconds))
          (this, e) = (Ok tt, (this, e'))
        ∧ trace e' = trace e ++ [Slept seconds].
Proof.
  intros Hsleep. destruct (Hsleep (world e)) as [w Hw].
  unfold outside, zoom, mbind, M_bind, bind, in_world_raising, emit, modify.
  cbn [fst snd]. rewrite Hw. by eexists.
Qed.

Lemma sleep_raises seconds this e x w :
  time_sleep seconds (world e) = (Raise x, w) →
  outside (in_world_raising (time_sleep seconds);; emit (Slept seconds)) (this, e)
  = (Raise x, (this, {| world := w; trace := trace e |})).
Proof.
  intros Hw.
  unfold outside, zoom, mbind, M_bind, bind, in_world_raising, emit, modify.
  cbn [fst snd]. by rewrite Hw.
Qed.

(** A turn of the loop is its [try] and then its sleep. *)
Lemma refresh_cycle_run s :
  refresh_cycle s
  = match try_except
            (fetch_all None None;; ret tt)
            (λ e,
               outside (emit (Printed (Error_in_refresh_loop e)));;
               this ← self;
               outside (call (_on_error this) Called_on_error e)) s with
    | (Ok _, s1) =>
        outside (in_world_raising (time_sleep (refresh_interval s1.1));;
                 emit (Slept (refresh_interval s1.1))) s1
    | (Raise x, s1) => (Raise x, s1)
    end.
Proof.
  unfold refresh_cycle. rewrite method_bind_run.
  destruct (try_except _ _ s) as [[[]|x] s1]; [|done].
  by rewrite method_bind_run.
Qed.

(** A turn of the loop returns, whatever its fetch did, when the error
    callback and the sleep return; it posts nothing and sleeps once. *)
Lemma refresh_cycle_returns this e :
  returns (_on_error this) → sleeps (refresh_interval this) →
  ∃ this' e',
    refresh_cycle (this, e) = (Ok tt, (this', e'))
    ∧ same_settings this this'
    ∧ posted (trace e') = posted (trace e)
    ∧ slept (trace e') = slept (trace e) ++ [refresh_interval this]
    ∧ ∀ x this1 e1,
        fetch_all None None (this, e) = (Raise x, (this1, e1)) →
        errors_reported (trace e')
        = errors_reported (trace e1) ++ (if _on_error this is Some _ then [x] else []).
Proof.
  intros Herr Hsleep. rewrite refresh_cycle_run.
  unfold try_except, mbind, M_bind, bind.
  destruct (tame_fetch_all_no_pair (this, e)) as (Hset & Hp & Hs).
  destruct (fetch_all None None (this, e)) as [[both|x] [this1 e1]];
    cbn [fst snd] in *.
  - pose proof Hset as (_ & Hint & _). unfold ret. cbn [fst snd].
    rewrite Hint.
    destruct (sleep_returns (refresh_interval this) this1 e1 Hsleep)
      as (e2 & Heq & Htrace).
    unfold mbind, M_bind, bind in Heq. rewrite Heq.
    exists this1, e2. split; [done|]. split; [done|].
    unfold posted, slept in *. rewrite Htrace, !omap_app. simpl.
    split; [by rewrite app_nil_r|]. split; [by rewrite Hs|]. intros; discriminate.
  - pose proof Hset as (Hc & Hint & Hr & Hu1 & Hu2 & Hcb).
    assert (Herr1 : returns (_on_error this1)) by by rewrite Hcb.
    unfold outside at 1, zoom, emit at 1, modify, self. cbn [fst snd].
    destruct (call_on_error_returns (_on_error this1) x
                {| world := world e1;
                   trace := trace e1 ++ [Printed (Error_in_refresh_loop x)] |}
                Herr1)
      as (e3 & Hcall & Hp3 & Hs3 & He3).
    unfold outside at 1, zoom. cbn [fst snd]. rewrite Hcall. cbn [fst snd].
    rewrite Hint.
    destruct (sleep_returns (refresh_interval this) this1 e3 Hsleep)
      as (e4 & Heq & Htrace).
    unfold mbind, M_bind, bind in Heq. rewrite Heq.
    exists this1, e4. split; [done|]. split; [done|].
    unfold posted, slept, errors_reported in *. cbn [trace] in Hp3, Hs3, He3.
    rewrite omap_app in Hp3. rewrite omap_app in Hs3. rewrite omap_app in He3.
    simpl in Hp3, Hs3, He3.
    rewrite app_nil_r in Hp3. rewrite app_nil_r in Hs3. rewrite app_nil_r in He3.
    rewrite Htrace, !omap_app. simpl. rewrite ?app_nil_r.
    split; [congruence|]. split; [by rewrite Hs3, Hs|].
    intros x' this1' e1' [= <- <- <-]. by rewrite He3, Hcb.
Qed.

End refresh_loop.

Section refresh_theorems.
Context `{RT : Runtime}.

Lemma str_lower_nil s : str_lower s = [] → s = [].
Proof.
  destruct s as [|c s]; [done|]. unfold str_lower. simpl.
  unfold lower_cp. by repeat case_match.
Qed.

(** A resolved address is not empty. *)
Lemma token_to_address_nonempty token a :
  config.token_to_address token = Some a → a ≠ [].
Proof.
  unfold config.token_to_address. destruct token as [v|]; [|done].
  case_bool_decide; [done|]. cbv zeta.
  set (s := str_strip v).
  destruct (startswith s (py "0x") && (len s =? 42)) eqn:Hprefix.
  - intros [= Heq] Hnil. rewrite Hnil in Heq. apply str_lower_nil in Heq.
    rewrite Heq in Hprefix. done.
  - destruct ((len s =? 40) && forallb _ s).
    + intros [= Heq]. by rewrite <- Heq.
    + intros Hlook%elem_of_list_to_map_2.
      repeat (apply elem_of_cons in Hlook as [Hlook|Hlook];
              [injection Hlook as _ ->; by vm_compute|]).
      by apply elem_of_nil in Hlook.
Qed.

Lemma address_of_nonempty token a : address_of token = Some a → a ≠ [].
Proof.
  unfold address_of. case_match; [apply token_to_address_nonempty|done].
Qed.

(** [_execute_query] appends its request to the trace, and nothing else. *)
Lemma _execute_query_trace self q vars e :
  trace (_execute_query self q vars e).2
  = trace e ++ [Posted (request_of self q vars)].
Proof.
  unfold _execute_query, mbind, M_bind, bind, emit, modify, in_world_raising.
  simpl. destruct (requests_post _ _) as [[response|x] w]; simpl; [|done].
  destruct (ok response); simpl; [|done].
  unfold of_result. destruct (json response) as [data|x]; simpl; [|done].
  by destruct (Body_errors data).
Qed.

(** A fetch for a resolved pair whose first query raises: it raises, the
    service is as it was, and the error callback was called once. *)
Lemma fetch_all_first_query_raises this e token_a token_b a b x e1 :
  returns (_on_error this) →
  address_of token_a = Some a → address_of token_b = Some b →
  _execute_query (client this) DEX_POOL_SLIPPAGES_BY_TOKENS_QUERY
    {| limit := config.SLIPPAGE_QUERY_LIMIT;
       tokenA := _normalize_token_address a;
       tokenB := _normalize_token_address b |} e = (Raise x, e1) →
  ∃ e2, fetch_all token_a token_b (this, e) = (Raise x, (this, e2))
        ∧ errors_reported (trace e2)
          = errors_reported (trace e) ++ (if _on_error this is Some _ then [x] else []).
Proof.
  intros Herr Haddr_a Haddr_b Hexec.
  pose proof (address_of_nonempty _ _ Haddr_a) as Ha.
  pose proof (address_of_nonempty _ _ Haddr_b) as Hb.
  pose proof (_execute_query_trace (client this) DEX_POOL_SLIPPAGES_BY_TOKENS_QUERY
    {| limit := config.SLIPPAGE_QUERY_LIMIT;
       tokenA := _normalize_token_address a;
       tokenB := _normalize_token_address b |} e) as Htrace.
  rewrite Hexec in Htrace. simpl in Htrace.
  assert (Hfetch :
    fetch_dex_pool_slippages (client this) config.SLIPPAGE_QUERY_LIMIT
      (Some a) (Some b) e = (Raise x, e1)).
  { unfold fetch_dex_pool_slippages, truthy_str.
    rewrite !bool_decide_eq_false_2 by done. simpl. cbv zeta.
    by rewrite bind_run, Hexec. }
  destruct (call_on_error_returns (_on_error this) x e1 Herr)
    as (e2 & Hcall & _ & _ & Herrors).
  exists e2. split.
  - unfold fetch_all, fetch_slippage_data, try_except, mbind, M_bind, bind.
    rewrite Haddr_a, Haddr_b. unfold self, outside, zoom.
    cbn [fst snd]. rewrite Hfetch. cbn [fst snd]. by rewrite Hcall.
  - rewrite Herrors, Htrace. unfold errors_reported. rewrite omap_app. simpl.
    by rewrite app_nil_r.
Qed.

(** The loop runs the turns it is given, when the error callback and the
    sleep return: each turn returns and sleeps once, and none posts a
    request. *)
Lemma refresh_loop_runs turns this e :
  _running this = true → returns (_on_error this) →
  sleeps (refresh_interval this) →
  ∃ this' e',
    _refresh_loop turns (this, e) = (Ok tt, (this', e'))
    ∧ same_settings this this'
    ∧ posted (trace e') = posted (trace e)
    ∧ slept (trace e') = slept (trace e) ++ replicate turns (refresh_interval this).
Proof.
  revert this e. induction turns as [|turns IH]; intros this e Hrun Herr Hsleep.
  - exists this, e. simpl. rewrite app_nil_r. by repeat split.
  - cbn [_refresh_loop]. rewrite method_bind_run. unfold self at 1.
    cbv beta iota. cbn [fst]. rewrite Hrun.
    destruct (refresh_cycle_returns this e Herr Hsleep)
      as (this1 & e1 & Hcycle & Hset & Hp & Hs & _).
    rewrite method_bind_run, Hcycle.
    pose proof Hset as (_ & Hint & Hrun1 & _ & _ & Hcb).
    destruct (IH this1 e1) as (this2 & e2 & Hloop & Hset2 & Hp2 & Hs2);
      [congruence|by rewrite Hcb|by rewrite Hint|].
    exists this2, e2. split; [done|].
    split; [by eapply same_settings_trans|]. split; [congruence|].
    rewrite Hs2, Hs, Hint, <- app_assoc. done.
Qed.

(** The sleep is outside the [try] of the loop: when [time.sleep] raises,
    as it does for a negative interval, the turn raises and the loop
    ends. *)
Lemma refresh_loop_ends_at_sleep turns this e x :
  _running this = true → returns (_on_error this) →
  (∀ w, ∃ w', time_sleep (refresh_interval this) w = (Raise x, w')) →
  ∃ s', _refresh_loop (S turns) (this, e) = (Raise x, s')
        ∧ slept (trace s'.2) = slept (trace e).
Proof.
  intros Hrun Herr Hsleep. cbn [_refresh_loop]. rewrite method_bind_run.
  unfold self at 1. cbv beta iota. cbn [fst]. rewrite Hrun.
  rewrite method_bind_run, refresh_cycle_run.
  unfold try_except, mbind, M_bind, bind.
  destruct (tame_fetch_all_no_pair (this, e)) as (Hset & Hp & Hs).
  destruct (fetch_all None None (this, e)) as [[both|y] [this1 e1]];
    cbn [fst snd] in *.
  - pose proof Hset as (_ & Hint & _). unfold ret. cbn [fst snd]. rewrite Hint.
    destruct (Hsleep (world e1)) as [w Hw].
    pose proof (sleep_raises _ this1 _ _ _ Hw) as Heq.
    unfold mbind, M_bind, bind in Heq. rewrite Heq. by eexists.
  - pose proof Hset as (Hc & Hint & Hr & Hu1 & Hu2 & Hcb).
    assert (Herr1 : returns (_on_error this1)) by by rewrite Hcb.
    unfold outside at 1, zoom, emit at 1, modify, self. cbn [fst snd].
    destruct (call_on_error_returns (_on_error this1) y
                {| world := world e1;
                   trace := trace e1 ++ [Printed (Error_in_refresh_loop y)] |}
                Herr1)
      as (e3 & Hcall & Hp3 & Hs3 & He3).
    unfold outside at 1, zoom. cbn [fst snd]. rewrite Hcall. cbn [fst snd].
    rewrite Hint. destruct (Hsleep (world e3)) as [w Hw].
    pose proof (sleep_raises _ this1 _ _ _ Hw) as Heq.
    unfold mbind, M_bind, bind in Heq. rewrite Heq.
    eexists. split; [reflexivity|].
    cbn [fst snd trace]. rewrite Hs3. unfold slept in *. cbn [trace].
    rewrite omap_app. simpl. by rewrite app_nil_r.
Qed.

End refresh_theorems.

(** C5: the refresh loop fetches without a pair, so a provider that fails
    is never reported and the stored data are not kept.  The service holds
    a slippage point fetched before and an error callback, the provider
    fails every call, and the loop runs two turns.  The loop calls
    [fetch_all] without a pair, so no turn reaches the provider: both
    turns return and sleep, the error callback is not called once, and the
    stored slippage data are replaced by the empty list under a new stamp.
    The fetch of the same service for a pair, against the same provider,
    raises, calls the error callback with the error and leaves the stored
    point and its stamp as they were. *)
Theorem refresh_loop_fetches_without_pair :
  let service := refresh_scenario.service_with_data in
  let start := scenario.start_of refresh_scenario.failing in
  let loop := _refresh_loop 2 (service, start) in
  let fetch := fetch_all (Some (py "USDC")) (Some (py "WETH")) (service, start) in
  _running service = true
  ∧ slippage_data service
    = [scenario.point_25 (py "WETH") scenario.B (py "USDC") scenario.A 1800.5]
  ∧ last_slippage_update service = Some 1709296200000000
  ∧ loop.1 = Ok tt
  ∧ slept (trace loop.2.2) = [30; 30]
  ∧ posted (trace loop.2.2) = []
  ∧ errors_reported (trace loop.2.2) = []
  ∧ slippage_data loop.2.1 = []
  ∧ mempool_data loop.2.1 = []
  ∧ last_slippage_update loop.2.1 = Some 1709296235000002
  ∧ fetch.1 = Raise (OtherError (py "connection refused"))
  ∧ length (posted (trace fetch.2.2)) = 1%nat
  ∧ errors_reported (trace fetch.2.2) = [OtherError (py "connection refused")]
  ∧ slippage_data fetch.2.1 = slippage_data service
  ∧ last_slippage_update fetch.2.1 = last_slippage_update service.
Proof. cbv zeta. repeat split; by vm_compute. Qed.

(** The sleep of the loop is outside its [try]: with a negative interval
    [time.sleep] raises [ValueError] in the first turn, and the loop ends
    with it. *)
Example refresh_loop_negative_interval :
  let service :=
    set_running true
      (set_on_error refresh_scenario.on_error (__init__ (-5) scenario.the_client)) in
  let run :=
    _refresh_loop 3 (service, scenario.start_of refresh_scenario.failing) in
  run.1 = Raise ValueError
  ∧ slept (trace run.2.2) = []
  ∧ errors_reported (trace run.2.2) = [].
Proof. cbv zeta. repeat split; by vm_compute. Qed.

(** A turn whose fetch raises, here by an update callback: the error is
    reported by the fetch and by the loop, and the loop goes on. *)
Example refresh_loop_reports_twice :
  let run :=
    _refresh_loop 2
      (set_on_slippage_update refresh_scenario.on_update_raising
         refresh_scenario.service_with_data,
       scenario.start_of refresh_scenario.failing) in
  run.1 = Ok tt
  ∧ slept (trace run.2.2) = [30; 30]
  ∧ errors_reported (trace run.2.2)
    = replicate 4 (OtherError (py "callback failed")).
Proof. cbv zeta. repeat split; by vm_compute. Qed.

(** The handler of [/api/data] against the failing provider: status 500,
    and the stored point is still there. *)
Example get_all_data_provider_fails :
  let run :=
    app.get_all_data (Some (py "USDC")) (Some (py "WETH"))
      (refresh_scenario.service_with_data,
       scenario.start_of refresh_scenario.failing) in
  run.1 = Ok (app.Reply_500 (OtherError (py "connection refused")))
  ∧ slippage_data run.2.1
    = [scenario.point_25 (py "WETH") scenario.B (py "USDC") scenario.A 1800.5]
  ∧ errors_reported (trace run.2.2) = [OtherError (py "connection refused")].
Proof. cbv zeta. repeat split; by vm_compute. Qed.

(** ** More on the scenarios *)

(** The scenario of C1 with the request made by symbols: the provider has
    the pool under (WETH, USDC) only, the request is for USDC and WETH, and
    the reply carries the B→A price and maximum input of the point. *)
Example get_slippage_reversed_by_symbol :
  let run :=
    app.get_slippage (Some (py "USDC")) (Some (py "WETH"))
      (scenario.the_service,
       scenario.start_of
         (scenario.directional
            (py "0xc02aaa39b223fe8d0a0e5c4f27ead9083c756cc2")
            (py "0xa0b86991c6218b36c1d19d4a2e9eb0ce3606eb48")
            [scenario.row_25
               (py "WETH") (py "0xc02aaa39b223fe8d0a0e5c4f27ead9083c756cc2")
               (py "USDC") (py "0xa0b86991c6218b36c1d19d4a2e9eb0ce3606eb48")
               1800.5])) in
  (match run.1 with
   | Ok (app.Reply_200 body) =>
       (λ it, (item_bps it, item_price it, item_max_amount it)) <$> app.data body
   | _ => []
   end) = [(25, 1800.5%float, 50000%float)]
  ∧ (tokenA ∘ payload_variables) <$> posted (trace run.2.2)
    = [py "0xa0b86991c6218b36c1d19d4a2e9eb0ce3606eb48";
       py "0xc02aaa39b223fe8d0a0e5c4f27ead9083c756cc2"].
Proof. cbv zeta. split; by vm_compute. Qed.

(** The fallback of C4 on the simulated provider: rows under (A, B) and one
    request; no row under (A, B) and two requests, the second swapped; an
    address missing and no request. *)
Example fetch_dex_pool_slippages_requests :
  let row := scenario.row_25 (py "A") scenario.A (py "B") scenario.B 1800.5 in
  let requests (p : request → result response) (a b : option pystr) :=
    (λ rq, (tokenA (payload_variables rq), tokenB (payload_variables rq)))
    <$> posted (trace (fetch_dex_pool_slippages scenario.the_client 50 a b
                         (scenario.start_of p)).2) in
  requests (scenario.directional scenario.A scenario.B [row])
           (Some scenario.A) (Some scenario.B)
  = [(scenario.A, scenario.B)]
  ∧ requests (scenario.directional scenario.B scenario.A [row])
             (Some scenario.A) (Some scenario.B)
    = [(scenario.A, scenario.B); (scenario.B, scenario.A)]
  ∧ requests (scenario.directional scenario.A scenario.B [row])
             (Some scenario.A) None
    = []
  ∧ requests (scenario.directional scenario.A scenario.B [row])
             (Some (py "")) (Some scenario.B)
    = [].
Proof. cbv zeta. repeat split; by vm_compute. Qed.

(** The per-query limit of C3: [max(limit // 2, 5)]. *)
Example fetch_mempool_trades_limits :
  let limits (lim : Z) :=
    (limit ∘ payload_variables)
    <$> posted (trace (fetch_mempool_trades scenario.the_client lim
                         (Some scenario.A) (Some scenario.B)
                         (scenario.start_of
                            (mempool_scenario.two_batches [] []))).2) in
  limits 20 = [10; 10] ∧ limits 21 = [10; 10] ∧ limits 1 = [5; 5]
  ∧ limits 100 = [50; 50].
Proof. cbv zeta. repeat split; by vm_compute. Qed.

(** ** The pair resolver on strings below U+0100

    On strings whose code points are all below U+0100, where lower case
    keeps the number of code points, a resolved address resolves to
    itself. *)

Ltac bool_cases :=
  repeat match goal with
    | H : _ && _ = true |- _ => apply andb_true_iff in H as [? ?]
    | H : _ && _ = false |- _ => apply andb_false_iff in H as [?|?]
    | H : _ || _ = true |- _ => apply orb_true_iff in H as [?|?]
    | H : _ || _ = false |- _ => apply orb_false_iff in H as [? ?]
    | H : negb _ = true |- _ => apply negb_true_iff in H
    | H : negb _ = false |- _ => apply negb_false_iff in H
    | H : (_ =? _)%N = true |- _ => apply N.eqb_eq in H
    | H : (_ =? _)%N = false |- _ => apply N.eqb_neq in H
    | H : (_ <=? _)%N = true |- _ => apply N.leb_le in H
    | H : (_ <=? _)%N = false |- _ => apply N.leb_gt in H
    end.

Lemma lower_cp_lower1 c : (c < 0x100)%N → lower_cp c = [lower1 c].
Proof.
  intros Hc. unfold lower_cp, lower1.
  repeat case_match; try done; bool_cases; try lia; f_equal; lia.
Qed.

Lemma lower1_below c : (c < 0x100)%N → (lower1 c < 0x100)%N.
Proof. unfold lower1. repeat case_match; bool_cases; lia. Qed.

Lemma lower1_idem c : lower1 (lower1 c) = lower1 c.
Proof.
  unfold lower1 at 2 3.
  destruct ((0x41 <=? c)%N && (c <=? 0x5A)%N) eqn:H1;
    [|destruct ((0xC0 <=? c)%N && (c <=? 0xDE)%N && negb (c =? 0xD7)%N) eqn:H2];
    try done; unfold lower1; repeat case_match; bool_cases; lia.
Qed.

Lemma lower1_space c : (c < 0x100)%N → is_space (lower1 c) = is_space c.
Proof.
  intros Hc. unfold lower1.
  destruct ((0x41 <=? c)%N && (c <=? 0x5A)%N) eqn:H1;
    [|destruct ((0xC0 <=? c)%N && (c <=? 0xDE)%N && negb (c =? 0xD7)%N) eqn:H2];
    try done; bool_cases; unfold is_space;
    repeat match goal with
      | |- context [(?a <=? ?b)%N] =>
          first [rewrite (proj2 (N.leb_le a b)) by lia
                | rewrite (proj2 (N.leb_gt a b)) by lia]
      | |- context [(?a =? ?b)%N] => rewrite (proj2 (N.eqb_neq a b)) by lia
      end; done.
Qed.

Lemma str_lower_below s :
  Forall (λ c, (c < 0x100)%N) s → str_lower s = lower1 <$> s.
Proof.
  induction 1 as [|c s Hc Hs IH]; [done|].
  change (str_lower (c :: s)) with (lower_cp c ++ str_lower s).
  by rewrite IH, lower_cp_lower1.
Qed.

Lemma str_lstrip_suffix s : ∃ p, s = p ++ str_lstrip s.
Proof.
  induction s as [|c s [p IH]]; [by exists []|]. simpl.
  destruct (is_space c); [|by exists []].
  exists (c :: p). simpl. by f_equal.
Qed.

Lemma str_lstrip_head_ok s : head_ok (str_lstrip s).
Proof.
  induction s as [|c s IH]; [done|]. simpl.
  by destruct (is_space c) eqn:Hc.
Qed.

Lemma str_lstrip_Forall (P : N → Prop) s : Forall P s → Forall P (str_lstrip s).
Proof.
  destruct (str_lstrip_suffix s) as [p Hp]. rewrite Hp at 1.
  by intros [_ ?]%Forall_app.
Qed.

Lemma str_strip_Forall (P : N → Prop) s : Forall P s → Forall P (str_strip s).
Proof.
  intros Hs. unfold str_strip.
  by apply Forall_reverse, str_lstrip_Forall, Forall_reverse, str_lstrip_Forall.
Qed.

(** A stripped string starts and ends with a code point that is not a
    space. *)
Lemma str_strip_ends s :
  head_ok (str_strip s) ∧ head_ok (reverse (str_strip s)).
Proof.
  unfold str_strip. set (t := str_lstrip s).
  destruct (str_lstrip_suffix (reverse t)) as [p Hp].
  set (u := str_lstrip (reverse t)) in *. split.
  - assert (Ht : t = reverse u ++ reverse p).
    { by rewrite <- reverse_app, <- Hp, reverse_involutive. }
    pose proof (str_lstrip_head_ok s) as Hhead. fold t in Hhead.
    rewrite Ht in Hhead. by destruct (reverse u).
  - rewrite reverse_involutive. apply str_lstrip_head_ok.
Qed.

Lemma head_ok_strip s : head_ok s → head_ok (reverse s) → str_strip s = s.
Proof.
  intros Hs Hr. unfold str_strip.
  rewrite (str_lstrip_id s) by done.
  rewrite (str_lstrip_id (reverse s)) by done.
  apply reverse_involutive.
Qed.

Lemma head_ok_lower s :
  Forall (λ c, (c < 0x100)%N) s → head_ok s → head_ok (lower1 <$> s).
Proof.
  destruct 1 as [|c s Hc Hs]; [done|]. simpl. by rewrite lower1_space.
Qed.

Lemma is_hex_lower1 c : is_hex c = true → is_hex (lower1 c) = true.
Proof.
  intros Hc%is_hex_cases. unfold is_hex. rewrite bool_decide_eq_true.
  assert (Hl : (0x30 ≤ lower1 c ≤ 0x39 ∨ 0x61 ≤ lower1 c ≤ 0x66)%N).
  { unfold lower1. repeat case_match; bool_cases; lia. }
  assert (Hall : ∀ n, (0x30 ≤ n ≤ 0x39 ∨ 0x61 ≤ n ≤ 0x66)%N → n ∈ config.hex_digits).
  { intros n Hn.
    assert (n ∈ (N.of_nat <$> seq 0x30 10) ++ (N.of_nat <$> seq 0x61 6)) as Hin.
    { apply elem_of_app. destruct Hn as [Hn|Hn]; [left|right];
        apply list_elem_of_fmap; exists (N.to_nat n);
        (split; [lia|apply elem_of_seq; lia]). }
    revert Hin. vm_compute. intros Hin.
    repeat (apply elem_of_cons in Hin as [->|Hin];
            [by repeat first [left | right]|]).
    by apply elem_of_nil in Hin. }
  by apply Hall.
Qed.

Lemma is_hex_below c : is_hex c = true → (c < 0x100)%N.
Proof. intros Hc%is_hex_cases. lia. Qed.

(** C9 within the strings below U+0100: there the resolver is idempotent
    on its successes. *)
Lemma token_to_address_idempotent_below s a :
  Forall (λ c, (c < 0x100)%N) s →
  config.token_to_address (Some s) = Some a →
  config.token_to_address (Some a) = Some a.
Proof.
  intros Hs Hres.
  unfold config.token_to_address in Hres.
  case_bool_decide; [done|]. cbv zeta in Hres.
  pose proof (str_strip_Forall _ _ Hs) as Hbelow.
  destruct (str_strip_ends s) as [Hhead Hlast].
  set (t := str_strip s) in *.
  destruct (startswith t (py "0x") && (len t =? 42)) eqn:Hprefix.
  - injection Hres as <-. rewrite (str_lower_below t) in * by done.
    apply andb_true_iff in Hprefix as [Hstart Hlen].
    unfold config.token_to_address.
    rewrite bool_decide_eq_false_2
      by (intros Hnil%fmap_nil_inv; by rewrite Hnil in Hlen).
    rewrite head_ok_strip;
      [|by apply head_ok_lower
       |rewrite <- fmap_reverse; apply head_ok_lower; [by apply Forall_reverse|done]].
    cbv zeta.
    assert (startswith (lower1 <$> t) (py "0x") = true) as ->.
    { unfold startswith in *. rewrite bool_decide_eq_true in *.
      rewrite <- fmap_take.
      change (length (py "0x")) with 2%nat in *. by rewrite Hstart. }
    assert (len (lower1 <$> t) =? 42 = true) as ->.
    { unfold len in *. by rewrite length_fmap. }
    simpl andb. f_equal. rewrite str_lower_below.
    + rewrite <- list_fmap_compose. apply list_fmap_ext. intros _ c _. simpl.
      apply lower1_idem.
    + apply Forall_fmap. eapply Forall_impl; [exact Hbelow|]. simpl.
      intros c. apply lower1_below.
  - destruct ((len t =? 40) && forallb _ t) eqn:Hbare.
    + apply (inj Some) in Hres as <-. apply andb_true_iff in Hbare as [Hlen Hhex].
      fold is_hex in Hhex. rewrite (str_lower_below t) by done.
      assert (Hhex' : forallb is_hex (lower1 <$> t) = true).
      { apply forallb_forall. intros c Hc.
        apply list_elem_of_In, list_elem_of_fmap in Hc as (c' & -> & Hc').
        apply is_hex_lower1. rewrite forallb_forall in Hhex.
        by apply Hhex, list_elem_of_In. }
      assert (Hlen' : length (lower1 <$> t) = 40%nat).
      { rewrite length_fmap. unfold len in Hlen. lia. }
      rewrite (token_to_address_prefixed _ Hlen' Hhex').
      do 2 f_equal. rewrite str_lower_below.
      * rewrite <- list_fmap_compose. apply list_fmap_ext. intros _ c _. simpl.
        apply lower1_idem.
      * apply Forall_fmap. eapply Forall_impl; [exact Hbelow|]. simpl.
        intros c. apply lower1_below.
    + apply elem_of_list_to_map_2 in Hres.
      repeat (apply elem_of_cons in Hres as [Hres|Hres];
              [injection Hres as _ ->; by vm_compute|]).
      by apply elem_of_nil in Hres.
Qed.

(** * Further properties of the code *)

(** ** Strings, the pair resolver and the addresses sent to the provider *)

Lemma str_strip_idem s : str_strip (str_strip s) = str_strip s.
Proof. destruct (str_strip_ends s). by apply head_ok_strip. Qed.

Lemma str_strip_no_space s :
  Forall (λ c, is_space c = false) s → str_strip s = s.
Proof.
  intros Hs. apply head_ok_strip.
  - by destruct Hs.
  - apply Forall_reverse in Hs. by destruct Hs.
Qed.

Lemma hex_no_space s :
  forallb is_hex s = true → Forall (λ c, is_space c = false) s.
Proof.
  intros Hs. apply Forall_forall. intros c Hc. apply is_hex_not_space.
  rewrite forallb_forall in Hs. by apply Hs, list_elem_of_In.
Qed.

Lemma str_upper_length_hex s :
  forallb is_hex s = true → length (str_upper s) = length s.
Proof.
  induction s as [|c s IH]; [done|]. simpl. intros [Hc Hs]%andb_true_iff.
  change (str_upper (c :: s)) with (upper_cp c ++ str_upper s).
  rewrite length_app, IH by done. f_equal.
  apply is_hex_cases in Hc. unfold upper_cp.
  repeat case_match; try done; bool_cases; lia.
Qed.

(** The table of the known tokens: its keys have at most four code points,
    and its addresses are as the provider takes them. *)
Lemma TOKEN_ADDRESSES_lookup k a :
  config.TOKEN_ADDRESSES !! k = Some a →
  (length k ≤ 4)%nat ∧ length a = 42%nat ∧ startswith a (py "0x") = true
  ∧ _normalize_token_address a = a.
Proof.
  intros Hlook%elem_of_list_to_map_2.
  repeat (apply elem_of_cons in Hlook as [Hlook|Hlook];
          [injection Hlook as -> ->; split; [vm_compute; lia|by vm_compute]|]).
  by apply elem_of_nil in Hlook.
Qed.

(** An address in lower case, without spaces around it and with its
    prefix is left as it is. *)
Lemma _normalize_token_address_fixed a :
  Forall (λ c, (c < 0x100)%N) a → str_strip a = a → lower1 <$> a = a →
  startswith a (py "0x") = true → _normalize_token_address a = a.
Proof.
  intros Hbelow Hstrip Hlower Hstart. unfold _normalize_token_address.
  rewrite Hstrip, (str_lower_below a Hbelow), Hlower. cbv zeta. by rewrite Hstart.
Qed.

Lemma lower1_fmap_idem (s : pystr) : lower1 <$> (lower1 <$> s) = lower1 <$> s.
Proof.
  rewrite <- list_fmap_compose. apply list_fmap_ext. intros _ c _. simpl.
  apply lower1_idem.
Qed.

Lemma lower1_fmap_below (s : pystr) :
  Forall (λ c, (c < 0x100)%N) s → Forall (λ c, (c < 0x100)%N) (lower1 <$> s).
Proof.
  intros Hs. apply Forall_fmap. eapply Forall_impl; [exact Hs|]. simpl.
  intros c. apply lower1_below.
Qed.

Lemma startswith_lower1 (s : pystr) :
  startswith s (py "0x") = true → startswith (lower1 <$> s) (py "0x") = true.
Proof.
  unfold startswith. rewrite !bool_decide_eq_true. intros Hs.
  rewrite <- fmap_take. change (length (py "0x")) with 2%nat in *. by rewrite Hs.
Qed.

Lemma str_strip_lower1 (s : pystr) :
  Forall (λ c, (c < 0x100)%N) s →
  str_strip (lower1 <$> str_strip s) = lower1 <$> str_strip s.
Proof.
  intros Hs. destruct (str_strip_ends s) as [Hhead Hlast].
  pose proof (str_strip_Forall _ _ Hs) as Hbelow.
  apply head_ok_strip; [by apply head_ok_lower|].
  rewrite <- fmap_reverse. apply head_ok_lower; [by apply Forall_reverse|done].
Qed.

(** X1: [token_to_address] ignores the whitespace around its argument: a
    string and the same string stripped resolve alike, to an address or
    to [None]. *)
Theorem token_to_address_ignores_whitespace (v : pystr) :
  config.token_to_address (Some v) = config.token_to_address (Some (str_strip v)).
Proof.
  unfold config.token_to_address. rewrite str_strip_idem.
  case_bool_decide as Hv; case_bool_decide as Hs; try done.
  - by subst v.
  - rewrite Hs. by vm_compute.
Qed.

(** X2: an address written with the prefix [0X], the X in upper case, is
    not resolved, although the same forty digits resolve with the prefix
    [0x] and without a prefix, and to the same address. *)
Theorem token_to_address_upper_case_prefix (h : pystr) :
  length h = 40%nat → forallb is_hex h = true →
  config.token_to_address (Some (py "0X" ++ h)) = None
  ∧ config.token_to_address (Some (py "0x" ++ h)) = Some (py "0x" ++ str_lower h)
  ∧ config.token_to_address (Some h) = Some (py "0x" ++ str_lower h).
Proof.
  intros Hlen Hhex. split; [|split].
  - unfold config.token_to_address.
    rewrite bool_decide_eq_false_2 by done.
    rewrite str_strip_no_space
      by (apply Forall_app; split; [by repeat constructor|by apply hex_no_space]).
    cbv zeta.
    assert (startswith (py "0X" ++ h) (py "0x") = false) as -> by done.
    unfold len. rewrite length_app, Hlen. simpl (_ =? 40). simpl andb. cbv iota.
    destruct (config.TOKEN_ADDRESSES !! _) as [a|] eqn:Hlook; [|done].
    apply TOKEN_ADDRESSES_lookup in Hlook as [Hk _].
    change (str_upper (py "0X" ++ h)) with (py "0X" ++ str_upper h) in Hk.
    rewrite length_app, str_upper_length_hex, Hlen in Hk by done. simpl in Hk. lia.
  - by apply token_to_address_prefixed.
  - by apply token_to_address_bare.
Qed.

Lemma token_to_address_upper_case_prefix_witness :
  config.token_to_address
    (Some (py "0XA0B86991C6218B36C1D19D4A2E9EB0CE3606EB48")) = None
  ∧ config.token_to_address
      (Some (py "0xA0B86991C6218B36C1D19D4A2E9EB0CE3606EB48"))
    = Some (py "0xa0b86991c6218b36c1d19d4a2e9eb0ce3606eb48").
Proof.
  destruct (token_to_address_upper_case_prefix
              (py "A0B86991C6218B36C1D19D4A2E9EB0CE3606EB48"))
    as (Hupper & Hlower & _); [reflexivity|reflexivity|].
  split; [exact Hupper|exact Hlower].
Defined.

(** X3: an address that [token_to_address] gives for a string of code
    points below U+0100 has forty-two code points, starts with [0x], and
    [_normalize_token_address] leaves it as it is: the provider is asked
    for the resolved address itself. *)
Theorem token_to_address_canonical (s a : pystr) :
  Forall (λ c, (c < 0x100)%N) s →
  config.token_to_address (Some s) = Some a →
  length a = 42%nat ∧ startswith a (py "0x") = true
  ∧ _normalize_token_address a = a.
Proof.
  intros Hs Hres. unfold config.token_to_address in Hres.
  case_bool_decide; [done|]. cbv zeta in Hres.
  pose proof (str_strip_Forall _ _ Hs) as Hbelow.
  pose proof (str_strip_lower1 s Hs) as Hstrip.
  set (t := str_strip s) in *.
  destruct (startswith t (py "0x") && (len t =? 42)) eqn:Hprefix.
  - apply (inj Some) in Hres as <-. rewrite (str_lower_below t) by done.
    apply andb_true_iff in Hprefix as [Hstart Hlen].
    split; [rewrite length_fmap; unfold len in Hlen; lia|].
    split; [by apply startswith_lower1|].
    apply _normalize_token_address_fixed;
      [by apply lower1_fmap_below|done|apply lower1_fmap_idem
      |by apply startswith_lower1].
  - destruct ((len t =? 40) && forallb _ t) eqn:Hbare.
    + apply (inj Some) in Hres as <-. apply andb_true_iff in Hbare as [Hlen Hhex].
      fold is_hex in Hhex. rewrite (str_lower_below t) by done.
      split; [rewrite length_app, length_fmap; unfold len in Hlen; simpl; lia|].
      split; [done|].
      apply _normalize_token_address_fixed.
      * apply Forall_app. split; [by repeat constructor|by apply lower1_fmap_below].
      * apply str_strip_no_space, Forall_app. split; [by repeat constructor|].
        apply hex_no_space, forallb_forall. intros c Hc.
        apply list_elem_of_In, list_elem_of_fmap in Hc as (c' & -> & Hc').
        apply is_hex_lower1. rewrite forallb_forall in Hhex.
        by apply Hhex, list_elem_of_In.
      * rewrite fmap_app, lower1_fmap_idem. done.
      * done.
    + apply TOKEN_ADDRESSES_lookup in Hres. tauto.
Qed.

Lemma token_to_address_canonical_witness :
  config.token_to_address (Some (py " weth "))
  = Some (py "0xc02aaa39b223fe8d0a0e5c4f27ead9083c756cc2")
  ∧ _normalize_token_address (py "0xc02aaa39b223fe8d0a0e5c4f27ead9083c756cc2")
    = py "0xc02aaa39b223fe8d0a0e5c4f27ead9083c756cc2".
Proof.
  split; [reflexivity|].
  refine (proj2 (proj2 (token_to_address_canonical (py " weth ") _ _ eq_refl))).
  repeat constructor.
Defined.

(** X4: what [_normalize_token_address] returns starts with [0x], and on
    strings of code points below U+0100 normalising twice is normalising
    once. *)
Theorem normalize_token_address_idempotent (a : pystr) :
  Forall (λ c, (c < 0x100)%N) a →
  startswith (_normalize_token_address a) (py "0x") = true
  ∧ _normalize_token_address (_normalize_token_address a)
    = _normalize_token_address a.
Proof.
  intros Ha.
  pose proof (str_strip_Forall _ _ Ha) as Hbelow.
  pose proof (str_strip_lower1 a Ha) as Hstrip.
  assert (Hr : _normalize_token_address a
               = if startswith (lower1 <$> str_strip a) (py "0x")
                 then lower1 <$> str_strip a
                 else py "0x" ++ (lower1 <$> str_strip a)).
  { unfold _normalize_token_address. by rewrite (str_lower_below (str_strip a)). }
  rewrite Hr. clear Hr.
  set (s := lower1 <$> str_strip a) in *.
  assert (Hs : Forall (λ c, (c < 0x100)%N) s) by by apply lower1_fmap_below.
  destruct (startswith s (py "0x")) eqn:Hstart.
  - split; [done|].
    apply _normalize_token_address_fixed; [done|done|apply lower1_fmap_idem|done].
  - split; [done|].
    apply _normalize_token_address_fixed; [|
      |rewrite fmap_app; unfold s at 1; by rewrite lower1_fmap_idem|done].
    + apply Forall_app. split; [by repeat constructor|done].
    + destruct (str_strip_ends (str_strip a)) as [_ Hlast].
      destruct (str_strip_ends s) as [Hhead' Hlast'].
      rewrite Hstrip in Hhead', Hlast'.
      apply head_ok_strip; [done|].
      rewrite reverse_app. by destruct (reverse s).
Qed.

Lemma normalize_token_address_idempotent_witness :
  _normalize_token_address (py " A0B8 ") = py "0xa0b8"
  ∧ _normalize_token_address (_normalize_token_address (py " A0B8 "))
    = _normalize_token_address (py " A0B8 ").
Proof.
  split; [reflexivity|].
  refine (proj2 (normalize_token_address_idempotent (py " A0B8 ") _)).
  repeat constructor.
Defined.

(** ** [truncate_address] *)

(** X5: [truncate_address] never returns more than thirteen code points,
    and truncating twice is truncating once.  An address of at most
    thirteen code points is returned as it is, a missing one as the empty
    string; of a longer one the first six and the last four code points
    are kept, with three dots between them. *)
Theorem truncate_address_bounded (address : option pystr) :
  let r := truncate_address address in
  len r ≤ 13
  ∧ truncate_address (Some r) = r
  ∧ match address with
    | None => r = []
    | Some a =>
        if len a <=? 13 then r = a
        else r = take 6 a ++ py "..." ++ drop (length a - 4) a ∧ len r = 13
    end.
Proof.
  destruct address as [a|]; [|done]. cbv zeta.
  assert (Hshort : ∀ b : pystr, len b ≤ 13 → truncate_address (Some b) = b).
  { intros b Hb. unfold truncate_address.
    by rewrite (proj2 (Z.leb_le _ _) Hb), orb_true_r. }
  destruct (len a <=? 13) eqn:Hlen.
  - apply Z.leb_le in Hlen. rewrite !(Hshort a Hlen). done.
  - apply Z.leb_gt in Hlen.
    assert (Hlong : truncate_address (Some a)
                    = take 6 a ++ py "..." ++ drop (length a - 4) a).
    { unfold truncate_address. rewrite (proj2 (Z.leb_gt _ _) Hlen).
      assert (truthy_str a = true) as -> by (by destruct a).
      simpl negb. simpl orb. cbv iota.
      assert (slice_to a 6 = take 6 a) as -> by done.
      unfold slice_from, len. simpl (0 <=? -4). cbv iota.
      do 3 f_equal. lia. }
    assert (Hr : len (truncate_address (Some a)) = 13).
    { rewrite Hlong. unfold len in *.
      rewrite !length_app, length_take, length_drop.
      change (length (py "...")) with 3%nat. lia. }
    split; [lia|]. split; [apply Hshort; lia|done].
Qed.

(** ** The payload of the slippage reconciler *)

Lemma transform_tiers data token_a token_b include_tokens :
  item_bps <$> transform_slippage_for_api data token_a token_b include_tokens
  = slippage_bps <$> first_of_each slippage_bps ∅ (sorted data slippage_bps).
Proof. by rewrite transform_slippage_for_api_eq, item_of_bps_fmap. Qed.

Lemma transform_tiers_sorted data token_a token_b include_tokens :
  StronglySorted Z.lt
    (item_bps <$> transform_slippage_for_api data token_a token_b include_tokens).
Proof. rewrite transform_tiers. apply first_of_each_strict, sorted_ascending. Qed.

Lemma transform_tiers_elem data token_a token_b include_tokens bps :
  bps ∈ item_bps <$> transform_slippage_for_api data token_a token_b include_tokens
  ↔ bps ∈ slippage_bps <$> data.
Proof.
  rewrite transform_tiers. split.
  - intros (s & -> & Hs)%list_elem_of_fmap.
    apply first_of_each_elem in Hs as [Hs _]. rewrite sorted_perm in Hs.
    apply list_elem_of_fmap. by exists s.
  - intros (s & -> & Hs)%list_elem_of_fmap.
    apply first_of_each_complete; [by rewrite sorted_perm|set_solver].
Qed.

Lemma strictly_sorted_ext (l1 l2 : list Z) :
  StronglySorted Z.lt l1 → StronglySorted Z.lt l2 →
  (∀ x, x ∈ l1 ↔ x ∈ l2) → l1 = l2.
Proof.
  intros H1. revert l2. induction H1 as [|x l1 H1 IH Hx]; intros l2 H2 Hext.
  - destruct l2 as [|y l2]; [done|].
    exfalso. apply (elem_of_nil y), Hext. left.
  - destruct H2 as [|y l2 H2 Hy].
    { exfalso. apply (elem_of_nil x), Hext. left. }
    rewrite Forall_forall in Hx, Hy.
    assert (x = y) as <-.
    { assert (Hxin : x ∈ y :: l2) by (apply Hext; left).
      assert (Hyin : y ∈ x :: l1) by (apply Hext; left).
      apply elem_of_cons in Hxin as [?|Hxin]; [done|].
      apply elem_of_cons in Hyin as [?|Hyin]; [done|].
      specialize (Hx _ Hyin). specialize (Hy _ Hxin). lia. }
    f_equal. apply IH; [done|]. intros z. split; intros Hz.
    + assert (Hin : z ∈ x :: l2) by (apply Hext; by right).
      apply elem_of_cons in Hin as [->|Hin]; [|done].
      specialize (Hx _ Hz). lia.
    + assert (Hin : z ∈ x :: l1) by (apply Hext; by right).
      apply elem_of_cons in Hin as [->|Hin]; [|done].
      specialize (Hy _ Hz). lia.
Qed.

Lemma StronglySorted_lt_NoDup (l : list Z) : StronglySorted Z.lt l → NoDup l.
Proof.
  induction 1 as [|x l Hl IH Hx]; constructor; [|done].
  rewrite Forall_forall in Hx. intros Hin. specialize (Hx _ Hin). lia.
Qed.

Lemma fmap_inj_on {A B} (f : A → B) (l1 l2 : list A) :
  (∀ x y, x ∈ l1 → y ∈ l2 → f x = f y → x = y) →
  f <$> l1 = f <$> l2 → l1 = l2.
Proof.
  revert l2. induction l1 as [|x l1 IH]; intros [|y l2] Hinj Heq; try done.
  rewrite !fmap_cons in Heq. injection Heq as Hxy Heq.
  f_equal; [apply Hinj; [left|left|done]|].
  apply IH; [|done]. intros x' y' Hx' Hy'. apply Hinj; by right.
Qed.

Lemma NoDup_fmap_inj_on {A B} (f : A → B) (l : list A) x y :
  NoDup (f <$> l) → x ∈ l → y ∈ l → f x = f y → x = y.
Proof.
  induction l as [|z l IH]; [by intros _ ?%elem_of_nil|].
  rewrite fmap_cons, NoDup_cons.
  intros [Hz Hl] [->|Hx]%elem_of_cons [->|Hy]%elem_of_cons Heq; try done.
  - destruct Hz. rewrite Heq. apply list_elem_of_fmap. by exists y.
  - destruct Hz. rewrite <- Heq. apply list_elem_of_fmap. by exists x.
  - by apply IH.
Qed.

(** X6: the ["price"] of an item of the payload is zero or greater than
    zero: it is never negative and never a NaN, whatever the prices of
    the provider are. *)
Theorem transform_slippage_for_api_price
    (data : list PoolSlippageData) (token_a token_b : option pystr)
    (include_tokens : bool) :
  Forall (λ it, item_price it = 0%float
                ∨ PrimFloat.ltb 0%float (item_price it) = true)
    (transform_slippage_for_api data token_a token_b include_tokens).
Proof.
  apply Forall_forall. intros it (s & _ & ->)%kept_point.
  unfold item_of. destruct (_is_pool_reversed _ _ _ _); simpl;
    rewrite positive_or_zero_eq; case_match; auto.
Qed.

Lemma transform_slippage_for_api_le data token_a token_b include_tokens :
  (length (transform_slippage_for_api data token_a token_b include_tokens)
   ≤ length data)%nat.
Proof.
  rewrite <- (length_fmap item_bps), <- (length_fmap slippage_bps data).
  apply submseteq_length, NoDup_submseteq.
  - apply StronglySorted_lt_NoDup, transform_tiers_sorted.
  - intros x. apply transform_tiers_elem.
Qed.

(** X7: the payload has one item for each distinct tier of the input: as
    many items as the input has distinct values of [slippage_bps], never
    more than it has points, and none exactly when it has no point. *)
Theorem transform_slippage_for_api_count
    (data : list PoolSlippageData) (token_a token_b : option pystr)
    (include_tokens : bool) :
  let out := transform_slippage_for_api data token_a token_b include_tokens in
  length out = size (list_to_set (slippage_bps <$> data) : gset Z)
  ∧ (length out ≤ length data)%nat
  ∧ (out = [] ↔ data = []).
Proof.
  cbv zeta.
  set (out := transform_slippage_for_api data token_a token_b include_tokens).
  pose proof (transform_tiers_sorted data token_a token_b include_tokens) as Hsorted.
  pose proof (transform_tiers_elem data token_a token_b include_tokens) as Helem.
  fold out in Hsorted, Helem. apply StronglySorted_lt_NoDup in Hsorted.
  assert (Hlen : length out = length (item_bps <$> out)) by by rewrite length_fmap.
  split; [|split].
  - rewrite Hlen, <- (size_list_to_set (C := gset Z)) by done.
    f_equal. apply set_eq. intros x. rewrite !elem_of_list_to_set. apply Helem.
  - apply transform_slippage_for_api_le.
  - split.
    + intros Hout. destruct data as [|s data]; [done|].
      exfalso. apply (elem_of_nil (slippage_bps s)).
      rewrite Hout in Helem. apply Helem. rewrite fmap_cons. left.
    + by intros ->.
Qed.

(** X8: the order in which the provider gives the points does not change
    the tiers of the payload, and when no two points share a tier it does
    not change the payload at all. *)
Theorem transform_slippage_for_api_order
    (data data' : list PoolSlippageData) (token_a token_b : option pystr)
    (include_tokens : bool) :
  data ≡ₚ data' →
  item_bps <$> transform_slippage_for_api data token_a token_b include_tokens
  = item_bps <$> transform_slippage_for_api data' token_a token_b include_tokens
  ∧ (NoDup (slippage_bps <$> data) →
     transform_slippage_for_api data token_a token_b include_tokens
     = transform_slippage_for_api data' token_a token_b include_tokens).
Proof.
  intros Hperm.
  assert (Htiers :
    item_bps <$> transform_slippage_for_api data token_a token_b include_tokens
    = item_bps <$> transform_slippage_for_api data' token_a token_b include_tokens).
  { apply strictly_sorted_ext; [apply transform_tiers_sorted..|].
    intros x. rewrite !transform_tiers_elem. by rewrite Hperm. }
  split; [done|]. intros Hdistinct.
  rewrite !transform_tiers in Htiers. rewrite !transform_slippage_for_api_eq.
  f_equal. apply (fmap_inj_on slippage_bps); [|done].
  intros x y [Hx _]%first_of_each_elem [Hy _]%first_of_each_elem.
  rewrite sorted_perm in Hx, Hy. rewrite <- Hperm in Hy.
  by apply (NoDup_fmap_inj_on slippage_bps data).
Qed.

(** ** The summaries of the service *)

Lemma size_list_to_set_le (l : list pystr) :
  (size (list_to_set l : gset pystr) ≤ length l)%nat.
Proof.
  unfold size, set_size. simpl.
  apply submseteq_length, NoDup_submseteq; [apply NoDup_elements|].
  intros x. by rewrite elem_of_elements, elem_of_list_to_set.
Qed.

(** X9: in the summary of the mempool, [count] is the number of the
    stored trades, and [unique_protocols] is at most [count], and zero
    exactly when no trade is stored. *)
Theorem get_mempool_summary_counts `{RT : Runtime} (this : DataService) :
  let s := get_mempool_summary this in
  count s = len (mempool_data this)
  ∧ 0 ≤ unique_protocols s ≤ count s
  ∧ (unique_protocols s = 0 ↔ mempool_data this = []).
Proof.
  cbv zeta. unfold get_mempool_summary.
  destruct (mempool_data this) as [|t data] eqn:Hdata; [done|].
  cbn [truthy_list negb count unique_protocols].
  pose proof (size_list_to_set_le (trade_protocol <$> (t :: data))) as Hle.
  rewrite length_fmap in Hle.
  assert (Hpos : size (list_to_set (trade_protocol <$> t :: data) : gset pystr)
                 ≠ 0%nat).
  { intros Hsize. apply size_empty_inv in Hsize.
    assert (trade_protocol t ∈ (∅ : gset pystr)); [|set_solver].
    rewrite <- Hsize. rewrite fmap_cons. set_solver. }
  unfold len. split; [done|]. split; [lia|]. split; [lia|done].
Qed.

(** X10: [get_unique_protocols] lists each label
    [f"{protocol} v{protocol_version}"] of the stored slippage points
    once, and nothing else; the ["protocol"] of every item of the
    payload of [transform_slippage_for_api] is one of them. *)
Theorem get_unique_protocols_labels `{RT : Runtime} (this : DataService) :
  NoDup (get_unique_protocols this)
  ∧ (∀ x, x ∈ get_unique_protocols this
          ↔ ∃ s, s ∈ slippage_data this
                 ∧ x = protocol s ++ py " v" ++ protocol_version s)
  ∧ (length (get_unique_protocols this) ≤ length (slippage_data this))%nat
  ∧ (∀ token_a token_b include_tokens,
       Forall (λ it, item_protocol it ∈ get_unique_protocols this)
         (transform_slippage_for_api (slippage_data this)
            token_a token_b include_tokens)).
Proof.
  assert (Hmem : ∀ x, x ∈ get_unique_protocols this
                      ↔ ∃ s, s ∈ slippage_data this
                             ∧ x = protocol s ++ py " v" ++ protocol_version s).
  { intros x. unfold get_unique_protocols.
    destruct (slippage_data this) as [|s data] eqn:Hdata;
      cbn [truthy_list negb].
    - split; [by intros ?%elem_of_nil|]. by intros (s & ?%elem_of_nil & _).
    - rewrite elem_of_elements, elem_of_list_to_set, list_elem_of_fmap.
      split; intros (s' & H1 & H2); by exists s'. }
  split; [|split; [done|split]].
  - unfold get_unique_protocols. case_match; [constructor|apply NoDup_elements].
  - unfold get_unique_protocols. case_match; [simpl; lia|].
    etrans; [apply size_list_to_set_le|]. by rewrite length_fmap.
  - intros token_a token_b include_tokens. apply Forall_forall.
    intros it (s & Hs & ->)%kept_point. apply Hmem. exists s. split.
    + apply head_Some_elem_of in Hs. by apply list_elem_of_filter in Hs as [_ Hs].
    + unfold item_of. by destruct (_is_pool_reversed _ _ _ _).
Qed.

(** ** The parsers of the rows *)

Section parsers.
Context `{RT : Runtime}.

Lemma silent_ret {A} (a : A) : silent (ret a).
Proof. by intros e. Qed.

Lemma silent_raise {A} x : silent (raise x : M env A).
Proof. by intros e. Qed.

Lemma silent_of_result {A} (r : result A) : silent (of_result r).
Proof. by intros e. Qed.

Lemma silent_bind {A B} (m : M env A) (k : A → M env B) :
  silent m → (∀ a, silent (k a)) → silent (m ≫= k).
Proof.
  intros Hm Hk e. rewrite bind_run. specialize (Hm e).
  destruct (m e) as [[a|x] e1]; simpl in *; [|done].
  by rewrite Hk.
Qed.

Lemma silent_in_world {A} (f : World → A * World) : silent (in_world f).
Proof. intros e. unfold in_world. by destruct (f (world e)). Qed.

Lemma silent_block_time_of block : silent (block_time_of block).
Proof.
  unfold block_time_of.
  repeat case_match;
    first [apply silent_ret | apply silent_raise | apply silent_in_world].
Qed.

Lemma silent_slippage_of_row item : silent (slippage_of_row item).
Proof.
  unfold slippage_of_row. cbv zeta.
  repeat (apply silent_bind;
          [first [apply silent_of_result | apply silent_block_time_of]|intros ?]).
  apply silent_ret.
Qed.

Lemma silent_trade_of_row item : silent (trade_of_row item).
Proof.
  unfold trade_of_row. cbv zeta.
  repeat (apply silent_bind;
          [first [apply silent_of_result | apply silent_block_time_of]|intros ?]).
  apply silent_ret.
Qed.

(** [_transform_slippage_data] returns; each row gives a point or a
    message, and nothing else goes to the trace. *)
Lemma transform_slippage_account raw_data e :
  ∃ data e' errors,
    _transform_slippage_data raw_data e = (Ok data, e')
    ∧ trace e' = trace e ++ (Printed ∘ Error_parsing_slippage_data <$> errors)
    ∧ (length data + length errors = length raw_data)%nat.
Proof.
  revert e. induction raw_data as [|item raw IH]; intros e; simpl.
  { exists [], e, []. simpl. by rewrite app_nil_r. }
  rewrite bind_run. unfold try_except at 1. rewrite bind_run.
  pose proof (silent_slippage_of_row item e) as Hsilent.
  destruct (slippage_of_row item e) as [[s|x] e1]; simpl in Hsilent.
  - simpl. rewrite bind_run.
    destruct (IH e1) as (data & e2 & errors & -> & Htrace & Hlen).
    exists (s :: data), e2, errors. rewrite Htrace, Hsilent.
    split; [done|]. split; [done|]. simpl. lia.
  - rewrite bind_run. simpl. rewrite bind_run.
    match goal with |- context [_transform_slippage_data raw ?e0] =>
      destruct (IH e0) as (data & e2 & errors & -> & Htrace & Hlen) end.
    exists data, e2, (x :: errors). simpl in Htrace. rewrite Htrace, Hsilent.
    split; [done|]. split; [by rewrite <- app_assoc|]. simpl. lia.
Qed.

Lemma transform_mempool_account raw_data e :
  ∃ trades e' errors,
    _transform_mempool_trades raw_data e = (Ok trades, e')
    ∧ trace e' = trace e ++ (Printed ∘ Error_parsing_mempool_trade <$> errors)
    ∧ (length trades + length errors = length raw_data)%nat.
Proof.
  revert e. induction raw_data as [|item raw IH]; intros e; simpl.
  { exists [], e, []. simpl. by rewrite app_nil_r. }
  rewrite bind_run. unfold try_except at 1. rewrite bind_run.
  pose proof (silent_trade_of_row item e) as Hsilent.
  destruct (trade_of_row item e) as [[s|x] e1]; simpl in Hsilent.
  - simpl. rewrite bind_run.
    destruct (IH e1) as (data & e2 & errors & -> & Htrace & Hlen).
    exists (s :: data), e2, errors. rewrite Htrace, Hsilent.
    split; [done|]. split; [done|]. simpl. lia.
  - rewrite bind_run. simpl. rewrite bind_run.
    match goal with |- context [_transform_mempool_trades raw ?e0] =>
      destruct (IH e0) as (data & e2 & errors & -> & Htrace & Hlen) end.
    exists data, e2, (x :: errors). simpl in Htrace. rewrite Htrace, Hsilent.
    split; [done|]. split; [by rewrite <- app_assoc|]. simpl. lia.
Qed.

End parsers.

(** X11: [_transform_slippage_data] and [_transform_mempool_trades] never
    raise and never drop a row without a word: each row gives a parsed
    object or one printed message with the exception of that row, so
    the objects returned and the messages printed are as many as the
    rows, and nothing else is added to the trace. *)
Theorem transforms_account_for_rows `{RT : Runtime} :
  (∀ raw_data e, ∃ data e' errors,
     _transform_slippage_data raw_data e = (Ok data, e')
     ∧ trace e' = trace e ++ (Printed ∘ Error_parsing_slippage_data <$> errors)
     ∧ (length data + length errors = length raw_data)%nat)
  ∧ (∀ raw_data e, ∃ trades e' errors,
       _transform_mempool_trades raw_data e = (Ok trades, e')
       ∧ trace e' = trace e ++ (Printed ∘ Error_parsing_mempool_trade <$> errors)
       ∧ (length trades + length errors = length raw_data)%nat).
Proof.
  split; [apply transform_slippage_account|apply transform_mempool_account].
Qed.

(** X12: a block number that is [null] drops a slippage row, with a
    [TypeError] and the state as it was, since [int(None)] raises; the
    same in a mempool row is read as block 0, since that parser takes
    [block.get('Number', 0) or 0]. *)
Theorem null_block_number `{RT : Runtime} :
  (∀ item e price pool block,
     get (SlippageRow_Price item) (Some PriceJ_empty) = Some price →
     get (Price_Pool price) (Some PoolJ_empty) = Some pool →
     get (SlippageRow_Block item) (Some BlockJ_empty) = Some block →
     Block_Number block = Null →
     slippage_of_row item e = (Raise TypeError, e))
  ∧ (∀ item e t e' block,
       get (TradeRow_Block item) (Some BlockJ_empty) = Some block →
       Block_Number block = Null →
       trade_of_row item e = (Ok t, e') →
       trade_block_number t = 0).
Proof.
  split.
  - intros item e price pool block Hprice Hpool Hblock Hnumber.
    unfold slippage_of_row. cbv zeta. rewrite Hprice, Hblock.
    rewrite bind_run. cbn [obj of_result]. rewrite Hpool.
    rewrite bind_run. cbn [obj of_result]. rewrite bind_run. cbn [obj of_result].
    by rewrite Hnumber.
  - intros item e t e' block Hblock Hnumber Hrun.
    unfold trade_of_row in Hrun. cbv zeta in Hrun. rewrite Hblock in Hrun.
    inv_run Hrun. subst. simpl.
    match goal with H : obj (Some block) = Ok ?b |- _ =>
      injection H as <- end.
    match goal with H : py_int _ = Ok ?n |- _ =>
      rewrite Hnumber in H; by injection H as <- end.
Qed.

Lemma null_block_number_witness :
  (slippage_of_row
     (service_scenario.slippage_row_at
        (Present service_scenario.block_without_number)
        (scenario.row_25 (py "A") scenario.A (py "B") scenario.B 1800.5))
     (scenario.start_of refresh_scenario.failing)).1
  = Raise TypeError
  ∧ ∃ t e',
      trade_of_row
        (service_scenario.trade_row_at
           (Present service_scenario.block_without_number)
           mempool_scenario.row_111)
        (scenario.start_of refresh_scenario.failing)
      = (Ok t, e')
      ∧ trade_block_number t = 0.
Proof.
  destruct (@null_block_number simulation.runtime) as [Hslippage Htrade].
  split.
  - erewrite Hslippage; reflexivity.
  - assert (Hrun : ∃ t e',
              trade_of_row
                (service_scenario.trade_row_at
                   (Present service_scenario.block_without_number)
                   mempool_scenario.row_111)
                (scenario.start_of refresh_scenario.failing)
              = (Ok t, e')) by (eexists _, _; reflexivity).
    destruct Hrun as (t & e' & Hrun). exists t, e'. split; [exact Hrun|].
    eapply Htrade; [| |exact Hrun]; reflexivity.
Defined.

(** ** The fetches of the service *)

Section fetches.
Context `{RT : Runtime}.

(** With a limit that is not negative, the directional fetch returns at
    most that many points. *)
Lemma fetch_dex_pool_slippages_bound self lim token_a_address token_b_address
    e data e' :
  fetch_dex_pool_slippages self lim token_a_address token_b_address e
  = (Ok data, e') →
  0 ≤ lim → len data ≤ lim.
Proof.
  intros Hrun Hlim.
  assert (Hbound : ∀ rows e0 data0 e1,
            _transform_slippage_data (slice_to rows lim) e0 = (Ok data0, e1) →
            len data0 ≤ lim).
  { intros rows e0 data0 e1 Hdata.
    destruct (transform_slippage_account (slice_to rows lim) e0)
      as (data1 & e2 & errors & Hrun1 & _ & Hlen).
    rewrite Hrun1 in Hdata. injection Hdata as <- <-.
    rewrite slice_to_take, length_take in Hlen by done. unfold len. lia. }
  unfold fetch_dex_pool_slippages in Hrun.
  destruct token_a_address as [a|], token_b_address as [b|];
    try (injection Hrun as <- <-; unfold len; simpl; lia).
  destruct (negb (truthy_str a) || negb (truthy_str b));
    [injection Hrun as <- <-; unfold len; simpl; lia|].
  cbv zeta in Hrun.
  apply bind_Ok in Hrun as (data_ab & e1 & _ & Hrun).
  apply bind_Ok in Hrun as (slippages_ab & e2 & _ & Hrun).
  destruct (truthy truthy_list slippages_ab).
  - apply bind_Ok in Hrun as (rows & e3 & _ & Hrun). by eapply Hbound.
  - apply bind_Ok in Hrun as (data_ba & e3 & _ & Hrun).
    apply bind_Ok in Hrun as (slippages_ba & e4 & _ & Hrun).
    apply bind_Ok in Hrun as (rows & e5 & _ & Hrun). by eapply Hbound.
Qed.

(** [fetch_slippage_data], by the outcome of the fetch of the client, of
    the callback for new data and of the error callback. *)
Lemma fetch_slippage_data_run lim token_a token_b this e :
  fetch_slippage_data lim token_a token_b (this, e)
  = match fetch_dex_pool_slippages (client this) lim
            (address_of token_a) (address_of token_b) e with
    | (Ok data, e1) =>
        let this1 :=
          set_last_slippage_update (Some (datetime_now (world e1)).1)
            (set_slippage_data data this) in
        let e2 := {| world := (datetime_now (world e1)).2; trace := trace e1 |} in
        match call (_on_slippage_update this) Called_on_slippage_update data e2 with
        | (Ok _, e3) => (Ok data, (this1, e3))
        | (Raise x, e3) =>
            match call (_on_error this) Called_on_error x e3 with
            | (Ok _, e4) => (Raise x, (this1, e4))
            | (Raise x', e4) => (Raise x', (this1, e4))
            end
        end
    | (Raise x, e1) =>
        match call (_on_error this) Called_on_error x e1 with
        | (Ok _, e2) => (Raise x, (this, e2))
        | (Raise x', e2) => (Raise x', (this, e2))
        end
    end.
Proof.
  unfold fetch_slippage_data, try_except, mbind, M_bind, bind, self, outside,
    zoom, assign, modify, in_world, ret, raise.
  cbn [fst snd].
  destruct (fetch_dex_pool_slippages _ _ _ _ e) as [[data|x] e1]; cbn [fst snd].
  - destruct (datetime_now (world e1)) as [t w]. cbn [fst snd].
    cbn [_on_slippage_update set_last_slippage_update set_slippage_data
         slippage_data _on_error].
    destruct (call (_on_slippage_update this) _ _ _) as [[[]|x] e3]; cbn [fst snd].
    + done.
    + cbn [_on_error set_last_slippage_update set_slippage_data].
      by destruct (call (_on_error this) _ _ _) as [[[]|x'] e4].
  - by destruct (call (_on_error this) _ _ _) as [[[]|x'] e2].
Qed.

Lemma fetch_mempool_data_run lim token_a token_b this e :
  fetch_mempool_data lim token_a token_b (this, e)
  = match fetch_mempool_trades (client this) lim
            (address_of token_a) (address_of token_b) e with
    | (Ok data, e1) =>
        let this1 :=
          set_last_mempool_update (Some (datetime_now (world e1)).1)
            (set_mempool_data data this) in
        let e2 := {| world := (datetime_now (world e1)).2; trace := trace e1 |} in
        match call (_on_mempool_update this) Called_on_mempool_update data e2 with
        | (Ok _, e3) => (Ok data, (this1, e3))
        | (Raise x, e3) =>
            match call (_on_error this) Called_on_error x e3 with
            | (Ok _, e4) => (Raise x, (this1, e4))
            | (Raise x', e4) => (Raise x', (this1, e4))
            end
        end
    | (Raise x, e1) =>
        match call (_on_error this) Called_on_error x e1 with
        | (Ok _, e2) => (Raise x, (this, e2))
        | (Raise x', e2) => (Raise x', (this, e2))
        end
    end.
Proof.
  unfold fetch_mempool_data, try_except, mbind, M_bind, bind, self, outside,
    zoom, assign, modify, in_world, ret, raise.
  cbn [fst snd].
  destruct (fetch_mempool_trades _ _ _ _ e) as [[data|x] e1]; cbn [fst snd].
  - destruct (datetime_now (world e1)) as [t w]. cbn [fst snd].
    cbn [_on_mempool_update set_last_mempool_update set_mempool_data
         mempool_data _on_error].
    destruct (call (_on_mempool_update this) _ _ _) as [[[]|x] e3]; cbn [fst snd].
    + done.
    + cbn [_on_error set_last_mempool_update set_mempool_data].
      by destruct (call (_on_error this) _ _ _) as [[[]|x'] e4].
  - by destruct (call (_on_error this) _ _ _) as [[[]|x'] e2].
Qed.

Lemma fetch_all_run token_a token_b s :
  fetch_all token_a token_b s
  = match fetch_slippage_data config.SLIPPAGE_QUERY_LIMIT token_a token_b s with
    | (Ok slippage, s1) =>
        match fetch_mempool_data config.MEMPOOL_QUERY_LIMIT token_a token_b s1 with
        | (Ok mempool, s2) => (Ok (slippage, mempool), s2)
        | (Raise x, s2) => (Raise x, s2)
        end
    | (Raise x, s1) => (Raise x, s1)
    end.
Proof.
  unfold fetch_all, mbind, M_bind, bind, mret, M_ret, ret.
  destruct (fetch_slippage_data _ _ _ s) as [[slippage|x] s1]; [|done].
  by destruct (fetch_mempool_data _ _ _ s1) as [[mempool|x] s2].
Qed.

(** What a call of a callback adds to the trace. *)
Lemma call_trace {A} (cb : option (callback A)) (record : A → event) a e :
  trace (call cb record a e).2
  = trace e ++ (if cb is Some _ then [record a] else []).
Proof.
  destruct cb as [f|]; simpl; [|by rewrite app_nil_r].
  rewrite bind_run. unfold emit at 1, modify at 1. cbv beta iota.
  unfold in_world_raising. simpl. by destruct (f a (world e)).
Qed.

Lemma call_returns {A} (cb : option (callback A)) (record : A → event) a e :
  returns cb → ∃ e', call cb record a e = (Ok tt, e').
Proof.
  intros Hcb. destruct cb as [f|]; simpl; [|by exists e].
  rewrite bind_run. unfold emit at 1, modify at 1. cbv beta iota.
  unfold in_world_raising. simpl. destruct (Hcb a (world e)) as [w' ->].
  by eexists.
Qed.

(** The trace of the fetches of the client. *)
Lemma adds_ret P {A} (a : A) : adds P (ret a).
Proof. intros e. exists []. by rewrite app_nil_r. Qed.

Lemma adds_raise P {A} x : adds P (raise x : M env A).
Proof. intros e. exists []. by rewrite app_nil_r. Qed.

Lemma adds_of_result P {A} (r : result A) : adds P (of_result r).
Proof. intros e. exists []. by rewrite app_nil_r. Qed.

Lemma adds_bind P {A B} (m : M env A) (k : A → M env B) :
  adds P m → (∀ a, adds P (k a)) → adds P (m ≫= k).
Proof.
  intros Hm Hk e. rewrite bind_run. destruct (Hm e) as (evs & Htrace & Hevs).
  destruct (m e) as [[a|x] e1]; simpl in *; [|by exists evs].
  destruct (Hk a e1) as (evs' & Htrace' & Hevs'). exists (evs ++ evs').
  rewrite Htrace', Htrace, app_assoc. split; [done|by apply Forall_app].
Qed.

Lemma adds_execute_query self q vars : adds of_client (_execute_query self q vars).
Proof.
  intros e. exists [Posted (request_of self q vars)].
  split; [apply _execute_query_trace|by repeat constructor].
Qed.

Lemma adds_transform_slippage_data raw_data :
  adds of_client (_transform_slippage_data raw_data).
Proof.
  intros e. destruct (transform_slippage_account raw_data e)
    as (data & e' & errors & -> & Htrace & _).
  eexists. split; [exact Htrace|]. apply Forall_fmap, Forall_forall. by intros.
Qed.


Lemma adds_fetch_dex_pool_slippages self lim token_a_address token_b_address :
  adds of_client
    (fetch_dex_pool_slippages self lim token_a_address token_b_address).
Proof.
  unfold fetch_dex_pool_slippages.
  destruct token_a_address as [a|], token_b_address as [b|];
    try apply adds_ret.
  case_match; [apply adds_ret|]. cbv zeta.
  apply adds_bind; [apply adds_execute_query|]. intros data_ab.
  apply adds_bind; [apply adds_of_result|]. intros slippages_ab.
  case_match.
  - apply adds_bind; [apply adds_of_result|]. intros rows.
    apply adds_transform_slippage_data.
  - apply adds_bind; [apply adds_execute_query|]. intros data_ba.
    apply adds_bind; [apply adds_of_result|]. intros slippages_ba.
    apply adds_bind; [apply adds_of_result|]. intros rows.
    apply adds_transform_slippage_data.
Qed.


(** What the client adds is seen by no projection that reads the calls of
    the callbacks or the sleeps. *)
Lemma adds_omap {A B} (f : event → option B) (m : M env A) e :
  adds of_client m → (∀ ev, of_client ev → f ev = None) →
  omap f (trace (m e).2) = omap f (trace e).
Proof.
  intros Hm Hf. destruct (Hm e) as (evs & -> & Hevs). rewrite omap_app.
  assert (omap f evs = []) as ->; [|by rewrite app_nil_r].
  induction Hevs as [|ev evs Hev _ IH]; [done|]. simpl. by rewrite (Hf ev Hev).
Qed.

(** Without one of the addresses the fetches of the client return at
    once. *)
Lemma fetch_without_address self lim token_a_address token_b_address e :
  token_a_address = None ∨ token_b_address = None →
  fetch_dex_pool_slippages self lim token_a_address token_b_address e = (Ok [], e)
  ∧ fetch_mempool_trades self lim token_a_address token_b_address e = (Ok [], e).
Proof.
  unfold fetch_dex_pool_slippages, fetch_mempool_trades.
  intros [-> | ->]; [done|]. by destruct token_a_address.
Qed.

End fetches.

(** A fetch of the slippage data that returns, taken apart: the fetch of
    the client returned, the service stores its points and the time, and
    the callback for new data, when set, was called and returned. *)
Lemma fetch_slippage_data_Ok `{RT : Runtime}
    (lim : Z) (token_a token_b : option pystr) (this this' : DataService)
    (e e' : env) (data : list PoolSlippageData) :
  fetch_slippage_data lim token_a token_b (this, e) = (Ok data, (this', e')) →
  ∃ e1,
    fetch_dex_pool_slippages (client this) lim
      (address_of token_a) (address_of token_b) e = (Ok data, e1)
    ∧ this' = set_last_slippage_update (Some (datetime_now (world e1)).1)
                (set_slippage_data data this)
    ∧ trace e'
      = trace e1
        ++ (if _on_slippage_update this is Some _
            then [Called_on_slippage_update data] else []).
Proof.
  rewrite fetch_slippage_data_run.
  destruct (fetch_dex_pool_slippages _ _ _ _ e) as [[data1|x] e1];
    [|intros Hrun; repeat case_match; by simplify_eq]. cbv zeta.
  pose proof (call_trace (_on_slippage_update this) Called_on_slippage_update data1
                {| world := (datetime_now (world e1)).2; trace := trace e1 |})
    as Htrace.
  destruct (call _ _ _ _) as [[[]|x] e3];
    [|intros Hrun; repeat case_match; by simplify_eq].
  intros [= <- <- <-]. by exists e1.
Qed.

(** What the fetch of the client leaves of the calls of the callbacks. *)
Lemma fetch_dex_pool_slippages_calls `{RT : Runtime}
    self lim token_a_address token_b_address e r e1 :
  fetch_dex_pool_slippages self lim token_a_address token_b_address e = (r, e1) →
  slippage_updates (trace e1) = slippage_updates (trace e)
  ∧ errors_reported (trace e1) = errors_reported (trace e).
Proof.
  intros Hrun.
  pose proof (adds_fetch_dex_pool_slippages self lim
                token_a_address token_b_address) as Hadds.
  split.
  - pose proof (adds_omap (λ ev, match ev with
                                 | Called_on_slippage_update d => Some d
                                 | _ => None
                                 end) _ e Hadds) as Hkeep.
    rewrite Hrun in Hkeep. apply Hkeep. by intros [].
  - pose proof (adds_omap (λ ev, match ev with
                                 | Called_on_error x => Some x
                                 | _ => None
                                 end) _ e Hadds) as Hkeep.
    rewrite Hrun in Hkeep. apply Hkeep. by intros [].
Qed.

(** What a fetch of the slippage data that returns has done to the
    service. *)
Lemma fetch_slippage_data_returns `{RT : Runtime}
    (lim : Z) (token_a token_b : option pystr) (this this' : DataService)
    (e e' : env) (data : list PoolSlippageData) :
  fetch_slippage_data lim token_a token_b (this, e) = (Ok data, (this', e')) →
  slippage_data this' = data
  ∧ is_Some (last_slippage_update this')
  ∧ mempool_data this' = mempool_data this
  ∧ last_mempool_update this' = last_mempool_update this
  ∧ same_settings this this'
  ∧ (0 ≤ lim → len data ≤ lim)
  ∧ errors_reported (trace e') = errors_reported (trace e).
Proof.
  intros (e1 & Hfetch & -> & Htrace)%fetch_slippage_data_Ok.
  split; [done|]. split; [by eexists|]. split; [done|]. split; [done|].
  split; [by repeat split|].
  split; [by eapply fetch_dex_pool_slippages_bound|].
  destruct (fetch_dex_pool_slippages_calls _ _ _ _ _ _ _ Hfetch) as [_ <-].
  unfold errors_reported. rewrite Htrace, omap_app.
  destruct (_on_slippage_update this); simpl; by rewrite app_nil_r.
Qed.

(** X13: when [fetch_slippage_data] returns, the service holds the points
    returned and the time of the fetch, its mempool data, their time and
    its settings are as before, the callback for new slippage data, when
    set, has been called once, with these points, and no error has been
    reported; with a limit that is not negative the points are at most
    as many as the limit. *)
Theorem fetch_slippage_data_stores `{RT : Runtime}
    (lim : Z) (token_a token_b : option pystr) (this this' : DataService)
    (e e' : env) (data : list PoolSlippageData) :
  fetch_slippage_data lim token_a token_b (this, e) = (Ok data, (this', e')) →
  slippage_data this' = data
  ∧ is_Some (last_slippage_update this')
  ∧ mempool_data this' = mempool_data this
  ∧ last_mempool_update this' = last_mempool_update this
  ∧ same_settings this this'
  ∧ (0 ≤ lim → len data ≤ lim)
  ∧ slippage_updates (trace e')
    = slippage_updates (trace e)
      ++ (if _on_slippage_update this is Some _ then [data] else [])
  ∧ errors_reported (trace e') = errors_reported (trace e).
Proof.
  intros Hrun.
  destruct (fetch_slippage_data_Ok _ _ _ _ _ _ _ _ Hrun)
    as (e1 & Hfetch & -> & Htrace).
  destruct (fetch_dex_pool_slippages_calls _ _ _ _ _ _ _ Hfetch)
    as [Hupdates Herrors].
  split; [done|]. split; [by eexists|]. split; [done|]. split; [done|].
  split; [by repeat split|].
  split; [by eapply fetch_dex_pool_slippages_bound|].
  rewrite <- Hupdates, <- Herrors. unfold slippage_updates, errors_reported.
  rewrite Htrace, !omap_app.
  destruct (_on_slippage_update this); simpl; by rewrite ?app_nil_r.
Qed.

Lemma fetch_slippage_data_stores_witness :
  ∃ data this' e',
    fetch_slippage_data 50 (Some (py "USDC")) (Some (py "WETH"))
      (service_scenario.service_with_callbacks,
       scenario.start_of
         (service_scenario.full
            [scenario.row_25
               (py "USDC") (py "0xa0b86991c6218b36c1d19d4a2e9eb0ce3606eb48")
               (py "WETH") (py "0xc02aaa39b223fe8d0a0e5c4f27ead9083c756cc2")
               1800.5] []))
    = (Ok data, (this', e'))
    ∧ slippage_data this' = data
    ∧ mempool_data this' = mempool_data service_scenario.service_with_callbacks
    ∧ len data ≤ 50
    ∧ slippage_updates (trace e') = [data].
Proof.
  assert (Hrun : ∃ data this' e',
            fetch_slippage_data 50 (Some (py "USDC")) (Some (py "WETH"))
              (service_scenario.service_with_callbacks,
               scenario.start_of
                 (service_scenario.full
                    [scenario.row_25
                       (py "USDC") (py "0xa0b86991c6218b36c1d19d4a2e9eb0ce3606eb48")
                       (py "WETH") (py "0xc02aaa39b223fe8d0a0e5c4f27ead9083c756cc2")
                       1800.5] []))
            = (Ok data, (this', e'))) by (eexists _, _, _; reflexivity).
  destruct Hrun as (data & this' & e' & Hrun). exists data, this', e'.
  destruct (fetch_slippage_data_stores _ _ _ _ _ _ _ _ Hrun)
    as (Hdata & _ & Hmempool & _ & _ & Hlen & Hupdates & _).
  split; [exact Hrun|]. split; [exact Hdata|]. split; [exact Hmempool|].
  split; [by apply Hlen|exact Hupdates].
Defined.





(** A fetch for a pair of which a token does not resolve. *)
Lemma fetch_all_unresolved `{RT : Runtime}
    (token_a token_b : option pystr) (this : DataService) (e : env) :
  address_of token_a = None ∨ address_of token_b = None →
  returns (_on_slippage_update this) → returns (_on_mempool_update this) →
  ∃ this' e',
    fetch_all token_a token_b (this, e) = (Ok ([], []), (this', e'))
    ∧ slippage_data this' = [] ∧ mempool_data this' = []
    ∧ is_Some (last_mempool_update this')
    ∧ same_settings this this'
    ∧ posted (trace e') = posted (trace e)
    ∧ errors_reported (trace e') = errors_reported (trace e).
Proof.
  intros Hnone Hslippage Hmempool.
  rewrite fetch_all_run, fetch_slippage_data_run.
  destruct (fetch_without_address (client this) config.SLIPPAGE_QUERY_LIMIT
              _ _ e Hnone) as [-> _]. cbv zeta.
  destruct (call_returns (_on_slippage_update this) Called_on_slippage_update []
              {| world := (datetime_now (world e)).2; trace := trace e |}
              Hslippage) as [e1 Hcall1].
  pose proof (call_trace (_on_slippage_update this) Called_on_slippage_update []
                {| world := (datetime_now (world e)).2; trace := trace e |})
    as Htrace1.
  rewrite Hcall1 in Htrace1 |- *. cbn [fst snd trace] in Htrace1.
  rewrite fetch_mempool_data_run.
  cbn [client set_last_slippage_update set_slippage_data _on_mempool_update
       _on_error].
  destruct (fetch_without_address (client this) config.MEMPOOL_QUERY_LIMIT
              _ _ e1 Hnone) as [_ ->]. cbv zeta.
  destruct (call_returns (_on_mempool_update this) Called_on_mempool_update []
              {| world := (datetime_now (world e1)).2; trace := trace e1 |}
              Hmempool) as [e2 Hcall2].
  pose proof (call_trace (_on_mempool_update this) Called_on_mempool_update []
                {| world := (datetime_now (world e1)).2; trace := trace e1 |})
    as Htrace2.
  rewrite Hcall2 in Htrace2 |- *. cbn [fst snd trace] in Htrace2.
  eexists _, e2. split; [reflexivity|]. split; [done|]. split; [done|].
  split; [by eexists|]. split; [by repeat split|].
  unfold posted, errors_reported. rewrite Htrace2, Htrace1, !omap_app.
  destruct (_on_slippage_update this), (_on_mempool_update this); simpl;
    by rewrite ?app_nil_r.
Qed.

(** X16: a pair of which a token does not resolve, because it is missing
    or unknown, is not an error: [fetch_all] posts no request and reports
    no error, and, the callbacks for new data returning, it returns two
    empty lists and leaves the service with no slippage point and no
    mempool trade, whatever it held before. *)
Theorem fetch_all_unresolved_pair `{RT : Runtime}
    (token_a token_b : option pystr) (this : DataService) (e : env) :
  address_of token_a = None ∨ address_of token_b = None →
  returns (_on_slippage_update this) → returns (_on_mempool_update this) →
  ∃ this' e',
    fetch_all token_a token_b (this, e) = (Ok ([], []), (this', e'))
    ∧ slippage_data this' = [] ∧ mempool_data this' = []
    ∧ same_settings this this'
    ∧ posted (trace e') = posted (trace e)
    ∧ errors_reported (trace e') = errors_reported (trace e).
Proof.
  intros Hnone Hslippage Hmempool.
  destruct (fetch_all_unresolved token_a token_b this e Hnone Hslippage Hmempool)
    as (this' & e' & Hrun & Hs & Hm & _ & Hrest).
  by exists this', e'.
Qed.

Lemma fetch_all_unresolved_pair_witness :
  ∃ this' e',
    fetch_all (Some (py "DOGE")) (Some (py "WETH"))
      (service_scenario.service_with_callbacks,
       scenario.start_of refresh_scenario.failing)
    = (Ok ([], []), (this', e'))
    ∧ slippage_data service_scenario.service_with_callbacks ≠ []
    ∧ slippage_data this' = [] ∧ mempool_data this' = []
    ∧ posted (trace e') = [] ∧ errors_reported (trace e') = [].
Proof.
  destruct (fetch_all_unresolved_pair (Some (py "DOGE")) (Some (py "WETH"))
              service_scenario.service_with_callbacks
              (scenario.start_of refresh_scenario.failing))
    as (this' & e' & Hrun & Hslippage & Hmempool & _ & Hposted & Herrors).
  - left. by vm_compute.
  - intros x w. by exists w.
  - intros x w. by exists w.
  - exists this', e'. split; [exact Hrun|]. split; [done|].
    split; [exact Hslippage|]. split; [exact Hmempool|].
    split; [exact Hposted|exact Herrors].
Defined.

(** ** The handlers *)

Section handlers_run.
Context `{RT : Runtime}.

Lemma fetch_mempool_data_returns lim token_a token_b this this' e e' data :
  fetch_mempool_data lim token_a token_b (this, e) = (Ok data, (this', e')) →
  mempool_data this' = data
  ∧ slippage_data this' = slippage_data this
  ∧ is_Some (last_mempool_update this')
  ∧ same_settings this this'.
Proof.
  rewrite fetch_mempool_data_run.
  destruct (fetch_mempool_trades _ _ _ _ e) as [[data1|x] e1];
    [|intros Hrun; repeat case_match; by simplify_eq]. cbv zeta.
  destruct (call _ _ _ _) as [[[]|x] e3];
    [|intros Hrun; repeat case_match; by simplify_eq].
  intros [= <- <- <-]. split; [done|]. split; [done|]. split; [by eexists|].
  by repeat split.
Qed.

Lemma fetch_all_returns token_a token_b this this' e e' slippage mempool :
  fetch_all token_a token_b (this, e) = (Ok (slippage, mempool), (this', e')) →
  slippage_data this' = slippage ∧ mempool_data this' = mempool
  ∧ len slippage ≤ config.SLIPPAGE_QUERY_LIMIT.
Proof.
  rewrite fetch_all_run.
  destruct (fetch_slippage_data _ _ _ (this, e)) as [[slippage1|x] [this1 e1]]
    eqn:Hslippage; [|done].
  destruct (fetch_mempool_data _ _ _ (this1, e1)) as [[mempool1|x] [this2 e2]]
    eqn:Hmempool; [|done].
  intros [= <- <- <- <-].
  apply fetch_slippage_data_returns in Hslippage as (Hdata & _ & _ & _ & _ & Hlen & _).
  apply fetch_mempool_data_returns in Hmempool as (Hdata' & Hkept & _).
  split; [by rewrite Hkept|]. split; [done|]. by apply Hlen.
Qed.

Lemma get_all_data_run args_token_a args_token_b s :
  app.get_all_data args_token_a args_token_b s
  = match fetch_all (app.arg args_token_a) (app.arg args_token_b) s with
    | (Ok _, s1) =>
        (Ok (app.Reply_200
               {| app.slippage :=
                    transform_slippage_for_api (slippage_data s1.1)
                      (app.arg args_token_a) (app.arg args_token_b) true;
                  app.mempool :=
                    app.mempool_item_of <$> slice_to (mempool_data s1.1) 15;
                  app.mempool_summary := get_mempool_summary s1.1;
                  app.latest_block := get_latest_block s1.1;
                  app.last_updated := last_mempool_update s1.1 |}), s1)
    | (Raise x, s1) => (Ok (app.Reply_500 x), s1)
    end.
Proof.
  unfold app.get_all_data, try_except, mbind, M_bind, bind, self, ret.
  cbv zeta. by destruct (fetch_all _ _ s) as [[r|x] s1].
Qed.

Lemma get_slippage_run args_token_a args_token_b s :
  app.get_slippage args_token_a args_token_b s
  = match fetch_slippage_data config.SLIPPAGE_QUERY_LIMIT
            (app.arg args_token_a) (app.arg args_token_b) s with
    | (Ok _, s1) =>
        (Ok (app.Reply_200
               {| app.data :=
                    transform_slippage_for_api (slippage_data s1.1)
                      (app.arg args_token_a) (app.arg args_token_b) false;
                  app.slippage_latest_block := get_latest_block s1.1 |}), s1)
    | (Raise x, s1) => (Ok (app.Reply_500 x), s1)
    end.
Proof.
  unfold app.get_slippage, try_except, mbind, M_bind, bind, self, ret.
  cbv zeta. by destruct (fetch_slippage_data _ _ _ s) as [[r|x] s1].
Qed.

Lemma get_mempool_run args_token_a args_token_b s :
  app.get_mempool args_token_a args_token_b s
  = match fetch_mempool_data config.MEMPOOL_QUERY_LIMIT
            (app.arg args_token_a) (app.arg args_token_b) s with
    | (Ok _, s1) =>
        (Ok (app.Reply_200
               {| app.mempool_rows :=
                    app.mempool_only_item_of <$> slice_to (mempool_data s1.1) 15;
                  app.mempool_only_summary := get_mempool_summary s1.1 |}), s1)
    | (Raise x, s1) => (Ok (app.Reply_500 x), s1)
    end.
Proof.
  unfold app.get_mempool, try_except, mbind, M_bind, bind, self, ret.
  cbv zeta. by destruct (fetch_mempool_data _ _ _ s) as [[r|x] s1].
Qed.

Lemma get_mempool_summary_count this :
  count (get_mempool_summary this) = len (mempool_data this).
Proof. unfold get_mempool_summary. by destruct (mempool_data this). Qed.

Lemma len_first_15 {A B} (f : A → B) (l : list A) :
  len (f <$> slice_to l 15) = Z.min 15 (len l).
Proof.
  unfold len. rewrite length_fmap, slice_to_take, length_take by done. lia.
Qed.

End handlers_run.

(** X17: the handlers of [/api/data], [/api/slippage] and [/api/mempool]
    never raise: they answer 200 or 500.  When the fetch of a handler
    raises, the handler answers 500 with the exception of the fetch, in the
    state the fetch left.  In an answer 200 the mempool list is made of the
    first fifteen stored trades, in their order, while the summary counts
    all the stored trades: the list has [min(15, count)] items; and the
    slippage items are at most fifty. *)
Theorem handlers_reply `{RT : Runtime}
    (args_token_a args_token_b : option pystr) (s : DataService * env) :
  match app.get_all_data args_token_a args_token_b s with
  | (Ok (app.Reply_200 body), (service, _)) =>
      app.mempool body = app.mempool_item_of <$> take 15 (mempool_data service)
      ∧ len (app.mempool body) = Z.min 15 (count (app.mempool_summary body))
      ∧ len (app.slippage body) ≤ 50
  | (Ok (app.Reply_500 _), _) => True
  | (Raise _, _) => False
  end
  ∧ (∀ x s1,
       fetch_all (app.arg args_token_a) (app.arg args_token_b) s = (Raise x, s1) →
       app.get_all_data args_token_a args_token_b s = (Ok (app.Reply_500 x), s1))
  ∧ match app.get_slippage args_token_a args_token_b s with
    | (Ok (app.Reply_200 body), _) => len (app.data body) ≤ 50
    | (Ok (app.Reply_500 _), _) => True
    | (Raise _, _) => False
    end
  ∧ (∀ x s1,
       fetch_slippage_data config.SLIPPAGE_QUERY_LIMIT
         (app.arg args_token_a) (app.arg args_token_b) s = (Raise x, s1) →
       app.get_slippage args_token_a args_token_b s = (Ok (app.Reply_500 x), s1))
  ∧ match app.get_mempool args_token_a args_token_b s with
    | (Ok (app.Reply_200 body), (service, _)) =>
        app.mempool_rows body
        = app.mempool_only_item_of <$> take 15 (mempool_data service)
        ∧ len (app.mempool_rows body)
          = Z.min 15 (count (app.mempool_only_summary body))
    | (Ok (app.Reply_500 _), _) => True
    | (Raise _, _) => False
    end
  ∧ (∀ x s1,
       fetch_mempool_data config.MEMPOOL_QUERY_LIMIT
         (app.arg args_token_a) (app.arg args_token_b) s = (Raise x, s1) →
       app.get_mempool args_token_a args_token_b s = (Ok (app.Reply_500 x), s1)).
Proof.
  destruct s as [this e]. split; [|split; [|split; [|split; [|split]]]].
  - rewrite get_all_data_run.
    destruct (fetch_all _ _ (this, e)) as [[[slippage mempool]|x] [this1 e1]]
      eqn:Hrun; [|done].
    apply fetch_all_returns in Hrun as (Hslippage & _ & Hlen).
    cbn [fst snd app.mempool app.mempool_summary app.slippage].
    split; [done|]. split; [by rewrite len_first_15, get_mempool_summary_count|].
    pose proof (transform_slippage_for_api_le (slippage_data this1)
                  (app.arg args_token_a) (app.arg args_token_b) true) as Hle.
    rewrite Hslippage in Hle |- *. unfold len, config.SLIPPAGE_QUERY_LIMIT in *.
    lia.
  - intros x s1 Hrun. by rewrite get_all_data_run, Hrun.
  - rewrite get_slippage_run.
    destruct (fetch_slippage_data _ _ _ (this, e)) as [[slippage|x] [this1 e1]]
      eqn:Hrun; [|done].
    apply fetch_slippage_data_returns in Hrun as (Hdata & _ & _ & _ & _ & Hlen & _).
    cbn [fst snd app.data].
    pose proof (transform_slippage_for_api_le (slippage_data this1)
                  (app.arg args_token_a) (app.arg args_token_b) false) as Hle.
    rewrite Hdata in Hle |- *. unfold len, config.SLIPPAGE_QUERY_LIMIT in *.
    lia.
  - intros x s1 Hrun. by rewrite get_slippage_run, Hrun.
  - rewrite get_mempool_run.
    destruct (fetch_mempool_data _ _ _ (this, e)) as [[mempool|x] [this1 e1]]
      eqn:Hrun; [|done].
    cbn [fst snd app.mempool_rows app.mempool_only_summary].
    split; [done|]. by rewrite len_first_15, get_mempool_summary_count.
  - intros x s1 Hrun. by rewrite get_mempool_run, Hrun.
Qed.

Lemma handlers_reply_witness :
  ∃ s1,
    app.get_all_data (Some (py "USDC")) (Some (py "WETH"))
      (refresh_scenario.service_with_data,
       scenario.start_of refresh_scenario.failing)
    = (Ok (app.Reply_500 (OtherError (py "connection refused"))), s1)
    ∧ slippage_data s1.1 = slippage_data refresh_scenario.service_with_data.
Proof.
  assert (Hres : (fetch_all (Some (py "USDC")) (Some (py "WETH"))
                    (refresh_scenario.service_with_data,
                     scenario.start_of refresh_scenario.failing)).1
                 = Raise (OtherError (py "connection refused")))
    by (vm_compute; reflexivity).
  assert (Hdata : slippage_data
                    (fetch_all (Some (py "USDC")) (Some (py "WETH"))
                       (refresh_scenario.service_with_data,
                        scenario.start_of refresh_scenario.failing)).2.1
                  = slippage_data refresh_scenario.service_with_data)
    by (vm_compute; reflexivity).
  destruct (fetch_all (Some (py "USDC")) (Some (py "WETH"))
              (refresh_scenario.service_with_data,
               scenario.start_of refresh_scenario.failing))
    as [[both|x] s1] eqn:Hrun; cbn [fst snd] in Hres, Hdata; [discriminate Hres|].
  injection Hres as ->. exists s1. split; [|exact Hdata].
  exact (proj1 (proj2 (handlers_reply (Some (py "USDC")) (Some (py "WETH"))
                         (refresh_scenario.service_with_data,
                          scenario.start_of refresh_scenario.failing)))
           _ _ Hrun).
Defined.

(** X18: a query parameter that is missing, empty or made of whitespace
    only counts as not given, and a pair of which a token is not given or
    is not known is answered like a pair without data: [/api/data]
    replies 200 with no slippage item, no trade, a summary of zero and no
    latest block, and posts no request. *)
Theorem get_all_data_without_pair `{RT : Runtime}
    (args_token_a args_token_b : option pystr) (this : DataService) (e : env) :
  (∀ given, app.arg given = None ↔ str_strip (default [] given) = [])
  ∧ (address_of (app.arg args_token_a) = None
     ∨ address_of (app.arg args_token_b) = None →
     returns (_on_slippage_update this) → returns (_on_mempool_update this) →
     ∃ body s1,
       app.get_all_data args_token_a args_token_b (this, e)
       = (Ok (app.Reply_200 body), s1)
       ∧ app.slippage body = [] ∧ app.mempool body = []
       ∧ count (app.mempool_summary body) = 0
       ∧ unique_protocols (app.mempool_summary body) = 0
       ∧ app.latest_block body = None
       ∧ is_Some (app.last_updated body)
       ∧ posted (trace s1.2) = posted (trace e)).
Proof.
  split.
  - intros given. unfold app.arg, py_or, truthy, truthy_str.
    change (get_or given []) with (default [] given).
    case_bool_decide; simpl; naive_solver.
  - intros Hnone Hslippage Hmempool. rewrite get_all_data_run.
    destruct (fetch_all_unresolved _ _ this e Hnone Hslippage Hmempool)
      as (this' & e' & -> & Hs & Hm & Hlast & _ & Hposted & _).
    eexists _, _. split; [reflexivity|]. cbn [fst snd app.slippage app.mempool
      app.mempool_summary app.latest_block app.last_updated].
    unfold get_mempool_summary, get_latest_block. rewrite Hs, Hm.
    by repeat split.
Qed.

Lemma get_all_data_without_pair_witness :
  ∃ body s1,
    app.get_all_data (Some (py "  ")) (Some (py "WETH"))
      (service_scenario.service_with_callbacks,
       scenario.start_of refresh_scenario.failing)
    = (Ok (app.Reply_200 body), s1)
    ∧ app.slippage body = [] ∧ app.mempool body = []
    ∧ app.latest_block body = None
    ∧ posted (trace s1.2) = [].
Proof.
  destruct (proj2 (get_all_data_without_pair (Some (py "  ")) (Some (py "WETH"))
                     service_scenario.service_with_callbacks
                     (scenario.start_of refresh_scenario.failing)))
    as (body & s1 & Hrun & Hslippage & Hmempool & _ & _ & Hblock & _ & Hposted).
  - left. by vm_compute.
  - intros x w. by exists w.
  - intros x w. by exists w.
  - exists body, s1. split; [exact Hrun|]. split; [exact Hslippage|].
    split; [exact Hmempool|]. split; [exact Hblock|exact Hposted].
Defined.

(** ** The refresh loop and the stored data *)

Section refresh_clears.
Context `{RT : Runtime}.

(** A turn of the loop fetches without a pair: it leaves the service
    without data, when its sleep returns. *)
Lemma refresh_cycle_clears this e :
  returns (_on_slippage_update this) → returns (_on_mempool_update this) →
  sleeps (refresh_interval this) →
  ∃ this' e',
    refresh_cycle (this, e) = (Ok tt, (this', e'))
    ∧ same_settings this this'
    ∧ slippage_data this' = [] ∧ mempool_data this' = []
    ∧ posted (trace e') = posted (trace e)
    ∧ errors_reported (trace e') = errors_reported (trace e).
Proof.
  intros Hslippage Hmempool Hsleep. rewrite refresh_cycle_run.
  unfold try_except, mbind, M_bind, bind.
  destruct (fetch_all_unresolved None None this e (or_introl eq_refl)
              Hslippage Hmempool)
    as (this1 & e1 & -> & Hs & Hm & _ & Hset & Hposted & Herrors).
  unfold ret. cbn [fst snd]. pose proof Hset as (_ & Hint & _). rewrite Hint.
  destruct (sleep_returns (refresh_interval this) this1 e1 Hsleep)
    as (e2 & Heq & Htrace).
  unfold mbind, M_bind, bind in Heq. rewrite Heq.
  exists this1, e2. split; [reflexivity|].
  unfold posted, errors_reported in *. rewrite Htrace, !omap_app. simpl.
  by rewrite !app_nil_r.
Qed.

Lemma refresh_loop_clears turns this e :
  _running this = true →
  returns (_on_slippage_update this) → returns (_on_mempool_update this) →
  sleeps (refresh_interval this) →
  ∃ this' e',
    _refresh_loop (S turns) (this, e) = (Ok tt, (this', e'))
    ∧ same_settings this this'
    ∧ slippage_data this' = [] ∧ mempool_data this' = []
    ∧ posted (trace e') = posted (trace e)
    ∧ errors_reported (trace e') = errors_reported (trace e).
Proof.
  revert this e. induction turns as [|turns IH];
    intros this e Hrunning Hslippage Hmempool Hsleep;
    destruct (refresh_cycle_clears this e Hslippage Hmempool Hsleep)
      as (this1 & e1 & Hcycle & Hset & Hs & Hm & Hposted & Herrors).
  - exists this1, e1. cbn [_refresh_loop]. rewrite method_bind_run.
    unfold self at 1. cbv beta iota. cbn [fst]. rewrite Hrunning.
    by rewrite method_bind_run, Hcycle.
  - pose proof Hset as (_ & Hint & Hrunning1 & Hcb1 & Hcb2 & _).
    destruct (IH this1 e1) as (this2 & e2 & Hloop & Hset2 & Hs2 & Hm2 & Hp2 & He2);
      [congruence|by rewrite Hcb1|by rewrite Hcb2|by rewrite Hint|].
    exists this2, e2. split.
    + change (_refresh_loop (S (S turns)))
        with (this ← self;
              if _running this
              then refresh_cycle;; _refresh_loop (S turns) else ret tt).
      rewrite method_bind_run. unfold self at 1. cbv beta iota. cbn [fst].
      by rewrite Hrunning, method_bind_run, Hcycle.
    + split; [by eapply same_settings_trans|]. split; [done|]. split; [done|].
      split; congruence.
Qed.

End refresh_clears.

(** X19: the refresh loop empties the service.  Each turn of the loop
    fetches without a pair, so after one turn or more of a running loop,
    the callbacks for new data returning and [time.sleep] returning for the
    interval of the service (for a negative interval it raises, and the
    loop ends in its first turn), the service holds no slippage point and
    no mempool trade, whatever a handler had fetched before; no request was
    posted and no error reported. *)
Theorem refresh_loop_clears_data `{RT : Runtime}
    (turns : nat) (this : DataService) (e : env) :
  _running this = true →
  returns (_on_slippage_update this) → returns (_on_mempool_update this) →
  sleeps (refresh_interval this) →
  ∃ this' e',
    _refresh_loop (S turns) (this, e) = (Ok tt, (this', e'))
    ∧ slippage_data this' = [] ∧ mempool_data this' = []
    ∧ get_latest_block this' = None
    ∧ posted (trace e') = posted (trace e)
    ∧ errors_reported (trace e') = errors_reported (trace e).
Proof.
  intros Hrunning Hslippage Hmempool Hsleep.
  destruct (refresh_loop_clears turns this e Hrunning Hslippage Hmempool Hsleep)
    as (this' & e' & Hrun & _ & Hs & Hm & Hposted & Herrors).
  exists this', e'. unfold get_latest_block. by rewrite Hs.
Qed.

Lemma refresh_loop_clears_data_witness :
  ∃ this' e',
    _refresh_loop 3
      (service_scenario.service_with_callbacks,
       scenario.start_of
         (service_scenario.full
            [scenario.row_25
               (py "USDC") (py "0xa0b86991c6218b36c1d19d4a2e9eb0ce3606eb48")
               (py "WETH") (py "0xc02aaa39b223fe8d0a0e5c4f27ead9083c756cc2")
               1800.5]
            [mempool_scenario.row_111]))
    = (Ok tt, (this', e'))
    ∧ length (slippage_data service_scenario.service_with_callbacks) = 1%nat
    ∧ length (mempool_data service_scenario.service_with_callbacks) = 2%nat
    ∧ slippage_data this' = [] ∧ mempool_data this' = []
    ∧ posted (trace e') = [].
Proof.
  destruct (refresh_loop_clears_data 2
              service_scenario.service_with_callbacks
              (scenario.start_of
                 (service_scenario.full
                    [scenario.row_25
                       (py "USDC") (py "0xa0b86991c6218b36c1d19d4a2e9eb0ce3606eb48")
                       (py "WETH") (py "0xc02aaa39b223fe8d0a0e5c4f27ead9083c756cc2")
                       1800.5]
                    [mempool_scenario.row_111])))
    as (this' & e' & Hrun & Hs & Hm & _ & Hposted & _).
  - reflexivity.
  - intros x w. by exists w.
  - intros x w. by exists w.
  - intros w. eexists. reflexivity.
  - exists this', e'. split; [exact Hrun|]. split; [reflexivity|].
    split; [by vm_compute|]. split; [exact Hs|]. split; [exact Hm|exact Hposted].
Defined.

Lemma transform_slippage_for_api_order_witness :
  let s25 :=
    scenario.point_25 (py "USDC") scenario.A (py "WETH") scenario.B 1800.5 in
  let s50 := service_scenario.with_tier 50 s25 in
  [s25; s50] ≡ₚ [s50; s25]
  ∧ transform_slippage_for_api [s25; s50] (Some (py "USDC")) (Some (py "WETH")) true
    = transform_slippage_for_api [s50; s25] (Some (py "USDC")) (Some (py "WETH")) true.
Proof.
  cbv zeta. split; [apply perm_swap|].
  apply (proj2 (transform_slippage_for_api_order _ _ _ _ _ (perm_swap _ _ _))).
  apply (bool_decide_unpack _). by vm_compute.
Defined.

(** ** The sizes of the stored data *)

Section sizes.
Context `{RT : Runtime}.

(** With a limit that is not negative, the merger returns at most that
    many trades. *)
Lemma fetch_mempool_trades_bound self lim token_a_address token_b_address
    e trades e' :
  fetch_mempool_trades self lim token_a_address token_b_address e
  = (Ok trades, e') →
  0 ≤ lim → len trades ≤ lim.
Proof.
  intros Hrun Hlim. unfold fetch_mempool_trades in Hrun.
  destruct token_a_address as [a|], token_b_address as [b|];
    try (injection Hrun as <- <-; unfold len; simpl; lia).
  destruct (negb (truthy_str a) || negb (truthy_str b));
    [injection Hrun as <- <-; unfold len; simpl; lia|].
  cbv zeta in Hrun.
  do 6 (apply bind_Ok in Hrun as (? & ? & _ & Hrun)).
  destruct (foldl merge_step _ _) as [seen merged].
  destruct (transform_mempool_account (slice_to merged lim) x10)
    as (trades1 & e2 & errors & Hrun1 & _ & Hlen).
  rewrite Hrun1 in Hrun. injection Hrun as <- <-.
  rewrite slice_to_take, length_take in Hlen by done. unfold len. lia.
Qed.

End sizes.

(** X20: the service never holds more than the limits of the
    configuration ask for: when [fetch_all] returns, what it returns is
    what the service holds, at most fifty slippage points and at most
    twenty mempool trades, whatever the provider sent. *)
Theorem fetch_all_sizes `{RT : Runtime}
    (token_a token_b : option pystr) (this this' : DataService) (e e' : env)
    (slippage : list PoolSlippageData) (mempool : list MempoolTradeData) :
  fetch_all token_a token_b (this, e) = (Ok (slippage, mempool), (this', e')) →
  slippage_data this' = slippage ∧ mempool_data this' = mempool
  ∧ len slippage ≤ 50 ∧ len mempool ≤ 20
  ∧ count (get_mempool_summary this') ≤ 20.
Proof.
  intros Hrun.
  destruct (fetch_all_returns _ _ _ _ _ _ _ _ Hrun) as (Hs & Hm & Hlen).
  split; [done|]. split; [done|]. split; [done|].
  assert (Hmempool : len mempool ≤ 20).
  { rewrite fetch_all_run in Hrun.
    destruct (fetch_slippage_data _ _ _ (this, e)) as [[slippage1|x] [this1 e1]];
      [|done].
    rewrite fetch_mempool_data_run in Hrun.
    destruct (fetch_mempool_trades _ _ _ _ e1) as [[trades|x] e2] eqn:Hfetch;
      [|repeat case_match; by simplify_eq].
    apply fetch_mempool_trades_bound in Hfetch; [|done].
    cbv zeta in Hrun. repeat case_match; by simplify_eq. }
  split; [done|]. by rewrite get_mempool_summary_count, Hm.
Qed.

Lemma fetch_all_sizes_witness :
  ∃ slippage mempool this' e',
    fetch_all (Some (py "USDC")) (Some (py "WETH"))
      (scenario.the_service,
       scenario.start_of
         (service_scenario.full
            [scenario.row_25
               (py "USDC") (py "0xa0b86991c6218b36c1d19d4a2e9eb0ce3606eb48")
               (py "WETH") (py "0xc02aaa39b223fe8d0a0e5c4f27ead9083c756cc2")
               1800.5]
            [mempool_scenario.row_111; mempool_scenario.row_222]))
    = (Ok (slippage, mempool), (this', e'))
    ∧ slippage_data this' = slippage ∧ mempool_data this' = mempool
    ∧ len slippage ≤ 50 ∧ len mempool ≤ 20.
Proof.
  destruct (fetch_all (Some (py "USDC")) (Some (py "WETH")) _)
    as [[[slippage mempool]|x] [this' e']] eqn:Hrun.
  - destruct (fetch_all_sizes _ _ _ _ _ _ _ _ Hrun) as (Hs & Hm & Hls & Hlm & _).
    exists slippage, mempool, this', e'. split; [reflexivity|].
    split; [exact Hs|]. split; [exact Hm|]. split; [exact Hls|exact Hlm].
  - apply (f_equal fst) in Hrun. vm_compute in Hrun. discriminate Hrun.
Defined.
